(** * IntelliDrug-Analysis: orchestration and synthesis core

    A shallow embedding of [master_agent.py] (class [MasterAgent]),
    [conflict_detector.py] (class [ConflictDetector]) and
    [agents/base_agent.py] (class [BaseAgent]), followed by the properties
    of the synthesizer, the conflict detector, the dispatcher and the
    progress map.

    Python values are embedded as the JSON-like type [pyval]; dictionaries
    are finite maps with string keys.  Python's [float] is kept behind the
    interface [PyFloat], with two implementations: [binary64] (IEEE 754
    double precision, what CPython computes with) and [exactQ] (exact
    rationals, the weighted sum without rounding). *)

From Stdlib Require Import ZArith QArith Floats Lia.
From stdpp Require Import gmap strings list fin_maps fin_sets relations.

#[local] Set Warnings "-register-all".
#[local] Open Scope string_scope.
#[local] Open Scope Z_scope.

(** ** Results of fallible Python code *)

Inductive result (E A : Type) : Type :=
  | Ok (a : A)
  | Raise (e : E).
Arguments Ok {E A} a.
Arguments Raise {E A} e.

Definition bind {E A B : Type} (m : result E A) (k : A → result E B) : result E B :=
  match m with
  | Ok a => k a
  | Raise e => Raise e
  end.

Notation "'let*' x ':=' m 'in' k" := (bind m (fun x => k))
  (at level 10, x name, m at level 100, k at level 200).

(** Exceptions raised by the builtins used in the synthesizer and in the
    conflict detector.  Their messages are not modelled. *)
Inductive py_error : Type :=
  | TypeError
  | ValueError
  | OverflowError
  | AttributeError.

(** ** The numeric interface *)

(** The number a float denotes: a fraction in lowest terms, an infinity or
    NaN.  Python compares numbers of different types ([bool], [int],
    [float]) by the numbers they denote. *)
Inductive exact_value : Type :=
  | EFinite (num : Z) (den : positive)
  | EInf (negative : bool)
  | ENaN.

Definition exact_of_Q (q : Q) : exact_value :=
  EFinite (Qnum (Qred q)) (Qden (Qred q)).

(** [flit d k] is the literal [d·10^-k]; [fge x y] is [x >= y] and
    [flt x y] is [x < y]; [fexact x] is the number [x] denotes; [f_of_int]
    is [float(n)], which overflows on huge integers; [fround x k] is
    [round(x, k)]. *)
Class PyFloat (F : Type) : Type := {
  flit : Z → nat → F;
  fadd : F → F → F;
  fmul : F → F → F;
  fge : F → F → bool;
  flt : F → F → bool;
  fexact : F → exact_value;
  f_of_int : Z → option F;
  fround : F → nat → F
}.

(** Nearest integer to [n / d] for [d > 0], ties to even. *)
Definition rne_div (n d : Z) : Z :=
  let q := n / d in
  match 2 * (n mod d) ?= d with
  | Lt => q
  | Gt => q + 1
  | Eq => if Z.even q then q else q + 1
  end.

(** ** Rounding onto the binary64 grid

    Magnitudes are counted in units of [2^E0]: every product of two doubles
    is a whole number of units.  [fexp64 k] is the exponent of the last
    place of a double below [2^k]; [cshift N D] is that exponent for the
    doubles around [N / D], counted from [E0], and [RNq N D] the multiple
    of that last place nearest to [N / D] (ties to even). *)
Definition E0 : Z := -2148.

Definition fexp64 (k : Z) : Z := Z.max (k - 53) (-1074).

Definition cshift (N D : Z) : Z := fexp64 (Z.log2 (N / D) + 1 + E0) - E0.

Definition RNq (N D : Z) : Z :=
  rne_div N (D * 2 ^ cshift N D) * 2 ^ cshift N D.

Module B64.

(** The double nearest to the positive rational [n / d] (ties to even),
    with sign [s]: the quotient is rounded once, to the last place of its
    binade, and normalised (a mantissa that rounds up to [2^53] moves to the
    next exponent; from [2^1024] on the result is an infinity). *)
Definition of_ratio (s : bool) (n d : positive) : spec_float :=
  let N := Zpos n * 2 ^ (- E0) in
  let k := cshift N (Zpos d) in
  match rne_div N (Zpos d * 2 ^ k) with
  | Zpos m => binary_round_aux prec emax s (Zpos m) (k + E0) loc_Exact
  | _ => S754_zero s
  end.

Definition of_signed_ratio (n : Z) (d : positive) : spec_float :=
  match n with
  | Z0 => S754_zero false
  | Zpos p => of_ratio false p d
  | Zneg p => of_ratio true p d
  end.

Definition lit (d : Z) (k : nat) : float :=
  SF2Prim (of_signed_ratio d (Z.to_pos (10 ^ Z.of_nat k))).

(** [float(n)]: [OverflowError] when [n] is too large for a double. *)
Definition of_int (n : Z) : option float :=
  match of_signed_ratio n 1 with
  | S754_infinity _ => None
  | f => Some (SF2Prim f)
  end.

(** The number denoted by a double: [±m·2^e] for a finite one. *)
Definition exact (x : float) : exact_value :=
  match Prim2SF x with
  | S754_zero _ => EFinite 0 1
  | S754_infinity s => EInf s
  | S754_nan => ENaN
  | S754_finite s m e =>
      let a := if s then Zneg m else Zpos m in
      if 0 <=? e then EFinite (a * 2 ^ e) 1
      else exact_of_Q (Qmake a (Z.to_pos (2 ^ (- e))))
  end.

(** [round(x, ndigits)] for [ndigits >= 0]: the exact value of [x] is
    rounded to [ndigits] decimals, ties to even, and the decimal result
    is rounded to the nearest double.  Zeros, infinities and NaN are
    returned as they are. *)
Definition round (x : float) (ndigits : nat) : float :=
  match Prim2SF x with
  | S754_finite s m e =>
      let p := 10 ^ Z.of_nat ndigits in
      let k := if 0 <=? e then Zpos m * 2 ^ e * p
               else rne_div (Zpos m * p) (2 ^ (- e)) in
      match k with
      | Zpos kp => SF2Prim (of_ratio s kp (Z.to_pos p))
      | _ => SF2Prim (S754_zero s)
      end
  | _ => x
  end.

End B64.

#[export] Instance binary64 : PyFloat float := {
  flit := B64.lit;
  fadd := PrimFloat.add;
  fmul := PrimFloat.mul;
  fge x y := PrimFloat.leb y x;
  flt := PrimFloat.ltb;
  fexact := B64.exact;
  f_of_int := B64.of_int;
  fround := B64.round
}.

#[export] Instance exactQ : PyFloat Q := {
  flit d k := Qmake d (Z.to_pos (10 ^ Z.of_nat k));
  fadd := Qplus;
  fmul := Qmult;
  fge x y := Qle_bool y x;
  flt x y := negb (Qle_bool y x);
  fexact := exact_of_Q;
  f_of_int n := Some (inject_Z n);
  fround x k :=
    let p := 10 ^ Z.of_nat k in
    Qmake (rne_div (Qnum x * p) (Zpos (Qden x))) (Z.to_pos p)
}.

(** ** Python values *)

Inductive pyval (F : Type) : Type :=
  | VNone
  | VBool (b : bool)
  | VInt (n : Z)
  | VFloat (x : F)
  | VStr (s : string)
  | VList (l : list (pyval F))
  | VDict (d : gmap string (pyval F)).
Arguments VNone {F}.
Arguments VBool {F} b.
Arguments VInt {F} n.
Arguments VFloat {F} x.
Arguments VStr {F} s.
Arguments VList {F} l.
Arguments VDict {F} d.

(** Builtins whose text processing is not modelled: [float(s)] for a
    string [s] ([None] when it raises [ValueError]) and [str(v)] as used by
    the f-strings of [synthesize_results]. *)
Record builtins (F : Type) : Type := {
  float_of_str : string → option F;
  str_of : pyval F → string
}.
Arguments float_of_str {F} _ _.
Arguments str_of {F} _ _.

Section Values.
Context {F : Type} `{PyFloat F}.
Variable B : builtins F.

(** [d.get(key, default)] *)
Definition dict_get (d : gmap string (pyval F)) (key : string) (default : pyval F)
  : pyval F :=
  match d !! key with
  | Some v => v
  | None => default
  end.

(** [float(v)] *)
Definition py_float (v : pyval F) : result py_error F :=
  match v with
  | VFloat x => Ok x
  | VInt n =>
      match f_of_int n with
      | Some x => Ok x
      | None => Raise OverflowError
      end
  | VBool b => Ok (flit (if b then 1 else 0) 0)
  | VStr s =>
      match float_of_str B s with
      | Some x => Ok x
      | None => Raise ValueError
      end
  | VNone | VList _ | VDict _ => Raise TypeError
  end.

End Values.
(** ** The synthesizer: [MasterAgent.synthesize_results] *)

Section Synthesizer.
Context {F : Type} `{PyFloat F}.
Variable B : builtins F.

(** The weight table, in the order of the dictionary literal. *)
Definition weights : list (string * F) :=
  [ ("patent_analysis", flit 25 2);
    ("clinical_analysis", flit 20 2);
    ("market_analysis", flit 20 2);
    ("web_analysis", flit 15 2);
    ("exim_analysis", flit 10 2);
    ("internal_analysis", flit 10 2) ].

(** The loop [for agent, weight in weights.items()], from the accumulator
    [acc]: an entry that is not a dictionary is skipped; [float(conf)] may
    raise. *)
Fixpoint accumulate (all_agent_results : gmap string (pyval F))
    (ws : list (string * F)) (acc : F) : result py_error F :=
  match ws with
  | [] => Ok acc
  | (agent, weight) :: ws' =>
      match dict_get all_agent_results agent (VDict ∅) with
      | VDict result =>
          let* conf := py_float B (dict_get result "confidence" (VFloat (flit 0 1))) in
          accumulate all_agent_results ws' (fadd acc (fmul conf weight))
      | _ => accumulate all_agent_results ws' acc
      end
  end.

(** The unrounded [overall_confidence] at the end of the loop. *)
Definition overall_confidence (all_agent_results : gmap string (pyval F))
  : result py_error F :=
  accumulate all_agent_results weights (flit 0 1).

Definition recommend (overall : F) : string :=
  if fge overall (flit 75 2) then "PROCEED"
  else if fge overall (flit 5 1) then "CAUTION"
  else "REJECT".

(** [patent.get("fto_status") == "Risk"] *)
Definition fto_is_risk (patent : gmap string (pyval F)) : bool :=
  match patent !! "fto_status" with
  | Some (VStr s) => bool_decide (s = "Risk")
  | _ => false
  end.

Definition patent_factors (all_agent_results : gmap string (pyval F))
  : list string * list string :=
  match dict_get all_agent_results "patent_analysis" (VDict ∅) with
  | VDict patent =>
      ([ "Patent status: " +:+ str_of B (dict_get patent "patent_status" (VStr "N/A")) ],
       if fto_is_risk patent then [ "Patent infringement risk detected" ] else [])
  | _ => ([], [])
  end.

Definition clinical_factors (all_agent_results : gmap string (pyval F)) : list string :=
  match dict_get all_agent_results "clinical_analysis" (VDict ∅) with
  | VDict clinical =>
      [ "Active clinical trials: " +:+ str_of B (dict_get clinical "active_trials" (VInt 0)) ]
  | _ => []
  end.

Definition market_factors (all_agent_results : gmap string (pyval F)) : list string :=
  match dict_get all_agent_results "market_analysis" (VDict ∅) with
  | VDict market =>
      [ "Market opportunity score: "
          +:+ str_of B (dict_get market "opportunity_score" (VStr "N/A")) ]
  | _ => []
  end.

Definition synthesize_results (all_agent_results : gmap string (pyval F))
  : result py_error (gmap string (pyval F)) :=
  let* overall := overall_confidence all_agent_results in
  let recommendation := recommend overall in
  let '(patent_kf, risks) := patent_factors all_agent_results in
  let key_factors :=
    (patent_kf ++ clinical_factors all_agent_results
       ++ market_factors all_agent_results)%list in
  Ok (<["overall_confidence" := VFloat (fround overall 2)]>
      (<["recommendation" := VStr recommendation]>
      (<["key_factors" := VList (VStr <$> key_factors)]>
      (<["risks" := VList (VStr <$>
           match risks with [] => [ "No major risks identified" ] | _ => risks end)]>
      (<["next_steps" := VStr
           (if bool_decide (recommendation = "PROCEED")
            then "Proceed to feasibility study"
            else "Further analysis required")]> ∅))))).

(** How the loop reads the confidence of one capability: an absent entry
    and a dictionary without ["confidence"] both read as [0.0]; a present
    value is converted by [float]. *)
Inductive confidence_is (results : gmap string (pyval F)) (name : string) : F → Prop :=
  | conf_absent :
      results !! name = None →
      confidence_is results name (flit 0 1)
  | conf_missing_field r :
      results !! name = Some (VDict r) →
      r !! "confidence" = None →
      confidence_is results name (flit 0 1)
  | conf_present r v x :
      results !! name = Some (VDict r) →
      r !! "confidence" = Some v →
      py_float B v = Ok x →
      confidence_is results name x.

End Synthesizer.

Arguments weights : clear implicits.
Arguments weights F {_}.

(** ** The conflict detector: [ConflictDetector.detect_conflicts] *)

(** Elements of a Python [set]: the hashable values, up to [==].  [True],
    [1] and [1.0] are one element, identified by the number they denote.
    Values are compared by content: object identity is not modelled. *)
Inductive key : Type :=
  | KNone
  | KNum (x : exact_value)
  | KStr (s : string).

#[export] Instance exact_value_eq_dec : EqDecision exact_value.
Proof. solve_decision. Defined.

#[export] Instance key_eq_dec : EqDecision key.
Proof. solve_decision. Defined.

#[export] Instance exact_value_countable : Countable exact_value :=
  inj_countable'
    (λ x, match x with
          | EFinite n d => inl (n, d)
          | EInf s => inr (Some s)
          | ENaN => inr None
          end)
    (λ c, match c with
          | inl (n, d) => EFinite n d
          | inr (Some s) => EInf s
          | inr None => ENaN
          end)
    (λ x, match x with EFinite _ _ | EInf _ | ENaN => eq_refl end).

#[export] Instance key_countable : Countable key :=
  inj_countable'
    (λ k, match k with
          | KNone => inl ()
          | KNum x => inr (inl x)
          | KStr s => inr (inr s)
          end)
    (λ c, match c with
          | inl _ => KNone
          | inr (inl x) => KNum x
          | inr (inr s) => KStr s
          end)
    (λ k, match k with KNone | KNum _ | KStr _ => eq_refl end).

Module ConflictDetector.

Section Detector.
Context {F : Type} `{PyFloat F}.

(** One element of [expiry_values]: the dictionary with the keys
    ["source"], ["value"] and ["confidence"]. *)
Record expiry_value : Type := {
  source : pyval F;
  value : pyval F;
  confidence : pyval F
}.

(** One element of [conflict_report["conflicts"]]. *)
Record conflict_entry : Type := {
  field : string;
  sources : list expiry_value;
  resolution : string
}.

Record conflict_report : Type := {
  conflict_detected : bool;
  conflicts : list conflict_entry
}.

(** [bool(v)], the truth value tested by [if v["value"]] *)
Definition py_truthy (v : pyval F) : bool :=
  match v with
  | VNone => false
  | VBool b => b
  | VInt n => negb (bool_decide (n = 0))
  | VFloat x => negb (bool_decide (fexact x = EFinite 0 1))
  | VStr s => negb (bool_decide (s = ""))
  | VList l => negb (bool_decide (l = []))
  | VDict d => negb (bool_decide (size d = 0%nat))
  end.

(** The set element of a hashable value; lists and dictionaries are
    unhashable. *)
Definition py_key (v : pyval F) : option key :=
  match v with
  | VNone => Some KNone
  | VBool b => Some (KNum (EFinite (if b then 1 else 0) 1))
  | VInt n => Some (KNum (EFinite n 1))
  | VFloat x => Some (KNum (fexact x))
  | VStr s => Some (KStr s)
  | VList _ | VDict _ => None
  end.

(** The elements produced by [for entry in v]: a dictionary yields its
    keys and a string its characters; other scalars are not iterable. *)
Definition py_iter (v : pyval F) : result py_error (list (pyval F)) :=
  match v with
  | VList l => Ok l
  | VDict d => Ok (VStr <$> (map_to_list d).*1)
  | VStr s => Ok ((λ c, VStr (String c EmptyString)) <$> String.list_ascii_of_string s)
  | VNone | VBool _ | VInt _ | VFloat _ => Raise TypeError
  end.

(** The loop over [patent_data["source_data"]]: [entry.get] exists on
    dictionaries only. *)
Fixpoint collect_sources (entries : list (pyval F))
  : result py_error (list expiry_value) :=
  match entries with
  | [] => Ok []
  | VDict entry :: rest =>
      let v := {| source := dict_get entry "source" (VStr "unknown");
                  value := dict_get entry "expiry_date" VNone;
                  confidence := dict_get entry "confidence" (VInt 0) |} in
      let* vs := collect_sources rest in
      Ok (v :: vs)
  | _ :: _ => Raise AttributeError
  end.

(** [set(elements)]: [TypeError] on an unhashable element. *)
Fixpoint py_set (elements : list (pyval F)) : result py_error (gset key) :=
  match elements with
  | [] => Ok ∅
  | v :: rest =>
      match py_key v with
      | Some k => let* s := py_set rest in Ok ({[ k ]} ∪ s)
      | None => Raise TypeError
      end
  end.

(** [set([v["value"] for v in expiry_values if v["value"]])] *)
Definition unique_values (expiry_values : list expiry_value)
  : result py_error (gset key) :=
  py_set (filter (λ v, py_truthy v) (value <$> expiry_values)).

Definition detect_conflicts (results_dict : gmap string (pyval F))
  : result py_error conflict_report :=
  match dict_get results_dict "patent_analysis" (VDict ∅) with
  | VDict patent_data =>
      let* expiry_values :=
        match patent_data !! "source_data" with
        | Some source_data =>
            let* entries := py_iter source_data in
            collect_sources entries
        | None =>
            Ok [ {| source := VStr "Generic";
                    value := dict_get patent_data "expiry_date" VNone;
                    confidence := dict_get patent_data "confidence" (VInt 0) |} ]
        end in
      let* unique := unique_values expiry_values in
      if bool_decide (1 < size unique)%nat
      then Ok {| conflict_detected := true;
                 conflicts :=
                   [ {| field := "patent_expiry";
                        sources := expiry_values;
                        resolution :=
                          "Use highest confidence source with flag for review" |} ] |}
      else Ok {| conflict_detected := false; conflicts := [] |}
  | _ => Ok {| conflict_detected := false; conflicts := [] |}
  end.

End Detector.

Arguments expiry_value F : clear implicits.
Arguments conflict_entry F : clear implicits.
Arguments conflict_report F : clear implicits.

End ConflictDetector.

(** ** Agents: [agents/*.py] *)

(** The six provider classes registered by [MasterAgent.__init__]. *)
Inductive agent_class : Type :=
  | PatentAgent
  | ClinicalTrialsAgent
  | MarketAgent
  | WebIntelligenceAgent
  | EXIMAgent
  | InternalKnowledgeAgent.

(** An exception object, as far as the dispatcher looks at it: whether it
    is an [asyncio.TimeoutError], and [str(e)].  Only subclasses of
    [Exception] are modelled. *)
Record exn : Type := {
  is_timeout : bool;
  exn_str : string
}.

Definition TimeoutError : exn := {| is_timeout := true; exn_str := "" |}.

(** What one call [agent.analyze(molecule_name, disease_name)] does in the
    thread pool: for how many seconds it runs and how it ends.  The
    providers themselves (file loading, prompts, the language model) are
    outside the core. *)
Record call (F : Type) : Type := {
  elapsed : Q;
  outcome : result exn (pyval F)
}.
Arguments elapsed {F} _.
Arguments outcome {F} _.

(** [await loop.run_in_executor(None, self.analyze, ...)]: the awaiting
    coroutine resumes with the outcome of the call, however long it takes. *)
Definition run_in_executor {F : Type} (c : call F) : call F := c.

Definition await {F : Type} (c : call F) : result exn (pyval F) := outcome c.

(** [asyncio.wait_for(fut, timeout)]: the outcome of [fut] when it is done
    within [timeout] seconds, [TimeoutError] otherwise. *)
Definition wait_for {F : Type} (fut : call F) (timeout : Q) : call F :=
  if Qle_bool (elapsed fut) timeout then fut
  else {| elapsed := timeout; outcome := Raise TimeoutError |}.

Module BaseAgent.

(** [BaseAgent.analyze_async]: the call in the executor, under a timeout
    of 30 seconds. *)
Definition analyze_async {F : Type} (analyze : call F) : result exn (pyval F) :=
  await (wait_for (run_in_executor analyze) 30).

End BaseAgent.

(** [agent.analyze_async(...)] as the method resolution order finds it:
    each of the six classes defines its own [analyze_async], which awaits
    [run_in_executor] directly. *)
Definition analyze_async {F : Type} (agent : agent_class) (analyze : call F)
  : result exn (pyval F) :=
  match agent with
  | PatentAgent => await (run_in_executor analyze)
  | ClinicalTrialsAgent => await (run_in_executor analyze)
  | MarketAgent => await (run_in_executor analyze)
  | WebIntelligenceAgent => await (run_in_executor analyze)
  | EXIMAgent => await (run_in_executor analyze)
  | InternalKnowledgeAgent => await (run_in_executor analyze)
  end.

(** ** The orchestrator: [MasterAgent] *)

Inductive status : Type :=
  | Pending
  | Running
  | Complete
  | Failed.

#[export] Instance status_eq_dec : EqDecision status.
Proof. solve_decision. Defined.

(** Python objects live in a store; a dictionary is used through a
    reference to it.  Only progress dictionaries are kept there. *)
Abbreviation loc := positive.

Abbreviation store := (gmap loc (gmap string status)).

(** The fields of a [MasterAgent] object; [self.agents] and
    [self.report_generator] are the same for every instance. *)
Record MasterAgent : Type := {
  progress : loc
}.

(** [self.agents], in insertion order *)
Definition agents : list (string * agent_class) :=
  [ ("patent_analysis", PatentAgent);
    ("clinical_analysis", ClinicalTrialsAgent);
    ("market_analysis", MarketAgent);
    ("web_analysis", WebIntelligenceAgent);
    ("exim_analysis", EXIMAgent);
    ("internal_analysis", InternalKnowledgeAgent) ].

(** [MasterAgent()]: a fresh dictionary with every agent [Pending]. *)
Definition init (σ : store) : MasterAgent * store :=
  let l := fresh (dom σ) in
  ({| progress := l |},
   <[l := list_to_map ((λ p : string * agent_class, (p.1, Pending)) <$> agents)]> σ).

(** [self.get_analysis_progress()] returns [self.progress], the reference
    itself. *)
Definition get_analysis_progress (self : MasterAgent) : loc := progress self.

(** Reading a dictionary through a reference. *)
Definition deref (σ : store) (l : loc) : gmap string status :=
  default ∅ (σ !! l).

(** [self.progress[name] = st] *)
Definition set_progress (self : MasterAgent) (name : string) (st : status)
    (σ : store) : store :=
  alter (insert name st) (progress self) σ.

Section Dispatcher.
Context {F : Type} `{PyFloat F}.
Variable B : builtins F.

(** The surroundings of one run: the behaviour of the providers, the
    report renderer [ReportGeneratorAgent.generate_report] and the clock
    behind [datetime.utcnow().isoformat() + "Z"]. *)
Variable analyze : agent_class → string → string → call F.
Variable generate_report :
  string → string → gmap string (pyval F) → result exn string.
Variable timestamp : string.

Variable self : MasterAgent.
Variables molecule_name disease_name : string.

(** The result substituted for a task that failed. *)
Definition degraded (error : string) : pyval F :=
  VDict (<["error" := VStr error]> (<["confidence" := VFloat (flit 0 1)]> ∅)).

(** The [try] statement of [_run_agent_async], once the awaited call has
    ended: the status written to the progress map and the value returned. *)
Definition settle (awaited : result exn (pyval F)) : status * pyval F :=
  match awaited with
  | Ok result => (Complete, result)
  | Raise e =>
      if is_timeout e then (Failed, degraded "Timeout")
      else (Failed, degraded (exn_str e))
  end.

(** A coroutine [_run_agent_async(name, agent, ...)] wrapped in a task by
    [asyncio.gather]: not yet started, suspended in its [await], or done
    with the value it returned (or the exception it raised). *)
Inductive task_state : Type :=
  | Scheduled
  | Awaiting
  | Finished (r : result exn (pyval F)).

Record state : Type := {
  heap : store;
  tasks : gmap string task_state
}.

(** The event loop runs one task at a time up to its next suspension:
    [Start name] runs [_run_agent_async] from its first line to the
    [await]; [Settle name] resumes it when the awaited call has ended and
    runs it to its [return]. *)
Inductive event : Type :=
  | Start (name : string)
  | Settle (name : string).

Definition agent_of (name : string) : option agent_class :=
  (list_to_map agents : gmap string agent_class) !! name.

Definition exec (ev : event) (s : state) : option state :=
  match ev with
  | Start name =>
      match tasks s !! name with
      | Some Scheduled =>
          Some {| heap := set_progress self name Running (heap s);
                  tasks := <[name := Awaiting]> (tasks s) |}
      | _ => None
      end
  | Settle name =>
      match tasks s !! name, agent_of name with
      | Some Awaiting, Some agent =>
          let settled :=
            settle (analyze_async agent (analyze agent molecule_name disease_name)) in
          Some {| heap := set_progress self name settled.1 (heap s);
                  tasks := <[name := Finished (Ok settled.2)]> (tasks s) |}
      | _, _ => None
      end
  end.

Definition step (s s' : state) : Prop := ∃ ev, exec ev s = Some s'.

Fixpoint run (schedule : list event) (s : state) : option state :=
  match schedule with
  | [] => Some s
  | ev :: rest =>
      match exec ev s with
      | Some s' => run rest s'
      | None => None
      end
  end.

(** [asyncio.gather], called with [return_exceptions=True], has wrapped
    the six coroutines in tasks. *)
Definition launch (σ : store) : state :=
  {| heap := σ;
     tasks := list_to_map ((λ p : string * agent_class, (p.1, Scheduled)) <$> agents) |}.

(** The value of the awaited [asyncio.gather] once every task is done:
    the results in the order of [self.agents]. *)
Definition gather (s : state) : option (list (result exn (pyval F))) :=
  mapM (λ p : string * agent_class,
          match tasks s !! p.1 with
          | Some (Finished r) => Some r
          | _ => None
          end) agents.

(** The loop over [zip(self.agents.keys(), results_list)]. *)
Definition build_results (results_list : list (result exn (pyval F)))
  : gmap string (pyval F) :=
  fold_left
    (λ all_results (p : string * result exn (pyval F)),
       match p.2 with
       | Raise e => <[p.1 := degraded (exn_str e)]> all_results
       | Ok result => <[p.1 := result]> all_results
       end)
    (zip agents.*1 results_list) ∅.

(** What [analyze_repurposing_async] raises: it has no handler around the
    synthesis or around the renderer. *)
Inductive run_error : Type :=
  | SynthesisRaised (e : py_error)
  | RendererRaised (e : exn).

(** [analyze_repurposing_async] after the join. *)
Definition assemble (results_list : list (result exn (pyval F)))
  : result run_error (gmap string (pyval F)) :=
  let all_results := build_results results_list in
  let all_results := <["molecule" := VStr molecule_name]> all_results in
  let all_results := <["disease" := VStr disease_name]> all_results in
  let all_results := <["timestamp" := VStr timestamp]> all_results in
  match synthesize_results B all_results with
  | Raise e => Raise (SynthesisRaised e)
  | Ok master_synthesis =>
      let all_results := <["master_synthesis" := VDict master_synthesis]> all_results in
      match generate_report molecule_name disease_name all_results with
      | Raise e => Raise (RendererRaised e)
      | Ok pdf_path => Ok (<["pdf_report" := VStr pdf_path]> all_results)
      end
  end.

(** One run of [analyze_repurposing_async] from the store [σ], the event
    loop resuming the tasks in the order [schedule]: the store at the end
    and what the coroutine returns or raises.  [None] when [schedule] is
    not an execution that ends with every task done. *)
Definition analyze_repurposing_async (schedule : list event) (σ : store)
  : option (store * result run_error (gmap string (pyval F))) :=
  s ← run schedule (launch σ);
  results_list ← gather s;
  Some (heap s, assemble results_list).

(** The order in which asyncio resumes the tasks when the calls end in
    the order of [self.agents]. *)
Definition in_order : list event :=
  (Start <$> agents.*1) ++ (Settle <$> agents.*1).

End Dispatcher.

Arguments task_state F : clear implicits.
Arguments state F : clear implicits.
Arguments run_error : clear implicits.
(** ** Concrete runs on binary64 *)

Definition no_builtins {F : Type} : builtins F :=
  {| float_of_str := λ _, None; str_of := λ _, "" |}.

(** A result map in which the clinical capability is absent, the market
    capability has no confidence and the web capability reports the
    integer [1]. *)
Definition partial_results : gmap string (pyval float) :=
  <["patent_analysis" := VDict {[ "confidence" := VFloat (B64.lit 9 1) ]}]>
  (<["market_analysis" := VDict {[ "opportunity_score" := VInt 7 ]}]>
  (<["web_analysis" := VDict {[ "confidence" := VInt 1 ]}]>
  (<["exim_analysis" := VDict {[ "confidence" := VFloat (B64.lit 5 1) ]}]>
  (<["internal_analysis" := VDict {[ "confidence" := VFloat (B64.lit 4 1) ]}]>
  (<["molecule" := VStr "aspirin"]> ∅))))).

Definition partial_confidences (name : string) : float :=
  if bool_decide (name = "patent_analysis") then B64.lit 9 1
  else if bool_decide (name = "web_analysis") then B64.lit 1 0
  else if bool_decide (name = "exim_analysis") then B64.lit 5 1
  else if bool_decide (name = "internal_analysis") then B64.lit 4 1
  else B64.lit 0 1.

(** A run in exact arithmetic: the patent confidence goes from 1/2 to 3/4. *)
Definition q_results (patent_conf : Q) : gmap string (pyval Q) :=
  <["patent_analysis" := VDict {[ "confidence" := VFloat patent_conf ]}]>
  (<["clinical_analysis" := VDict {[ "confidence" := VFloat (8 # 10) ]}]>
  (<["market_analysis" := VDict {[ "confidence" := VInt 1 ]}]> ∅)).

Definition q_sum (patent_conf : Q) : Q :=
  match overall_confidence no_builtins (q_results patent_conf) with
  | Ok s => s
  | Raise _ => 0
  end.

(** The same run on doubles. *)
Definition f_results (patent_conf : float) : gmap string (pyval float) :=
  <["patent_analysis" := VDict {[ "confidence" := VFloat patent_conf ]}]>
  (<["clinical_analysis" := VDict {[ "confidence" := VFloat (B64.lit 8 1) ]}]>
  (<["market_analysis" := VDict {[ "confidence" := VInt 1 ]}]> ∅)).

Definition f_sum (patent_conf : float) : float :=
  match overall_confidence no_builtins (f_results patent_conf) with
  | Ok s => s
  | Raise _ => 0
  end.

(** Every capability reports the confidence [x]. *)
Definition uniform_results (x : float) : gmap string (pyval float) :=
  list_to_map ((λ p : string * float, (p.1, VDict {[ "confidence" := VFloat x ]}))
                 <$> weights float).


(** A run in which the patent provider needs 45 seconds before it returns
    its result, the market provider raises, and the others answer within
    a second. *)
Definition sample_analyze (agent : agent_class) (molecule_name disease_name : string)
  : call float :=
  match agent with
  | PatentAgent =>
      {| elapsed := 45;
         outcome := Ok (VDict {[ "confidence" := VFloat (B64.lit 9 1) ]}) |}
  | MarketAgent =>
      {| elapsed := 1;
         outcome := Raise {| is_timeout := false;
                             exn_str := "Disease not found in market_data.json" |} |}
  | _ =>
      {| elapsed := 1;
         outcome := Ok (VDict {[ "confidence" := VFloat (B64.lit 5 1) ]}) |}
  end.

Definition report_written (molecule_name disease_name : string)
    (all_agent_results : gmap string (pyval float)) : result exn string :=
  Ok "reports/aspirin_flu_analysis_report.pdf".

Definition disk_full : exn :=
  {| is_timeout := false; exn_str := "No space left on device" |}.

Definition report_fails (molecule_name disease_name : string)
    (all_agent_results : gmap string (pyval float)) : result exn string :=
  Raise disk_full.

(** The sample run on a new [MasterAgent], with either renderer. *)
Definition sample_run
    (generate_report : string → string → gmap string (pyval float) → result exn string)
  : option (store * result run_error (gmap string (pyval float))) :=
  analyze_repurposing_async no_builtins sample_analyze generate_report
    "2024-01-01T00:00:00Z" (init ∅).1 "aspirin" "flu" in_order (init ∅).2.

(** ** The order of the non-negative doubles *)

Module B64Order.

(** [2^1024], in units of [2^E0]: the least magnitude that rounds to an
    infinity when it is a multiple of the last place. *)
Definition TOP : Z := 2 ^ (1024 - E0).

(** The value of a non-negative double, in units of [2^E0]; [+inf] counts
    as [2^1024]. *)
Definition uval (f : spec_float) : Z :=
  match f with
  | S754_zero _ => 0
  | S754_finite _ m e => Zpos m * 2 ^ (e - E0)
  | S754_infinity _ => TOP
  | S754_nan => 0
  end.

(** Zeros of either sign, positive finite doubles and [+inf]. *)
Definition nonneg (f : spec_float) : Prop :=
  match f with
  | S754_zero _ => True
  | S754_finite s _ _ => s = false
  | S754_infinity s => s = false
  | S754_nan => False
  end.

(** The record after [k] one-bit shifts of a non-negative mantissa: the
    quotient, and round and sticky bits that locate the remainder with
    respect to the half of [2^k]. *)
Definition located (m : Z) (k : Z) (mrs : shr_record) : Prop :=
  shr_m mrs = m / 2 ^ k
  ∧ (shr_r mrs = false → 2 * (m mod 2 ^ k) < 2 ^ k)
  ∧ (shr_r mrs = true → shr_s mrs = false → 2 * (m mod 2 ^ k) = 2 ^ k)
  ∧ (shr_r mrs = true → shr_s mrs = true → 2 * (m mod 2 ^ k) > 2 ^ k)
  ∧ (shr_r mrs || shr_s mrs = true ↔ m mod 2 ^ k ≠ 0).

(** The sum of two non-negative doubles of values [a] and [t]: the exact
    sum rounded, or [+inf] from [2^1024] on. *)
Definition addR (a t : Z) : Z := Z.min (RNq (a + t) 1) TOP.

(** The product of two non-negative doubles of values [a] and [w]: the
    exact product, [a * w / 2^(-E0)] units, rounded, or [+inf]. *)
Definition mulR (a w : Z) : Z := Z.min (RNq (a * w) (2 ^ (- E0))) TOP.

(** Rounding a multiple of the unit onto the grid and into the range. *)
Definition clamp (v : Z) : Z := Z.min (RNq v 1) TOP.

(** [round(x, k)] on values: [x] in units of [10^-k], to the nearest
    integer, and that decimal to the nearest double. *)
Definition roundR (k : nat) (a : Z) : Z :=
  let p := 10 ^ Z.of_nat k in
  clamp (RNq (rne_div (a * p) (2 ^ (- E0)) * 2 ^ (- E0)) p).

(** The same on machine floats. *)
Definition fval (x : float) : Z := uval (Prim2SF x).

Definition fnonneg (x : float) : Prop := nonneg (Prim2SF x).

End B64Order.

(** ** Further readings of the synthesizer *)

Section SynthesizerReadings.
Context {F : Type} `{PyFloat F}.
Variable B : builtins F.

(** The confidence of [agent] converts: its result is not a dictionary (it
    is skipped by the loop), or [float] accepts the confidence read from
    it. *)
Definition converts (results : gmap string (pyval F)) (agent : string) : Prop :=
  ∀ r, results !! agent = Some (VDict r) →
       ∃ x, py_float B (dict_get r "confidence" (VFloat (flit 0 1))) = Ok x.

End SynthesizerReadings.

(** ** The progress map at the end of a run *)

Section FinalProgress.
Context {F : Type}.
Variable analyze : agent_class → string → string → call F.
Variables molecule_name disease_name : string.

(** The status [_run_agent_async] leaves for [agent]: each of the six
    classes awaits its call without a timeout, so the status only depends
    on whether the call returns or raises. *)
Definition final_status (agent : agent_class) : status :=
  match outcome (analyze agent molecule_name disease_name) with
  | Ok _ => Complete
  | Raise _ => Failed
  end.

(** The entry of [name] in the progress map, given the stage [t] of its
    task and the entry [old] it had when the run began. *)
Definition stamp (t : option (task_state F)) (name : string) (old : option status)
  : option status :=
  match t with
  | Some Awaiting => Some Running
  | Some (Finished _) =>
      match agent_of name with
      | Some agent => Some (final_status agent)
      | None => old
      end
  | Some Scheduled | None => old
  end.

(** The store of a run that began in [σ0]: only the progress dictionary of
    [self] has changed, entry by entry as the tasks advanced. *)
Definition tracks (self : MasterAgent) (σ0 : store) (s : state F) : Prop :=
  (∀ l, l ≠ progress self → heap s !! l = σ0 !! l)
  ∧ (is_Some (heap s !! progress self) ↔ is_Some (σ0 !! progress self))
  ∧ (∀ name, deref (heap s) (progress self) !! name
             = stamp (tasks s !! name) name (deref σ0 (progress self) !! name))
  ∧ (∀ name, tasks s !! name = None ↔ agent_of name = None).

End FinalProgress.

(** ** Further concrete runs *)

(** The calls end in the opposite order of [self.agents]. *)
Definition settle_reversed : list event :=
  (Start <$> agents.*1) ++ (Settle <$> reverse agents.*1).

(** The synthesis of [partial_results]. *)
Definition partial_synthesis : gmap string (pyval float) :=
  match synthesize_results no_builtins partial_results with
  | Ok d => d
  | Raise _ => ∅
  end.

(** The store and the bundle at the end of the sample run. *)
Definition sample_store : store :=
  match sample_run report_written with
  | Some (σ', _) => σ'
  | None => ∅
  end.

Definition sample_bundle : gmap string (pyval float) :=
  match sample_run report_written with
  | Some (_, Ok bundle) => bundle
  | _ => ∅
  end.

(** Every provider call raises. *)
Definition failing_analyze (agent : agent_class) (molecule_name disease_name : string)
  : call float :=
  {| elapsed := 1;
     outcome := Raise {| is_timeout := false;
                         exn_str := "Gemini API request failed: quota exceeded" |} |}.

(** ** Source lists for the conflict detector *)

Definition source_entry (name expiry : string) : pyval float :=
  VDict (<["source" := VStr name]> (<["expiry_date" := VStr expiry]> ∅)).

(** A patent result with the given ["source_data"]. *)
Definition patent_with (source_data : pyval float) : gmap string (pyval float) :=
  {[ "patent_analysis" := VDict {[ "source_data" := source_data ]} ]}.

(** Two outcomes of a step of the detector that agree up to the order of
    the sources. *)
Definition same_sources {F : Type}
    (a b : result py_error (list (ConflictDetector.expiry_value F))) : Prop :=
  match a, b with
  | Ok x, Ok y => x ≡ₚ y
  | Raise e, Raise e' => e = e'
  | _, _ => False
  end.

(** ** Providers: [agents/*.py]

    The providers read JSON files, call a language model and check its
    answer.  What the file system and the model do is given from outside:
    the outcome of loading a file, the outcome of one call of the model.
    Text processing that depends on Unicode tables or on regular
    expressions is kept abstract. *)

(** [s.strip()], [s.lower()], the removal of Markdown fences
    done by [re.sub] followed by [strip], and [json.loads] ([None] when it
    raises [JSONDecodeError]), [sep.join(v)] for a string or a dictionary
    [v], and the text of a set of strings in an f-string. *)
Record text (F : Type) : Type := {
  strip : string → string;
  lower : string → string;
  clean_fences : string → string;
  json_loads : string → option (pyval F);
  join_other : string → pyval F → string;
  set_repr : gset string → string
}.
Arguments strip {F} _ _.
Arguments lower {F} _ _.
Arguments clean_fences {F} _ _.
Arguments json_loads {F} _ _.
Arguments join_other {F} _ _ _.
Arguments set_repr {F} _ _.

(** What a provider raises: an error of a builtin, [KeyError],
    [ValueError] or [RuntimeError] with its message, or whatever loading a
    file raised. *)
Inductive agent_error : Type :=
  | Builtin (e : py_error)
  | KeyError (key : string)
  | ValueErrorMsg (message : string)
  | RuntimeError (message : string)
  | LoadError (e : exn).

Section ProviderValues.
Context {F : Type} `{PyFloat F}.
Variable B : builtins F.
Variable T : text F.

(** [v == s] for a string literal [s] *)
Definition eq_str (v : pyval F) (s : string) : bool :=
  match v with
  | VStr s' => bool_decide (s' = s)
  | _ => false
  end.

(** [v.get(key, default)]: only dictionaries have [get]. *)
Definition py_get (v : pyval F) (key : string) (default : pyval F)
  : result agent_error (pyval F) :=
  match v with
  | VDict d => Ok (dict_get d key default)
  | _ => Raise (Builtin AttributeError)
  end.

(** [sep.join(v)]: a list must hold strings only; the characters of a
    string and the keys of a JSON object are strings; other values are not
    iterable. *)
Definition py_join (sep : string) (v : pyval F) : result agent_error string :=
  match v with
  | VList l =>
      match mapM (λ x, match x with VStr s => Some s | _ => None end) l with
      | Some ss => Ok (String.concat sep ss)
      | None => Raise (Builtin TypeError)
      end
  | VStr _ | VDict _ => Ok (join_other T sep v)
  | VNone | VBool _ | VInt _ | VFloat _ => Raise (Builtin TypeError)
  end.

(** [str(v).strip().lower()] and [s.strip().lower()] *)
Definition normal (s : string) : string := lower T (strip T s).

(** [float(v)], as a provider error *)
Definition to_float (v : pyval F) : result agent_error F :=
  match py_float B v with
  | Ok x => Ok x
  | Raise e => Raise (Builtin e)
  end.

(** [for entry in v], as a provider error *)
Definition elements (v : pyval F) : result agent_error (list (pyval F)) :=
  match ConflictDetector.py_iter v with
  | Ok items => Ok items
  | Raise e => Raise (Builtin e)
  end.

End ProviderValues.

(** ** [agents/exim_agent.py] *)

Module EXIM.

Section Agent.
Context {F : Type} `{PyFloat F}.
Variable B : builtins F.
Variable T : text F.

(** [self.data_path] *)
Variable data_path : string.

(** The outcome of [json.load(f)] on the trade data file, and of
    [model.generate_content(prompt)] followed by the read of its text. *)
Variable loaded : result exn (pyval F).
Variable generated : result exn string.

(** [_load_trade_data]: [data.get("molecules", [])] *)
Definition load_trade_data : result agent_error (pyval F) :=
  match loaded with
  | Raise e => Raise (LoadError e)
  | Ok data => py_get data "molecules" (VList [])
  end.

(** [_clean_model_output] *)
Definition clean_model_output (raw_output : string) : string :=
  if bool_decide (raw_output = "") then "" else clean_fences T raw_output.

(** [_call_gemini]: every exception of the call becomes a
    [RuntimeError]. *)
Definition call_gemini : result agent_error string :=
  match generated with
  | Ok raw => Ok raw
  | Raise e => Raise (RuntimeError ("Gemini API request failed: " +:+ exn_str e))
  end.

(** [_fallback_analysis] *)
Definition fallback_analysis (entry : gmap string (pyval F))
  : result agent_error (gmap string (pyval F)) :=
  let import_dep := dict_get entry "import_dependency" (VStr "Medium") in
  let dom_prod := dict_get entry "domestic_production" (VStr "Medium") in
  let* top_sources :=
    py_get (dict_get entry "india_imports" (VDict ∅)) "top_sources" (VList []) in
  let sourcing_risk := dict_get entry "sourcing_risk" (VStr "Medium") in
  let lowered := lower T (str_of B dom_prod) in
  let domestic_availability :=
    bool_decide (lowered = "high") || bool_decide (lowered = "medium") in
  let '(viability, conf) :=
    if eq_str import_dep "Low" && eq_str dom_prod "High"
    then ("Favorable", flit 85 2)
    else if eq_str import_dep "High" && eq_str dom_prod "Low"
    then ("Risky", flit 4 1)
    else ("Cautionary", flit 6 1) in
  let* joined := py_join T ", " top_sources in
  let insights :=
    "Import dependency: " +:+ str_of B import_dep
      +:+ ". Domestic production: " +:+ str_of B dom_prod
      +:+ ". Top sources: " +:+ joined
      +:+ ". Sourcing risk: " +:+ str_of B sourcing_risk +:+ "." in
  Ok (<["import_dependency" := import_dep]>
      (<["domestic_availability" := VBool domestic_availability]>
      (<["top_import_sources" := top_sources]>
      (<["sourcing_risk" := sourcing_risk]>
      (<["manufacturing_viability" := VStr viability]>
      (<["key_insights" := VStr insights]>
      (<["confidence" := VFloat conf]> ∅))))))).

(** The keys checked after the model has answered. *)
Definition expected_keys : list string :=
  [ "import_dependency"; "domestic_availability"; "top_import_sources";
    "sourcing_risk"; "manufacturing_viability"; "key_insights"; "confidence" ].

(** The generator handed to [next]: the first entry whose name matches;
    [m.get] exists on dictionaries only. *)
Fixpoint first_match (molecules : list (pyval F)) (molecule_name : string)
  : result agent_error (option (gmap string (pyval F))) :=
  match molecules with
  | [] => Ok None
  | VDict m :: rest =>
      if bool_decide (normal T (str_of B (dict_get m "molecule_name" (VStr "")))
                      = normal T molecule_name)
      then Ok (Some m)
      else first_match rest molecule_name
  | _ :: _ => Raise (Builtin AttributeError)
  end.

(** The loop [for k in missing: result[k] = fallback.get(k)] *)
Definition fill_missing (result fallback : gmap string (pyval F))
  : gmap string (pyval F) :=
  foldr (λ k r, if bool_decide (is_Some (result !! k)) then r
                else <[k := dict_get fallback k VNone]> r)
        result expected_keys.

Definition analyze_sourcing (molecule_name : string)
  : result agent_error (pyval F) :=
  let* molecules := load_trade_data in
  let* items := elements molecules in
  let* entry := first_match items molecule_name in
  match entry with
  | None =>
      Ok (VDict {[ "error" := VStr ("Molecule '" +:+ molecule_name
                                      +:+ "' not found in " +:+ data_path) ]})
  | Some entry =>
      if bool_decide (size entry = 0%nat)
      then Ok (VDict {[ "error" := VStr ("Molecule '" +:+ molecule_name
                                           +:+ "' not found in " +:+ data_path) ]})
      else
        match call_gemini with
        | Raise _ => let* r := fallback_analysis entry in Ok (VDict r)
        | Ok raw =>
            match json_loads T (clean_model_output raw) with
            | None => let* r := fallback_analysis entry in Ok (VDict r)
            | Some (VDict result) =>
                let* result :=
                  if forallb (λ k, bool_decide (is_Some (result !! k))) expected_keys
                  then Ok result
                  else let* fallback := fallback_analysis entry in
                       Ok (fill_missing result fallback) in
                let* conf := to_float B (dict_get result "confidence" (VFloat (flit 5 1))) in
                Ok (VDict (<["confidence" := VFloat conf]> result))
            | Some _ => Raise (Builtin AttributeError)
            end
        end
  end.

(** [EXIMAgent.analyze] *)
Definition analyze (molecule_name : string) (disease_name : pyval F)
  : result agent_error (pyval F) :=
  analyze_sourcing molecule_name.

End Agent.

End EXIM.

(** ** [agents/patent_agent.py] *)

(** What [generate_content] hands back: it raised, the response is empty
    or has no text, or the text of the response. *)
Inductive reply : Type :=
  | CallRaised (e : exn)
  | NoText
  | Text (text : string).

Module Patent.

Section Agent.
Context {F : Type} `{PyFloat F}.
Variable B : builtins F.
Variable T : text F.

(** The outcome of [_load_patent_data] and of the call of the model. *)
Variable loaded : result exn (pyval F).
Variable response : reply.

Definition load_patent_data : result agent_error (pyval F) :=
  match loaded with
  | Ok data => Ok data
  | Raise e => Raise (LoadError e)
  end.

(** The loop of [_find_molecule_record]: [entry["molecule_name"]] is a
    [KeyError] on a dictionary without the key and a [TypeError] on any
    other value; [strip] exists on strings only. *)
Fixpoint find_in (data : list (pyval F)) (molecule_name : string)
  : result agent_error (gmap string (pyval F)) :=
  match data with
  | [] => Raise (ValueErrorMsg ("Molecule '" +:+ molecule_name
                                  +:+ "' not found in patent_data.json"))
  | VDict entry :: rest =>
      match entry !! "molecule_name" with
      | None => Raise (KeyError "molecule_name")
      | Some (VStr name) =>
          if bool_decide (normal T name = normal T molecule_name)
          then Ok entry
          else find_in rest molecule_name
      | Some _ => Raise (Builtin AttributeError)
      end
  | _ :: _ => Raise (Builtin TypeError)
  end.

(** [_find_molecule_record] *)
Definition find_molecule_record (molecule_name : string)
  : result agent_error (gmap string (pyval F)) :=
  let* data := load_patent_data in
  let* entries := elements data in
  find_in entries molecule_name.

Definition required_keys : list string :=
  [ "molecule"; "patent_status"; "expiry_date"; "fto_status"; "confidence";
    "reasoning" ].

Definition search_patent (molecule_name : string) : result agent_error (pyval F) :=
  let* molecule_record := find_molecule_record molecule_name in
  match response with
  | CallRaised e => Raise (RuntimeError ("Gemini API request failed: " +:+ exn_str e))
  | NoText => Raise (RuntimeError "Gemini API returned an empty response.")
  | Text text =>
      let raw_output := strip T text in
      match json_loads T (clean_fences T raw_output) with
      | None =>
          Raise (RuntimeError ("Failed to parse Gemini response as JSON: " +:+ raw_output))
      | Some (VDict result) =>
          let missing : gset string :=
            list_to_set required_keys ∖ dom result in
          if bool_decide (missing = ∅) then Ok (VDict result)
          else Raise (RuntimeError ("Gemini response missing keys: " +:+ set_repr T missing))
      | Some _ => Raise (Builtin AttributeError)
      end
  end.

(** [PatentAgent.analyze] *)
Definition analyze (molecule_name : string) (disease_name : pyval F)
  : result agent_error (pyval F) :=
  search_patent molecule_name.

End Agent.

End Patent.

(** The values [", ".join] accepts: a list of strings, a string, a
    dictionary. *)
Definition joinable {F : Type} (v : pyval F) : Prop :=
  match v with
  | VList l => Forall (λ x, ∃ s, x = VStr s) l
  | VStr _ | VDict _ => True
  | VNone | VBool _ | VInt _ | VFloat _ => False
  end.


(** ** Sample providers *)

(** [lower] on the letters A to Z. *)
Fixpoint lower_ascii (s : string) : string :=
  match s with
  | EmptyString => EmptyString
  | String c rest =>
      let n := Ascii.nat_of_ascii c in
      String (if (65 <=? n)%nat && (n <=? 90)%nat then Ascii.ascii_of_nat (n + 32) else c)
             (lower_ascii rest)
  end.

(** An answer of the model about a patent; its confidence is a word. *)
Definition sample_patent_answer : gmap string (pyval float) :=
  <["molecule" := VStr "aspirin"]>
  (<["patent_status" := VStr "Expired"]>
  (<["expiry_date" := VStr "1917-02-27"]>
  (<["fto_status" := VStr "Clear"]>
  (<["confidence" := VStr "high"]>
  (<["reasoning" := VStr "The basic patent has expired."]> ∅))))).

(** Text operations for names without surrounding blanks; two texts
    parse, the empty JSON object and the text standing for
    [sample_patent_answer]. *)
Definition sample_text : text float :=
  {| strip := λ s, s;
     lower := lower_ascii;
     clean_fences := λ s, s;
     json_loads := λ s, if bool_decide (s = "{}") then Some (VDict ∅)
                        else if bool_decide (s = "{patent answer}")
                        then Some (VDict sample_patent_answer)
                        else None;
     join_other := λ _ _, "";
     set_repr := λ _, "" |}.

(** A patent data file with one record. *)
Definition sample_patent_data : pyval float :=
  VList [ VDict (<["molecule_name" := VStr "Aspirin"]>
                 (<["expiry_date" := VStr "1917-02-27"]> ∅)) ].

(** A trade data file with one molecule. *)
Definition sample_trade_data : pyval float :=
  VDict {[ "molecules" :=
    VList [ VDict (<["molecule_name" := VStr "aspirin"]>
                   (<["import_dependency" := VStr "Low"]>
                   (<["domestic_production" := VStr "High"]>
                   (<["india_imports" :=
                        VDict {[ "top_sources" := VList [ VStr "China"; VStr "Germany" ] ]}]>
                    ∅)))) ] ]}.

(** The model answers with an empty JSON object. *)
Definition sample_sourcing : pyval float :=
  match EXIM.analyze_sourcing no_builtins sample_text "data/exim_trade_data.json"
          (Ok sample_trade_data) (Ok "{}") "aspirin" with
  | Ok v => v
  | Raise _ => VNone
  end.


(** A run in which the patent provider returns a list where a dictionary
    is expected; the market provider raises as in [sample_analyze]. *)
Definition list_analyze (agent : agent_class) (molecule_name disease_name : string)
  : call float :=
  match agent with
  | PatentAgent => {| elapsed := 1; outcome := Ok (VList []) |}
  | _ => sample_analyze agent molecule_name disease_name
  end.

Definition no_get : exn :=
  {| is_timeout := false; exn_str := "'list' object has no attribute 'get'" |}.

(** A renderer that fails on some bundles only: like [generate_report] it
    calls [get] on the patent result, which a list does not have. *)
Definition report_reads_patent (molecule_name disease_name : string)
    (all_agent_results : gmap string (pyval float)) : result exn string :=
  match dict_get all_agent_results "patent_analysis" (VDict ∅) with
  | VDict _ => Ok "reports/aspirin_flu_analysis_report.pdf"
  | _ => Raise no_get
  end.

(** The dictionary of that run when the synthesizer is called, and the
    synthesis. *)
Definition list_entry (agent : agent_class) : pyval float :=
  match outcome (list_analyze agent "aspirin" "flu") with
  | Ok result => result
  | Raise e =>
      VDict (<["error" := VStr (if is_timeout e then "Timeout" else exn_str e)]>
             (<["confidence" := VFloat (flit 0 1)]> ∅))
  end.

Definition list_results : gmap string (pyval float) :=
  <["timestamp" := VStr "2024-01-01T00:00:00Z"]>
  (<["disease" := VStr "flu"]>
  (<["molecule" := VStr "aspirin"]>
  (<["internal_analysis" := list_entry InternalKnowledgeAgent]>
  (<["exim_analysis" := list_entry EXIMAgent]>
  (<["web_analysis" := list_entry WebIntelligenceAgent]>
  (<["market_analysis" := list_entry MarketAgent]>
  (<["clinical_analysis" := list_entry ClinicalTrialsAgent]>
  (<["patent_analysis" := list_entry PatentAgent]> ∅)))))))).

Definition list_synthesis : gmap string (pyval float) :=
  match synthesize_results no_builtins list_results with
  | Ok synthesis => synthesis
  | Raise _ => ∅
  end.

(** * Properties *)

(** ** Rounding to nearest, ties to even *)

(** Rounding to the nearest integer (ties to even) is monotone on
    fractions with positive denominators. *)
Lemma rne_div_mono (n d n' d' : Z) :
  0 < d -> 0 < d' -> n * d' <= n' * d -> rne_div n d <= rne_div n' d'.
Proof.
  intros Hd Hd' Hle. unfold rne_div.
  pose proof (Z.div_mod n d ltac:(lia)) as Hn.
  pose proof (Z.div_mod n' d' ltac:(lia)) as Hn'.
  pose proof (Z.mod_pos_bound n d Hd) as Hr.
  pose proof (Z.mod_pos_bound n' d' Hd') as Hr'.
  set (q := n / d) in *. set (r := n mod d) in *.
  set (q' := n' / d') in *. set (r' := n' mod d') in *.
  assert (Hq : q <= q').
  { destruct (Z.le_gt_cases q q') as [Hok | Hgt]; [exact Hok | exfalso].
    assert (d * d' * (q' + 1) <= d * d' * q) by (apply Z.mul_le_mono_nonneg_l; nia).
    assert (r' * d < d' * d) by (apply Z.mul_lt_mono_pos_r; lia).
    assert (0 <= r * d') by nia.
    nia. }
  destruct (Z.eq_dec q q') as [<- | Hne].
  - assert (Hfrac : r * d' <= r' * d) by nia.
    destruct (Z.compare_spec (2 * r) d) as [He | Hl | Hg];
      destruct (Z.compare_spec (2 * r') d') as [He' | Hl' | Hg'];
      try destruct (Z.even q); try lia; nia.
  - destruct (2 * r ?= d); destruct (2 * r' ?= d');
      try destruct (Z.even q); try destruct (Z.even q'); lia.
Qed.

Lemma rne_div_exact (k d : Z) : 0 < d -> rne_div (k * d) d = k.
Proof.
  intros Hd. unfold rne_div. rewrite Z.div_mul by lia. rewrite Z.mod_mul by lia.
  assert (Hc : (2 * 0 ?= d) = Lt) by (apply Z.compare_lt_iff; lia).
  rewrite Hc. reflexivity.
Qed.

(** ** Arithmetic of the non-negative doubles *)

Module B64OrderFacts.
Import B64Order.

Lemma cshift_ge N D : 1074 <= cshift N D.
Proof. unfold cshift, fexp64, E0. lia. Qed.

Lemma log2_div_mono N D N' D' :
  0 <= N -> 0 < D -> 0 < D' -> N * D' <= N' * D ->
  Z.log2 (N / D) <= Z.log2 (N' / D').
Proof.
  intros HN HD HD' Hle. apply Z.log2_le_mono.
  apply Z.div_le_lower_bound; [lia |].
  pose proof (Z.mul_div_le N D HD).
  assert (D * (N / D) * D' <= N' * D) by nia.
  assert (D' * (N / D) <= N'); [| lia].
  apply Z.mul_le_mono_pos_l with (p := D); [lia |]. lia.
Qed.

Lemma cshift_mono N D N' D' :
  0 <= N -> 0 < D -> 0 < D' -> N * D' <= N' * D ->
  cshift N D <= cshift N' D'.
Proof.
  intros. unfold cshift, fexp64.
  pose proof (log2_div_mono N D N' D' ltac:(assumption) ltac:(assumption)
                ltac:(assumption) ltac:(assumption)).
  lia.
Qed.

Lemma div_lt_pow2 N D :
  0 <= N -> 0 < D -> N < D * 2 ^ (Z.log2 (N / D) + 1).
Proof.
  intros HN HD.
  assert (Hq : N / D < 2 ^ (Z.log2 (N / D) + 1)).
  { destruct (Z.eq_dec (N / D) 0) as [-> | Hne]; [reflexivity |].
    assert (0 < N / D) by (pose proof (Z.div_pos N D HN HD); lia).
    apply Z.log2_spec. assumption. }
  destruct (Z.lt_ge_cases N (D * 2 ^ (Z.log2 (N / D) + 1))) as [Hlt | Hge];
    [exact Hlt |].
  apply Z.div_le_lower_bound in Hge; [lia | exact HD].
Qed.

Lemma div_ge_pow2 N D :
  0 < D -> 0 < N / D -> D * 2 ^ Z.log2 (N / D) <= N.
Proof.
  intros HD Hq.
  pose proof (proj1 (Z.log2_spec (N / D) Hq)) as Hl.
  pose proof (Z.mul_div_le N D HD). nia.
Qed.

Lemma RNq_mono N D N' D' :
  0 <= N -> 0 < D -> 0 < D' -> N * D' <= N' * D -> RNq N D <= RNq N' D'.
Proof.
  intros HN HD HD' Hle.
  pose proof (cshift_mono N D N' D' HN HD HD' Hle) as Hs.
  pose proof (cshift_ge N D) as Hs0.
  assert (HN' : 0 <= N') by nia.
  unfold RNq.
  set (s := cshift N D) in *. set (s' := cshift N' D') in *.
  assert (Hp : 0 < 2 ^ s) by (apply Z.pow_pos_nonneg; lia).
  assert (Hp' : 0 < 2 ^ s') by (apply Z.pow_pos_nonneg; lia).
  destruct (Z.eq_dec s s') as [Heq | Hne].
  - rewrite <- Heq. apply Z.mul_le_mono_nonneg_r; [lia |].
    apply rne_div_mono; nia.
  - assert (Hlt : s < s') by lia.
    set (L := Z.log2 (N / D)) in *. set (L' := Z.log2 (N' / D')) in *.
    assert (HsL : s = Z.max (L - 52) 1074) by (unfold s, cshift, fexp64, E0; fold L; lia).
    assert (HsL' : s' = Z.max (L' - 52) 1074) by (unfold s', cshift, fexp64, E0; fold L'; lia).
    assert (HL' : s' = L' - 52) by lia.
    assert (HLL : L + 1 <= L') by lia.
    assert (Hq' : 0 < N' / D').
    { destruct (Z.eq_dec (N' / D') 0) as [H0 | H0].
      - unfold L' in HL'. rewrite H0 in HL'. cbn in HL'. lia.
      - pose proof (Z.div_pos N' D' HN' HD'). lia. }
    pose proof (div_ge_pow2 N' D' HD' Hq') as Hlow. fold L' in Hlow.
    pose proof (div_lt_pow2 N D HN HD) as Hup. fold L in Hup.
    assert (HL0 : 0 <= L) by apply Z.log2_nonneg.
    (* the power of two between the two values *)
    assert (Hmid : 2 ^ L' = 2 ^ (L' - s) * 2 ^ s).
    { rewrite <- Z.pow_add_r by lia. f_equal. lia. }
    assert (Hmid' : 2 ^ L' = 2 ^ 52 * 2 ^ s').
    { rewrite <- Z.pow_add_r by lia. f_equal. lia. }
    assert (HLpow : 2 ^ (L + 1) <= 2 ^ L') by (apply Z.pow_le_mono_r; lia).
    assert (HDs : 0 < D * 2 ^ s) by (apply Z.mul_pos_pos; lia).
    assert (HDs' : 0 < D' * 2 ^ s') by (apply Z.mul_pos_pos; lia).
    apply Z.le_trans with (m := 2 ^ L').
    + rewrite Hmid. apply Z.mul_le_mono_nonneg_r; [lia |].
      rewrite <- (rne_div_exact (2 ^ (L' - s)) (D * 2 ^ s)) by exact HDs.
      apply rne_div_mono; [exact HDs | exact HDs |].
      apply Z.mul_le_mono_nonneg_r; [lia |].
      replace (2 ^ (L' - s) * (D * 2 ^ s)) with (D * (2 ^ (L' - s) * 2 ^ s)) by ring.
      rewrite <- Hmid.
      apply Z.le_trans with (m := D * 2 ^ (L + 1)); [lia |].
      apply Z.mul_le_mono_nonneg_l; lia.
    + rewrite Hmid'. apply Z.mul_le_mono_nonneg_r; [lia |].
      rewrite <- (rne_div_exact (2 ^ 52) (D' * 2 ^ s')) at 1 by exact HDs'.
      apply rne_div_mono; [exact HDs' | exact HDs' |].
      apply Z.mul_le_mono_nonneg_r; [lia |].
      replace (2 ^ 52 * (D' * 2 ^ s')) with (D' * (2 ^ 52 * 2 ^ s')) by ring.
      rewrite <- Hmid'. exact Hlow.
Qed.

Lemma digits2_size p : digits2_pos p = Pos.size p.
Proof. induction p; cbn; congruence. Qed.

Lemma digits2_log2 p : Zpos (digits2_pos p) = Z.log2 (Zpos p) + 1.
Proof.
  rewrite digits2_size. destruct p; cbn [Z.log2 Pos.size]; lia.
Qed.

Lemma iter_pos_nat {A} (f : A -> A) p x :
  SpecFloat.iter_pos f p x = Nat.iter (Pos.to_nat p) f x.
Proof.
  assert (Hadd : forall n y, Nat.iter n f (Nat.iter n f y) = Nat.iter (n + n) f y)
    by (intros; symmetry; apply Nat.iter_add).
  revert x. induction p as [p IH | p IH |]; intros x; cbn [SpecFloat.iter_pos].
  - rewrite !IH, Hadd, Pos2Nat.inj_xI.
    replace (S (2 * Pos.to_nat p)) with ((Pos.to_nat p + Pos.to_nat p) + 1)%nat by lia.
    rewrite (Nat.iter_add (Pos.to_nat p + Pos.to_nat p) 1). reflexivity.
  - rewrite !IH, Hadd, Pos2Nat.inj_xO. f_equal. lia.
  - reflexivity.
Qed.

Lemma shr_1_nonneg m r s :
  0 <= m -> shr_1 (Build_shr_record m r s) = Build_shr_record (m / 2) (Z.odd m) (r || s).
Proof.
  intros Hm. destruct m as [| [p | p |] |]; cbn [shr_1 Z.odd]; try lia.
  - reflexivity.
  - f_equal. rewrite Pos2Z.inj_xI. symmetry.
    rewrite Z.mul_comm, Z.div_add_l by lia. reflexivity.
  - f_equal. rewrite Pos2Z.inj_xO. symmetry.
    rewrite Z.mul_comm, Z.div_mul by lia. reflexivity.
  - reflexivity.
Qed.

Lemma located_shr_1 m k mrs :
  0 <= m -> 0 <= k -> located m k mrs -> located m (k + 1) (shr_1 mrs).
Proof.
  intros Hm Hk (Hq & Hlt & Heq & Hgt & Hnz).
  destruct mrs as [mk r s]. cbn [shr_m shr_r shr_s] in *. subst mk.
  assert (Hp : 0 < 2 ^ k) by (apply Z.pow_pos_nonneg; lia).
  rewrite shr_1_nonneg by (apply Z.div_pos; lia).
  cbn [shr_m shr_r shr_s].
  assert (Hpow : 2 ^ (k + 1) = 2 ^ k * 2) by (rewrite Z.pow_add_r by lia; reflexivity).
  assert (Hrem : m mod 2 ^ (k + 1) = m mod 2 ^ k + 2 ^ k * ((m / 2 ^ k) mod 2)).
  { rewrite Hpow. apply Z.rem_mul_r; lia. }
  pose proof (Zmod_odd (m / 2 ^ k)) as Hodd.
  pose proof (Z.mod_pos_bound m (2 ^ k) Hp) as Hb.
  unfold located. cbn [shr_m shr_r shr_s]. rewrite Hrem.
  split; [| split; [| split; [| split]]].
  - rewrite Hpow, Z.div_div by lia. reflexivity.
  - intros Ho. rewrite Ho in Hodd. lia.
  - intros Ho Hs. rewrite Ho in Hodd.
    assert (m mod 2 ^ k = 0).
    { destruct (Z.eq_dec (m mod 2 ^ k) 0) as [E | E]; [exact E |].
      apply Hnz in E. congruence. }
    lia.
  - intros Ho Hs. rewrite Ho in Hodd. apply Hnz in Hs. lia.
  - split.
    + intros Hor. apply orb_true_iff in Hor as [Ho | Hs].
      * rewrite Ho in Hodd. lia.
      * apply Hnz in Hs. destruct (Z.odd (m / 2 ^ k)); lia.
    + intros Hne. destruct (Z.odd (m / 2 ^ k)); [reflexivity |].
      cbn [orb]. apply Hnz. lia.
Qed.

Lemma located_iter m (k : nat) :
  0 <= m ->
  located m (Z.of_nat k) (Nat.iter k shr_1 (Build_shr_record m false false)).
Proof.
  intros Hm. induction k as [| k IH].
  - cbn [Nat.iter Z.of_nat]. unfold located. cbn [shr_m shr_r shr_s].
    rewrite Z.pow_0_r, Z.div_1_r, Z.mod_1_r. cbn [orb].
    split; [reflexivity |]. split; [intros _; lia |].
    split; [discriminate |]. split; [discriminate |].
    split; [discriminate | intros Hne; destruct Hne; reflexivity].
  - rewrite Nat2Z.inj_succ. unfold Z.succ. cbn [Nat.iter].
    apply located_shr_1; [exact Hm | lia | exact IH].
Qed.

(** Rounding the shifted mantissa to nearest-even is [rne_div]. *)
Lemma located_round m k mrs :
  located m k mrs ->
  round_nearest_even (shr_m mrs) (loc_of_shr_record mrs) = rne_div m (2 ^ k).
Proof.
  intros (Hq & Hlt & Heq & Hgt & _). unfold rne_div. rewrite <- Hq.
  destruct mrs as [mk r s]. cbn [shr_m shr_r shr_s loc_of_shr_record] in *.
  destruct r, s; cbn [round_nearest_even].
  - rewrite (proj2 (Z.compare_gt_iff _ _)) by (specialize (Hgt eq_refl eq_refl); lia).
    reflexivity.
  - rewrite (proj2 (Z.compare_eq_iff _ _)) by (apply Heq; reflexivity). reflexivity.
  - rewrite (proj2 (Z.compare_lt_iff _ _)) by (apply Hlt; reflexivity). reflexivity.
  - rewrite (proj2 (Z.compare_lt_iff _ _)) by (apply Hlt; reflexivity). reflexivity.
Qed.

(** ** binary_round_aux on binary64 *)

Lemma fexp_fexp64 k : SpecFloat.fexp prec emax k = fexp64 k.
Proof. reflexivity. Qed.

Lemma rne_div_scale n d c : 0 < d -> 0 < c -> rne_div (n * c) (d * c) = rne_div n d.
Proof.
  intros Hd Hc. unfold rne_div.
  rewrite Z.div_mul_cancel_r by lia. rewrite Z.mul_mod_distr_r by lia.
  rewrite Z.mul_assoc, <- Zmult_compare_compat_r by lia. reflexivity.
Qed.

Lemma rne_div_1 n : rne_div n 1 = n.
Proof. rewrite <- (Z.mul_1_r n) at 1. apply rne_div_exact. lia. Qed.

Lemma rne_div_le_int n d k : 0 < d -> n <= k * d -> rne_div n d <= k.
Proof.
  intros Hd Hle. rewrite <- (rne_div_exact k d Hd). apply rne_div_mono; try lia.
  apply Z.mul_le_mono_nonneg_r; lia.
Qed.

Lemma rne_div_ge_int n d k : 0 < d -> k * d <= n -> k <= rne_div n d.
Proof.
  intros Hd Hle. rewrite <- (rne_div_exact k d Hd). apply rne_div_mono; try lia.
  apply Z.mul_le_mono_nonneg_r; lia.
Qed.

Lemma shr_fexp_located m e :
  0 <= m ->
  let n := Z.max (fexp64 (Zdigits2 m + e) - e) 0 in
  exists mrs, shr_fexp prec emax m e loc_Exact = (mrs, e + n) /\ located m n mrs.
Proof.
  intros Hm n. unfold shr_fexp, shr. rewrite fexp_fexp64. cbn [shr_record_of_loc].
  subst n. destruct (fexp64 (Zdigits2 m + e) - e) as [| np | np] eqn:Hn.
  - eexists. split; [rewrite Z.add_0_r; reflexivity |].
    exact (located_iter m 0 Hm).
  - eexists. split; [reflexivity |].
    rewrite iter_pos_nat. rewrite Z.max_l by lia.
    rewrite <- (positive_nat_Z np). apply located_iter. exact Hm.
  - eexists. split; [rewrite Z.max_r by lia; rewrite Z.add_0_r; reflexivity |].
    rewrite Z.max_r by lia. exact (located_iter m 0 Hm).
Qed.

Lemma TOP_eq : TOP = 2 ^ 53 * 2 ^ (971 - E0).
Proof. unfold TOP. rewrite <- Z.pow_add_r by (unfold E0; lia). reflexivity. Qed.

Lemma Zdigits2_log2 m : 0 < m -> Zdigits2 m = Z.log2 m + 1.
Proof. destruct m; try lia. intros _. apply digits2_log2. Qed.

Lemma Zdigits2_bounds m : 0 < m -> 2 ^ (Zdigits2 m - 1) <= m < 2 ^ Zdigits2 m.
Proof.
  intros Hm. rewrite Zdigits2_log2 by exact Hm.
  replace (Z.log2 m + 1 - 1) with (Z.log2 m) by lia.
  apply Z.log2_spec. exact Hm.
Qed.

Lemma Zdigits2_le m k : 0 <= k -> 0 <= m < 2 ^ k -> Zdigits2 m <= k.
Proof.
  intros Hk [Hm Hlt]. destruct (Z.eq_dec m 0) as [-> | Hne]; [cbn; lia |].
  rewrite Zdigits2_log2 by lia.
  assert (Z.log2 m < k); [| lia].
  apply Z.log2_lt_pow2; lia.
Qed.

Lemma RNq_dyadic m e :
  0 < m -> E0 <= e ->
  let c := fexp64 (Zdigits2 m + e) in
  e <= c ->
  RNq (m * 2 ^ (e - E0)) 1 = rne_div m (2 ^ (c - e)) * 2 ^ (c - E0).
Proof.
  intros Hm He c Hc. unfold RNq, cshift. rewrite Z.div_1_r, Z.mul_1_l.
  rewrite Z.log2_mul_pow2 by lia.
  replace (e - E0 + Z.log2 m + 1 + E0) with (Zdigits2 m + e)
    by (rewrite Zdigits2_log2 by exact Hm; lia).
  fold c.
  replace (2 ^ (c - E0)) with (2 ^ (c - e) * 2 ^ (e - E0))
    by (rewrite <- Z.pow_add_r by lia; f_equal; lia).
  rewrite rne_div_scale; [reflexivity | |]; apply Z.pow_pos_nonneg; lia.
Qed.

Lemma fexp64_ge k : -1074 <= fexp64 k.
Proof. unfold fexp64. lia. Qed.

Lemma Zdigits2_ge m k : 0 <= k -> 2 ^ k <= m -> k + 1 <= Zdigits2 m.
Proof.
  intros Hk Hm. assert (0 < 2 ^ k) by (apply Z.pow_pos_nonneg; lia).
  rewrite Zdigits2_log2 by lia.
  assert (k <= Z.log2 m); [| lia]. apply Z.log2_le_pow2; lia.
Qed.

Lemma valid_finite_intro s m e :
  e = fexp64 (Zdigits2 (Zpos m) + e) -> e <= 971 ->
  valid_binary (S754_finite s m e) = true.
Proof.
  intros Hc He. cbn [valid_binary]. unfold bounded, canonical_mantissa.
  rewrite fexp_fexp64. apply andb_true_iff. split.
  - apply Z.eqb_eq. cbn [Zdigits2] in Hc. lia.
  - apply Z.leb_le. exact He.
Qed.

(** Rounding a mantissa that reaches at least down to the last place: the
    result is a valid double, the nearest to [m * 2^e], or [+inf]. *)
Lemma round_aux_spec m e :
  0 < m -> E0 <= e -> e <= fexp64 (Zdigits2 m + e) ->
  valid_binary (binary_round_aux prec emax false m e loc_Exact) = true
  /\ nonneg (binary_round_aux prec emax false m e loc_Exact)
  /\ uval (binary_round_aux prec emax false m e loc_Exact)
     = Z.min (RNq (m * 2 ^ (e - E0)) 1) TOP.
Proof.
  intros Hm He Hc.
  rewrite (RNq_dyadic m e Hm He Hc).
  set (d := Zdigits2 m) in *. set (c := fexp64 (d + e)) in *.
  pose proof (Zdigits2_bounds m Hm) as Hbounds. fold d in Hbounds.
  assert (Hcd : d + e - 53 <= c /\ -1074 <= c) by (unfold c, fexp64; lia).
  destruct (shr_fexp_located m e ltac:(lia)) as (mrs1 & Hs1 & Hloc1).
  fold d c in Hs1, Hloc1. rewrite Z.max_l in Hs1, Hloc1 by lia.
  replace (e + (c - e)) with c in Hs1 by lia.
  unfold binary_round_aux. rewrite Hs1.
  rewrite (located_round m (c - e) mrs1 Hloc1).
  set (m1 := rne_div m (2 ^ (c - e))).
  assert (Hpn : 0 < 2 ^ (c - e)) by (apply Z.pow_pos_nonneg; lia).
  assert (Hm1 : 0 <= m1 <= 2 ^ 53).
  { split.
    - apply rne_div_ge_int; lia.
    - apply rne_div_le_int; [exact Hpn |].
      rewrite <- Z.pow_add_r by lia.
      apply Z.le_trans with (m := 2 ^ d); [lia |].
      apply Z.pow_le_mono_r; lia. }
  (* a normal result has at least 53 significant bits *)
  assert (Hlow : -1074 < c -> 2 ^ 52 <= m1).
  { intros Hnormal. assert (Hcn : c = d + e - 53) by (unfold c, fexp64 in *; lia).
    apply rne_div_ge_int; [exact Hpn |].
    rewrite <- Z.pow_add_r by lia.
    replace (52 + (c - e)) with (d - 1) by lia. lia. }
  destruct (shr_fexp_located m1 c ltac:(lia)) as (mrs2 & Hs2 & Hloc2).
  pose proof TOP_eq as HTOP.
  assert (Hunit : forall k, c <= k -> 2 ^ (k - E0) = 2 ^ (k - c) * 2 ^ (c - E0)).
  { intros k Hk. rewrite <- Z.pow_add_r by (unfold E0 in *; lia). f_equal. lia. }
  assert (Hpc : 0 < 2 ^ (c - E0)) by (apply Z.pow_pos_nonneg; unfold E0; lia).
  destruct (Z.eq_dec m1 (2 ^ 53)) as [Hcarry | Hnocarry].
  - (* the rounded mantissa carried into a 54th bit *)
    assert (Hd1 : Zdigits2 m1 = 54) by (rewrite Hcarry; reflexivity).
    rewrite Hd1 in Hs2, Hloc2.
    assert (Hnext : fexp64 (54 + c) = c + 1) by (unfold fexp64; lia).
    replace (Z.max (fexp64 (54 + c) - c) 0) with 1 in Hs2, Hloc2 by lia.
    rewrite Hs2. destruct Hloc2 as (Hq2 & _). rewrite Hq2, Hcarry.
    change (2 ^ 53 / 2 ^ 1) with (Zpos (Z.to_pos (2 ^ 52))).
    destruct (Z.leb_spec (c + 1) (emax - prec)) as [Hfin | Hovf];
      change (emax - prec) with 971 in *.
    + split; [| split; [reflexivity |]].
      { apply valid_finite_intro; [| exact Hfin].
        change (Zdigits2 (Zpos (Z.to_pos (2 ^ 52)))) with 53.
        replace (53 + (c + 1)) with (54 + c) by lia. symmetry. exact Hnext. }
      cbn [uval].
      change (Zpos (Z.to_pos (2 ^ 52))) with (2 ^ 52).
      rewrite (Hunit (c + 1)) by lia. replace (c + 1 - c) with 1 by lia.
      rewrite Z.min_l; [ring_simplify; reflexivity |].
      rewrite HTOP, (Hunit 971) by lia.
      assert (2 ^ 1 <= 2 ^ (971 - c)) by (apply Z.pow_le_mono_r; lia).
      change (2 ^ 1) with 2 in *. change (2 ^ 53) with (2 ^ 52 * 2).
      nia.
    + split; [reflexivity |]. split; [reflexivity |]. cbn [uval].
      rewrite Z.min_r; [reflexivity |].
      rewrite HTOP. apply Z.mul_le_mono_nonneg_l; [lia |].
      apply Z.pow_le_mono_r; lia.
  - (* no carry: the second shift does nothing *)
    assert (Hd1 : Zdigits2 m1 <= 53) by (apply Zdigits2_le; lia).
    assert (Hstay : fexp64 (Zdigits2 m1 + c) <= c) by (unfold fexp64; lia).
    replace (Z.max (fexp64 (Zdigits2 m1 + c) - c) 0) with 0 in Hs2, Hloc2 by lia.
    rewrite Hs2. destruct Hloc2 as (Hq2 & _).
    rewrite Hq2, Z.pow_0_r, Z.div_1_r, Z.add_0_r.
    destruct m1 as [| p1 |] eqn:Hp1; [| | lia].
    + split; [reflexivity |]. split; [exact I |]. cbn [uval]. rewrite Z.mul_0_l.
      rewrite Z.min_l; [reflexivity |]. rewrite HTOP. lia.
    + destruct (Z.leb_spec c (emax - prec)) as [Hfin | Hovf];
        change (emax - prec) with 971 in *.
      * split; [| split; [reflexivity |]].
        { apply valid_finite_intro; [| exact Hfin].
          destruct (Z.eq_dec c (-1074)) as [Hsub | Hnorm].
          - pose proof (fexp64_ge (Zdigits2 (Zpos p1) + c)). lia.
          - pose proof (Zdigits2_ge (Zpos p1) 52 ltac:(lia) (Hlow ltac:(lia))).
            unfold fexp64 in *. lia. }
        cbn [uval].
        rewrite Z.min_l; [reflexivity |].
        rewrite HTOP, (Hunit 971) by lia.
        assert (0 < 2 ^ (971 - c)) by (apply Z.pow_pos_nonneg; lia).
        assert (Zpos p1 < 2 ^ 53) by lia.
        nia.
      * split; [reflexivity |]. split; [reflexivity |]. cbn [uval].
        rewrite Z.min_r; [reflexivity |].
        pose proof (Hlow ltac:(lia)) as Hlow'.
        rewrite HTOP.
        replace (2 ^ 53 * 2 ^ (971 - E0)) with (2 ^ 52 * 2 ^ (972 - E0))
          by (rewrite <- !Z.pow_add_r by (unfold E0; lia); reflexivity).
        assert (2 ^ (972 - E0) <= 2 ^ (c - E0))
          by (apply Z.pow_le_mono_r; unfold E0; lia).
        nia.
Qed.

Lemma round_aux_value m e :
  0 < m -> E0 <= e -> e <= fexp64 (Zdigits2 m + e) ->
  nonneg (binary_round_aux prec emax false m e loc_Exact)
  /\ uval (binary_round_aux prec emax false m e loc_Exact)
     = Z.min (RNq (m * 2 ^ (e - E0)) 1) TOP.
Proof. intros Hm He Hc. apply (round_aux_spec m e Hm He Hc). Qed.

(** ** Valid non-negative doubles and their values *)

Lemma valid_finite s m e :
  valid_binary (S754_finite s m e) = true ->
  e = fexp64 (Zdigits2 (Zpos m) + e) /\ e <= 971.
Proof.
  cbn [valid_binary]. unfold bounded, canonical_mantissa.
  rewrite fexp_fexp64. intros Hb. apply andb_true_iff in Hb as [Hc He].
  apply Z.eqb_eq in Hc. apply Z.leb_le in He. cbn [Zdigits2]. split; [lia | exact He].
Qed.

Lemma valid_finite_bounds s m e :
  valid_binary (S754_finite s m e) = true ->
  -1074 <= e <= 971 /\ Zdigits2 (Zpos m) <= 53
  /\ (-1074 < e -> Zdigits2 (Zpos m) = 53).
Proof.
  intros Hv. apply valid_finite in Hv as [Hc He]. unfold fexp64 in Hc. lia.
Qed.

Lemma pow2_E0 e : E0 <= e -> 0 < 2 ^ (e - E0).
Proof. intros. apply Z.pow_pos_nonneg; lia. Qed.

Lemma uval_finite_lt_TOP s m e :
  valid_binary (S754_finite s m e) = true -> uval (S754_finite s m e) < TOP.
Proof.
  intros Hv. apply valid_finite_bounds in Hv as (He & Hd & _). cbn [uval].
  pose proof (Zdigits2_bounds (Zpos m) ltac:(lia)) as [_ Hm].
  assert (Zpos m < 2 ^ 53).
  { apply Z.lt_le_trans with (m := 2 ^ Zdigits2 (Zpos m)); [exact Hm |].
    apply Z.pow_le_mono_r; lia. }
  assert (2 ^ (e - E0) <= 2 ^ (971 - E0)) by (apply Z.pow_le_mono_r; unfold E0; lia).
  assert (0 < 2 ^ (e - E0)) by (apply pow2_E0; unfold E0; lia).
  rewrite TOP_eq. nia.
Qed.

Lemma uval_nonneg f : 0 <= uval f.
Proof.
  assert (0 <= TOP) by (unfold TOP; apply Z.pow_nonneg; lia).
  destruct f as [s | s | | s m e]; cbn [uval]; lia.
Qed.

Lemma uval_le_TOP f : valid_binary f = true -> uval f <= TOP.
Proof.
  assert (0 <= TOP) by (unfold TOP; apply Z.pow_nonneg; lia).
  destruct f as [s | s | | s m e]; intros Hv.
  4: pose proof (uval_finite_lt_TOP s m e Hv).
  all: cbn [uval] in *; lia.
Qed.

Lemma uval_finite_pos s m e : -1074 <= e -> 0 < uval (S754_finite s m e).
Proof.
  intros He. cbn [uval]. apply Z.mul_pos_pos; [lia |]. apply pow2_E0. unfold E0. lia.
Qed.

(** Valid doubles of the same sign compare as their values. *)
Lemma compare_finite m1 e1 m2 e2 :
  valid_binary (S754_finite false m1 e1) = true ->
  valid_binary (S754_finite false m2 e2) = true ->
  SFcompare (S754_finite false m1 e1) (S754_finite false m2 e2)
  = Some (uval (S754_finite false m1 e1) ?= uval (S754_finite false m2 e2)).
Proof.
  intros Hv1 Hv2.
  pose proof (valid_finite_bounds _ _ _ Hv1) as (He1 & Hd1 & Hn1).
  pose proof (valid_finite_bounds _ _ _ Hv2) as (He2 & Hd2 & Hn2).
  pose proof (Zdigits2_bounds (Zpos m1) ltac:(lia)) as Hb1.
  pose proof (Zdigits2_bounds (Zpos m2) ltac:(lia)) as Hb2.
  assert (Hlt : forall ma ea mb eb,
             -1074 <= ea -> ea < eb ->
             Zdigits2 (Zpos ma) <= 53 -> Zdigits2 (Zpos mb) = 53 ->
             Zpos ma * 2 ^ (ea - E0) < Zpos mb * 2 ^ (eb - E0)).
  { intros ma ea mb eb Hea Hab Hda Hdb.
    pose proof (Zdigits2_bounds (Zpos ma) ltac:(lia)) as [_ Hua].
    pose proof (Zdigits2_bounds (Zpos mb) ltac:(lia)) as [Hlb _].
    rewrite Hdb in Hlb. change (2 ^ (53 - 1)) with (2 ^ 52) in Hlb.
    assert (Zpos ma < 2 ^ 53).
    { apply Z.lt_le_trans with (m := 2 ^ Zdigits2 (Zpos ma)); [exact Hua |].
      apply Z.pow_le_mono_r; lia. }
    assert (Hp : 2 ^ (eb - E0) = 2 ^ (eb - ea) * 2 ^ (ea - E0)).
    { rewrite <- Z.pow_add_r by (unfold E0; lia). f_equal. lia. }
    assert (2 ^ 1 <= 2 ^ (eb - ea)) by (apply Z.pow_le_mono_r; lia).
    assert (0 < 2 ^ (ea - E0)) by (apply pow2_E0; unfold E0; lia).
    rewrite Hp. change (2 ^ 1) with 2 in *. change (2 ^ 53) with (2 ^ 52 * 2) in *.
    nia. }
  cbn [SFcompare uval]. f_equal.
  destruct (Z.compare_spec e1 e2) as [Heq | Hl | Hg].
  - subst e2. change (PosDef.Pos.compare_cont Eq m1 m2) with (Pos.compare m1 m2).
    change ((m1 ?= m2)%positive) with (Zpos m1 ?= Zpos m2).
    apply Zmult_compare_compat_r. apply Z.lt_gt, pow2_E0. unfold E0. lia.
  - symmetry. apply Z.compare_lt_iff. apply Hlt; lia.
  - symmetry. apply Z.compare_gt_iff. apply Hlt; lia.
Qed.

Lemma TOP_pos : 0 < TOP.
Proof. unfold TOP. apply Z.pow_pos_nonneg; unfold E0; lia. Qed.

Lemma uval_finite_range s m e :
  valid_binary (S754_finite s m e) = true ->
  0 < uval (S754_finite s m e) < TOP.
Proof.
  intros Hv. split; [| apply uval_finite_lt_TOP, Hv].
  apply uval_finite_pos. apply valid_finite_bounds in Hv. lia.
Qed.

Lemma compare_uval x y :
  valid_binary x = true -> valid_binary y = true -> nonneg x -> nonneg y ->
  SFcompare x y = Some (uval x ?= uval y).
Proof.
  intros Hvx Hvy Hx Hy. pose proof TOP_pos as HT.
  destruct x as [sx | sx | | sx mx ex], y as [sy | sy | | sy my ey];
    cbn [nonneg] in Hx, Hy; try contradiction; subst;
    try (apply compare_finite; assumption);
    try pose proof (uval_finite_range _ _ _ Hvx) as Hrx;
    try pose proof (uval_finite_range _ _ _ Hvy) as Hry;
    cbn [SFcompare]; f_equal; symmetry;
    first [ apply Z.compare_lt_iff; cbn [uval] in *; lia
          | apply Z.compare_gt_iff; cbn [uval] in *; lia
          | apply Z.compare_eq_iff; cbn [uval] in *; lia ].
Qed.

Lemma leb_uval x y :
  valid_binary x = true -> valid_binary y = true -> nonneg x -> nonneg y ->
  SFleb x y = true <-> uval x <= uval y.
Proof.
  intros Hvx Hvy Hx Hy. unfold SFleb. rewrite (compare_uval x y) by assumption.
  destruct (Z.compare_spec (uval x) (uval y)); split; intros; try lia;
    try reflexivity; discriminate.
Qed.

(** ** Values of products and sums *)

Lemma Zdigits2_mul_pow2 m k :
  0 < m -> 0 <= k -> Zdigits2 (m * 2 ^ k) = Zdigits2 m + k.
Proof.
  intros Hm Hk. assert (0 < 2 ^ k) by (apply Z.pow_pos_nonneg; lia).
  rewrite !Zdigits2_log2 by nia. rewrite Z.log2_mul_pow2 by lia. lia.
Qed.

Lemma iter_xO m d : Zpos (Pos.iter xO m d) = Zpos m * 2 ^ Zpos d.
Proof.
  induction d as [| d IH] using Pos.peano_ind.
  - cbn [Pos.iter]. rewrite Pos2Z.inj_xO. change (2 ^ 1) with 2. lia.
  - rewrite Pos.iter_succ, Pos2Z.inj_xO, IH, Pos2Z.inj_succ.
    rewrite Z.pow_succ_r by lia. ring.
Qed.

Lemma shl_align_spec m e e' :
  let r := shl_align m e e' in
  snd r = Z.min e e' /\ Zpos (fst r) = Zpos m * 2 ^ (e - Z.min e e').
Proof.
  unfold shl_align. destruct (e' - e) as [| d | d] eqn:Hd; cbn [fst snd].
  - rewrite Z.min_l by lia. rewrite Z.sub_diag. split; [reflexivity | lia].
  - rewrite Z.min_l by lia. rewrite Z.sub_diag. split; [reflexivity | lia].
  - rewrite Z.min_r by lia. split; [reflexivity |].
    rewrite iter_xO. f_equal. f_equal. lia.
Qed.

Lemma binary_round_value m e :
  -1074 <= e ->
  nonneg (binary_round prec emax false m e)
  /\ uval (binary_round prec emax false m e)
     = Z.min (RNq (Zpos m * 2 ^ (e - E0)) 1) TOP.
Proof.
  intros He. unfold binary_round. rewrite fexp_fexp64.
  set (f := fexp64 (Zpos (digits2_pos m) + e)).
  pose proof (shl_align_spec m e f) as [Hsnd Hfst].
  destruct (shl_align m e f) as [mz ez]. cbn [fst snd] in Hsnd, Hfst. subst ez.
  assert (Hf : -1074 <= f) by apply fexp64_ge.
  assert (Hval : Zpos mz * 2 ^ (Z.min e f - E0) = Zpos m * 2 ^ (e - E0)).
  { rewrite Hfst, <- Z.mul_assoc, <- Z.pow_add_r by (unfold E0; lia).
    f_equal. f_equal. lia. }
  rewrite <- Hval. apply round_aux_value; [lia | unfold E0; lia |].
  rewrite Hfst, Zdigits2_mul_pow2 by lia.
  replace (Zdigits2 (Zpos m) + (e - Z.min e f) + Z.min e f)
    with (Zpos (digits2_pos m) + e) by (cbn [Zdigits2]; lia).
  fold f. lia.
Qed.

Lemma RNq_valid s m e :
  valid_binary (S754_finite s m e) = true ->
  RNq (uval (S754_finite s m e)) 1 = uval (S754_finite s m e).
Proof.
  intros Hv. pose proof (valid_finite s m e Hv) as [Hc _].
  pose proof (valid_finite_bounds s m e Hv) as (He & _).
  cbn [uval]. rewrite RNq_dyadic; try lia; [| unfold E0; lia].
  rewrite <- Hc, Z.sub_diag, Z.pow_0_r, rne_div_1. reflexivity.
Qed.

Lemma RNq_0 : RNq 0 1 = 0.
Proof. reflexivity. Qed.

Lemma RNq_TOP : RNq TOP 1 = TOP.
Proof.
  rewrite TOP_eq.
  assert (Hc : fexp64 (Zdigits2 (2 ^ 53) + 971) = 972) by reflexivity.
  pose proof (RNq_dyadic (2 ^ 53) 971 ltac:(lia) ltac:(unfold E0; lia)) as Hd.
  cbv zeta in Hd. rewrite Hc in Hd. rewrite Hd by lia.
  change (rne_div (2 ^ 53) (2 ^ (972 - 971))) with (2 ^ 52).
  change (2 ^ 53) with (2 ^ 52 * 2 ^ 1). rewrite <- Z.mul_assoc. f_equal.
Qed.

Lemma addR_mono a a' t t' :
  0 <= a -> 0 <= t -> a <= a' -> t <= t' -> addR a t <= addR a' t'.
Proof.
  intros Ha Ht Haa Htt. unfold addR. apply Z.min_le_compat_r.
  apply RNq_mono; lia.
Qed.

Lemma add_finite_value mx ex my ey :
  valid_binary (S754_finite false mx ex) = true ->
  valid_binary (S754_finite false my ey) = true ->
  let r := SFadd prec emax (S754_finite false mx ex) (S754_finite false my ey) in
  nonneg r
  /\ uval r = addR (uval (S754_finite false mx ex)) (uval (S754_finite false my ey)).
Proof.
  intros Hvx Hvy r. subst r.
  pose proof (valid_finite_bounds _ _ _ Hvx) as (Hex & _).
  pose proof (valid_finite_bounds _ _ _ Hvy) as (Hey & _).
  cbn [SFadd cond_Zopp].
  pose proof (shl_align_spec mx ex (Z.min ex ey)) as [_ Hx].
  pose proof (shl_align_spec my ey (Z.min ex ey)) as [_ Hy].
  rewrite (Z.min_r ex (Z.min ex ey)) in Hx by lia.
  rewrite (Z.min_r ey (Z.min ex ey)) in Hy by lia.
  set (ax := fst (shl_align mx ex (Z.min ex ey))) in *.
  set (ay := fst (shl_align my ey (Z.min ex ey))) in *.
  change (Zpos ax + Zpos ay) with (Zpos (ax + ay)).
  cbn [binary_normalize].
  destruct (binary_round_value (ax + ay) (Z.min ex ey) ltac:(lia)) as [Hn Hu].
  split; [exact Hn |]. rewrite Hu. unfold addR. cbn [uval]. f_equal. f_equal.
  rewrite Pos2Z.inj_add, Z.mul_add_distr_r, Hx, Hy.
  rewrite <- !Z.mul_assoc, <- !Z.pow_add_r by (unfold E0; lia).
  f_equal; f_equal; f_equal; lia.
Qed.

Lemma addR_TOP_l u : 0 <= u -> addR TOP u = TOP.
Proof.
  intros Hu. unfold addR.
  assert (TOP <= RNq (TOP + u) 1); [| lia].
  rewrite <- RNq_TOP at 1. apply RNq_mono; pose proof TOP_pos; lia.
Qed.

Lemma addR_TOP_r u : 0 <= u -> addR u TOP = TOP.
Proof. intros Hu. unfold addR. rewrite Z.add_comm. apply addR_TOP_l, Hu. Qed.

Lemma addR_0_l s m e :
  valid_binary (S754_finite s m e) = true ->
  addR 0 (uval (S754_finite s m e)) = uval (S754_finite s m e).
Proof.
  intros Hv. unfold addR. rewrite Z.add_0_l, RNq_valid by exact Hv.
  pose proof (uval_finite_lt_TOP s m e Hv). lia.
Qed.

Lemma addR_0_r s m e :
  valid_binary (S754_finite s m e) = true ->
  addR (uval (S754_finite s m e)) 0 = uval (S754_finite s m e).
Proof.
  intros Hv. unfold addR. rewrite Z.add_0_r, RNq_valid by exact Hv.
  pose proof (uval_finite_lt_TOP s m e Hv). lia.
Qed.

Lemma addR_0_0 : addR 0 0 = 0.
Proof. unfold addR. rewrite Z.add_0_l, RNq_0. pose proof TOP_pos. lia. Qed.

Lemma add_value x y :
  valid_binary x = true -> valid_binary y = true -> nonneg x -> nonneg y ->
  nonneg (SFadd prec emax x y)
  /\ uval (SFadd prec emax x y) = addR (uval x) (uval y).
Proof.
  intros Hvx Hvy Hx Hy.
  destruct x as [sx | sx | | sx mx ex]; cbn [nonneg] in Hx;
    [ | | contradiction | ];
    (destruct y as [sy | sy | | sy my ey]; cbn [nonneg] in Hy;
     [ | | contradiction | ]); subst.
  - destruct sx, sy; cbn [SFadd Bool.eqb nonneg uval];
      (split; [exact I | symmetry; exact addR_0_0]).
  - cbn [SFadd nonneg uval]. split; [reflexivity |]. symmetry.
    apply addR_TOP_r. lia.
  - cbn [SFadd nonneg]. split; [reflexivity |]. symmetry.
    change (uval (S754_zero sx)) with 0. apply (addR_0_l _ _ _ Hvy).
  - cbn [SFadd nonneg uval]. split; [reflexivity |]. symmetry.
    apply addR_TOP_l. lia.
  - cbn [SFadd Bool.eqb nonneg uval]. split; [reflexivity |]. symmetry.
    apply addR_TOP_l. pose proof TOP_pos; lia.
  - cbn [SFadd nonneg]. split; [reflexivity |].
    change (uval (S754_infinity false)) with TOP. symmetry.
    apply addR_TOP_l. apply uval_nonneg.
  - cbn [SFadd nonneg]. split; [reflexivity |]. symmetry.
    change (uval (S754_zero sy)) with 0. apply (addR_0_r _ _ _ Hvx).
  - cbn [SFadd nonneg]. split; [reflexivity |].
    change (uval (S754_infinity false)) with TOP. symmetry.
    apply addR_TOP_r. apply uval_nonneg.
  - apply add_finite_value; assumption.
Qed.

Lemma add_mono x x' y y' :
  valid_binary x = true -> valid_binary x' = true ->
  valid_binary y = true -> valid_binary y' = true ->
  nonneg x -> nonneg x' -> nonneg y -> nonneg y' ->
  uval x <= uval x' -> uval y <= uval y' ->
  uval (SFadd prec emax x y) <= uval (SFadd prec emax x' y').
Proof.
  intros Hvx Hvx' Hvy Hvy' Hx Hx' Hy Hy' Hxx Hyy.
  destruct (add_value x y) as [_ ->]; try assumption.
  destruct (add_value x' y') as [_ ->]; try assumption.
  apply addR_mono; try assumption; apply uval_nonneg.
Qed.

Lemma mulR_mono a a' w :
  0 <= a -> 0 <= w -> a <= a' -> mulR a w <= mulR a' w.
Proof.
  intros Ha Hw Haa. unfold mulR. apply Z.min_le_compat_r.
  assert (0 < 2 ^ (- E0)) by (apply Z.pow_pos_nonneg; unfold E0; lia).
  assert (a * w <= a' * w) by nia.
  apply RNq_mono; [nia | lia | lia |].
  apply Z.mul_le_mono_nonneg_r; lia.
Qed.

Lemma RNq_scale N D c : 0 < D -> 0 < c -> RNq (N * c) (D * c) = RNq N D.
Proof.
  intros HD Hc. unfold RNq, cshift. rewrite Z.div_mul_cancel_r by lia.
  set (k := fexp64 (Z.log2 (N / D) + 1 + E0) - E0).
  replace (D * c * 2 ^ k) with (D * 2 ^ k * c) by ring.
  rewrite rne_div_scale; [reflexivity | | exact Hc].
  apply Z.mul_pos_pos; [exact HD |]. apply Z.pow_pos_nonneg; [lia |].
  subst k. pose proof (fexp64_ge (Z.log2 (N / D) + 1 + E0)). unfold E0 in *. lia.
Qed.

Lemma Zdigits2_mul_ge a b :
  0 < a -> 0 < b -> Zdigits2 a + Zdigits2 b - 1 <= Zdigits2 (a * b).
Proof.
  intros Ha Hb. rewrite !Zdigits2_log2 by nia.
  pose proof (Z.log2_nonneg a). pose proof (Z.log2_nonneg b).
  assert (Z.log2 a + Z.log2 b <= Z.log2 (a * b)); [| lia].
  apply Z.log2_le_pow2; [nia |]. rewrite Z.pow_add_r by lia.
  pose proof (Z.log2_spec a Ha) as [Hla _]. pose proof (Z.log2_spec b Hb) as [Hlb _].
  assert (0 < 2 ^ Z.log2 a) by (apply Z.pow_pos_nonneg; lia).
  assert (0 < 2 ^ Z.log2 b) by (apply Z.pow_pos_nonneg; lia).
  nia.
Qed.

Lemma mul_finite_value mx ex mw ew :
  valid_binary (S754_finite false mx ex) = true ->
  valid_binary (S754_finite false mw ew) = true ->
  let r := SFmul prec emax (S754_finite false mx ex) (S754_finite false mw ew) in
  nonneg r
  /\ uval r = mulR (uval (S754_finite false mx ex)) (uval (S754_finite false mw ew)).
Proof.
  intros Hvx Hvw r. subst r.
  pose proof (valid_finite_bounds _ _ _ Hvx) as (Hex & Hdx & Hnx).
  pose proof (valid_finite_bounds _ _ _ Hvw) as (Hew & Hdw & Hnw).
  cbn [SFmul xorb].
  pose proof (Zdigits2_mul_ge (Zpos mx) (Zpos mw) ltac:(lia) ltac:(lia)) as Hd.
  pose proof (Zdigits2_bounds (Zpos mx) ltac:(lia)) as Hbx.
  pose proof (Zdigits2_bounds (Zpos mw) ltac:(lia)) as Hbw.
  assert (1 <= Zdigits2 (Zpos mx)) by (cbn [Zdigits2]; lia).
  assert (1 <= Zdigits2 (Zpos mw)) by (cbn [Zdigits2]; lia).
  change (Zpos (mx * mw)) with (Zpos mx * Zpos mw).
  destruct (round_aux_value (Zpos mx * Zpos mw) (ex + ew)) as [Hn Hu].
  - lia.
  - unfold E0. lia.
  - unfold fexp64. lia.
  - split; [exact Hn |]. rewrite Hu. unfold mulR. cbn [uval]. f_equal.
    assert (Hp : 0 < 2 ^ (- E0)) by (apply Z.pow_pos_nonneg; unfold E0; lia).
    rewrite <- (RNq_scale _ 1 (2 ^ (- E0))) by lia. rewrite Z.mul_1_l.
    f_equal.
    rewrite <- Z.mul_assoc, <- Z.pow_add_r by (unfold E0; lia).
    replace (Zpos mx * 2 ^ (ex - E0) * (Zpos mw * 2 ^ (ew - E0)))
      with (Zpos mx * Zpos mw * (2 ^ (ex - E0) * 2 ^ (ew - E0))) by ring.
    rewrite <- Z.pow_add_r by (unfold E0; lia).
    f_equal. f_equal. unfold E0. lia.
Qed.

(** Multiplying by a fixed positive finite double is monotone on the
    non-negative doubles, [+inf] included. *)
Lemma mul_mono x x' mw ew :
  let w := S754_finite false mw ew in
  valid_binary x = true -> valid_binary x' = true -> valid_binary w = true ->
  nonneg x -> nonneg x' -> uval x <= uval x' ->
  nonneg (SFmul prec emax x w) /\ nonneg (SFmul prec emax x' w)
  /\ uval (SFmul prec emax x w) <= uval (SFmul prec emax x' w).
Proof.
  intros w Hvx Hvx' Hvw Hx Hx' Hle. subst w.
  pose proof TOP_pos as HT.
  destruct x as [sx | sx | | sx mx ex]; cbn [nonneg] in Hx;
    [ | | contradiction | ];
    (destruct x' as [sx' | sx' | | sx' mx' ex']; cbn [nonneg] in Hx';
     [ | | contradiction | ]); subst.
  - cbn [SFmul nonneg uval]. repeat split; lia.
  - cbn [SFmul xorb nonneg uval]. repeat split; lia.
  - destruct (mul_finite_value mx' ex' mw ew Hvx' Hvw) as [Hn Hu].
    cbn zeta in Hn, Hu. split; [exact I |]. split; [exact Hn |].
    change (SFmul prec emax (S754_zero sx) (S754_finite false mw ew))
      with (S754_zero (xorb sx false)).
    change (uval (S754_zero (xorb sx false))) with 0. apply uval_nonneg.
  - exfalso. cbn [uval] in Hle. lia.
  - cbn [SFmul xorb nonneg uval]. repeat split; lia.
  - exfalso. pose proof (uval_finite_lt_TOP _ _ _ Hvx').
    change (uval (S754_infinity false)) with TOP in Hle. lia.
  - exfalso. pose proof (uval_finite_range _ _ _ Hvx).
    change (uval (S754_zero sx')) with 0 in Hle. lia.
  - destruct (mul_finite_value mx ex mw ew Hvx Hvw) as [Hn Hu].
    cbn zeta in Hn, Hu. split; [exact Hn |]. split; [reflexivity |].
    rewrite Hu. change (SFmul prec emax (S754_infinity false) (S754_finite false mw ew))
      with (S754_infinity false).
    change (uval (S754_infinity false)) with TOP. unfold mulR. lia.
  - destruct (mul_finite_value mx ex mw ew Hvx Hvw) as [Hn Hu].
    destruct (mul_finite_value mx' ex' mw ew Hvx' Hvw) as [Hn' Hu'].
    cbn zeta in Hn, Hu, Hn', Hu'. split; [exact Hn |]. split; [exact Hn' |].
    rewrite Hu, Hu'. apply mulR_mono; [apply uval_nonneg | apply uval_nonneg | exact Hle].
Qed.

(** ** The nearest double to a fraction, and [round] *)

Lemma rne_div_nonneg n d : 0 <= n -> 0 < d -> 0 <= rne_div n d.
Proof. intros Hn Hd. apply rne_div_ge_int; lia. Qed.

Lemma rne_div_0 d : 0 < d -> rne_div 0 d = 0.
Proof. intros Hd. apply (rne_div_exact 0 d Hd). Qed.

Lemma RNq_nonneg N D : 0 <= N -> 0 < D -> 0 <= RNq N D.
Proof.
  intros HN HD. unfold RNq. pose proof (cshift_ge N D).
  assert (0 < 2 ^ cshift N D) by (apply Z.pow_pos_nonneg; lia).
  apply Z.mul_nonneg_nonneg; [| lia]. apply rne_div_nonneg; [exact HN |].
  apply Z.mul_pos_pos; lia.
Qed.

Lemma RNq_0_l D : 0 < D -> RNq 0 D = 0.
Proof.
  intros HD. unfold RNq. pose proof (cshift_ge 0 D).
  rewrite rne_div_0; [reflexivity |].
  apply Z.mul_pos_pos; [exact HD |]. apply Z.pow_pos_nonneg; lia.
Qed.

Lemma clamp_mono v v' : 0 <= v -> v <= v' -> clamp v <= clamp v'.
Proof.
  intros Hv Hle. unfold clamp. apply Z.min_le_compat_r. apply RNq_mono; lia.
Qed.

Lemma clamp_0 : clamp 0 = 0.
Proof. unfold clamp. rewrite RNq_0. pose proof TOP_pos. lia. Qed.

Lemma of_ratio_spec n d :
  valid_binary (B64.of_ratio false n d) = true
  /\ nonneg (B64.of_ratio false n d)
  /\ uval (B64.of_ratio false n d) = clamp (RNq (Zpos n * 2 ^ (- E0)) (Zpos d)).
Proof.
  unfold B64.of_ratio. cbv zeta.
  set (N := Zpos n * 2 ^ (- E0)). set (k := cshift N (Zpos d)).
  assert (HN : 0 < N).
  { apply Z.mul_pos_pos; [lia |]. apply Z.pow_pos_nonneg; unfold E0; lia. }
  pose proof (cshift_ge N (Zpos d)) as Hk. fold k in Hk.
  assert (Hp : 0 < 2 ^ k) by (apply Z.pow_pos_nonneg; lia).
  assert (Hden : 0 < Zpos d * 2 ^ k) by (apply Z.mul_pos_pos; lia).
  assert (Hval : RNq N (Zpos d) = rne_div N (Zpos d * 2 ^ k) * 2 ^ k) by reflexivity.
  pose proof (rne_div_nonneg N (Zpos d * 2 ^ k) ltac:(lia) Hden) as Hm0.
  destruct (rne_div N (Zpos d * 2 ^ k)) as [| m | m] eqn:Hm; [| | lia].
  - split; [reflexivity |]. split; [exact I |].
    rewrite Hval, Z.mul_0_l, clamp_0. reflexivity.
  - rewrite Hval. unfold clamp.
    replace (2 ^ k) with (2 ^ (k + E0 - E0)) by (f_equal; lia).
    apply round_aux_spec; [lia | lia |].
    destruct (Z.eq_dec (k + E0) (-1074)) as [Hsub | Hnorm].
    + pose proof (fexp64_ge (Zdigits2 (Zpos m) + (k + E0))). lia.
    + set (L := Z.log2 (N / Zpos d)) in *.
      assert (HkL : k = L - 52) by (unfold k, cshift, fexp64, E0 in *; fold L; lia).
      assert (Hq : 0 < N / Zpos d).
      { destruct (Z.eq_dec (N / Zpos d) 0) as [H0 | H0].
        - unfold L in HkL. rewrite H0 in HkL. cbn in HkL. unfold E0 in *. lia.
        - pose proof (Z.div_pos N (Zpos d) ltac:(lia) ltac:(lia)). lia. }
      pose proof (div_ge_pow2 N (Zpos d) ltac:(lia) Hq) as Hlow. fold L in Hlow.
      assert (Hmlow : 2 ^ 52 <= Zpos m).
      { rewrite <- Hm. apply rne_div_ge_int; [exact Hden |].
        replace (2 ^ 52 * (Zpos d * 2 ^ k)) with (Zpos d * (2 ^ 52 * 2 ^ k)) by ring.
        rewrite <- Z.pow_add_r by lia. replace (52 + k) with L by lia. exact Hlow. }
      pose proof (Zdigits2_ge (Zpos m) 52 ltac:(lia) Hmlow).
      unfold fexp64. lia.
Qed.

Lemma roundR_mono k a a' : 0 <= a -> a <= a' -> roundR k a <= roundR k a'.
Proof.
  intros Ha Hle. unfold roundR. cbv zeta.
  assert (Hp : 0 < 10 ^ Z.of_nat k) by (apply Z.pow_pos_nonneg; lia).
  assert (Hu : 0 < 2 ^ (- E0)) by (apply Z.pow_pos_nonneg; unfold E0; lia).
  set (p := 10 ^ Z.of_nat k) in *.
  assert (Hk : rne_div (a * p) (2 ^ (- E0)) <= rne_div (a' * p) (2 ^ (- E0))).
  { apply rne_div_mono; [exact Hu | exact Hu |].
    apply Z.mul_le_mono_nonneg_r; [lia |]. apply Z.mul_le_mono_nonneg_r; lia. }
  assert (Hk0 : 0 <= rne_div (a * p) (2 ^ (- E0))).
  { apply rne_div_nonneg; [| exact Hu]. apply Z.mul_nonneg_nonneg; lia. }
  apply (clamp_mono (RNq _ p) (RNq _ p)).
  - apply RNq_nonneg; [| exact Hp]. apply Z.mul_nonneg_nonneg; lia.
  - apply RNq_mono; [| exact Hp | exact Hp |].
    + apply Z.mul_nonneg_nonneg; lia.
    + apply Z.mul_le_mono_nonneg_r; [lia |]. apply Z.mul_le_mono_nonneg_r; lia.
Qed.

Lemma roundR_0 k : roundR k 0 = 0.
Proof.
  unfold roundR. cbv zeta.
  assert (Hp : 0 < 10 ^ Z.of_nat k) by (apply Z.pow_pos_nonneg; lia).
  assert (Hu : 0 < 2 ^ (- E0)) by (apply Z.pow_pos_nonneg; unfold E0; lia).
  change (0 * 10 ^ Z.of_nat k) with 0.
  rewrite (rne_div_0 _ Hu). change (0 * 2 ^ (- E0)) with 0.
  rewrite (RNq_0_l _ Hp). apply clamp_0.
Qed.

Lemma roundR_TOP k : roundR k TOP = TOP.
Proof.
  unfold roundR. cbv zeta.
  assert (Hp : 0 < 10 ^ Z.of_nat k) by (apply Z.pow_pos_nonneg; lia).
  assert (Hu : 0 < 2 ^ (- E0)) by (apply Z.pow_pos_nonneg; unfold E0; lia).
  set (p := 10 ^ Z.of_nat k) in *.
  assert (HT : TOP = 2 ^ 1024 * 2 ^ (- E0)).
  { unfold TOP. rewrite <- Z.pow_add_r by (unfold E0; lia). f_equal. }
  assert (Hk : rne_div (TOP * p) (2 ^ (- E0)) = 2 ^ 1024 * p).
  { rewrite HT. replace (2 ^ 1024 * 2 ^ (- E0) * p) with (2 ^ 1024 * p * 2 ^ (- E0)) by ring.
    apply rne_div_exact. exact Hu. }
  rewrite Hk. replace (2 ^ 1024 * p * 2 ^ (- E0)) with (TOP * p) by (rewrite HT; ring).
  rewrite <- (Z.mul_1_l p) at 2. rewrite RNq_scale by lia.
  rewrite RNq_TOP. unfold clamp. rewrite RNq_TOP. lia.
Qed.

(** ** Machine floats *)

Lemma zero_leb_fnonneg x : PrimFloat.leb 0 x = true -> fnonneg x.
Proof.
  unfold fnonneg. rewrite leb_spec. change (Prim2SF 0) with (S754_zero false).
  destruct (Prim2SF x) as [s | s | | s m e]; unfold SFleb; cbn [SFcompare nonneg];
    try destruct s; try discriminate; intros _; auto.
Qed.

Lemma fnonneg_zero_leb x : fnonneg x -> PrimFloat.leb 0 x = true.
Proof.
  unfold fnonneg. rewrite leb_spec. change (Prim2SF 0) with (S754_zero false).
  destruct (Prim2SF x) as [s | s | | s m e]; unfold SFleb; cbn [SFcompare nonneg];
    intros Hs; subst; try contradiction; reflexivity.
Qed.

Lemma leb_fnonneg x y : fnonneg x -> PrimFloat.leb x y = true -> fnonneg y.
Proof.
  unfold fnonneg. rewrite leb_spec.
  destruct (Prim2SF x) as [s | s | | s m e], (Prim2SF y) as [s' | s' | | s' m' e'];
    unfold SFleb; cbn [SFcompare nonneg]; intros Hs Hle; subst;
    try contradiction; try destruct s'; try discriminate; auto.
Qed.

Lemma leb_fval x y :
  fnonneg x -> fnonneg y -> PrimFloat.leb x y = true <-> fval x <= fval y.
Proof.
  intros Hx Hy. rewrite leb_spec.
  apply leb_uval; try apply Prim2SF_valid; assumption.
Qed.

(** One turn of the accumulation loop keeps the order. *)
Lemma fma_mono acc acc' c c' w mw ew :
  Prim2SF w = S754_finite false mw ew ->
  fnonneg acc -> fnonneg acc' -> fnonneg c -> fnonneg c' ->
  fval acc <= fval acc' -> fval c <= fval c' ->
  fnonneg (acc + c * w) /\ fnonneg (acc' + c' * w)
  /\ fval (acc + c * w) <= fval (acc' + c' * w).
Proof.
  intros Hw Ha Ha' Hc Hc' Hacc Hcc. unfold fnonneg, fval in *.
  pose proof (Prim2SF_valid acc) as Hva. pose proof (Prim2SF_valid acc') as Hva'.
  pose proof (Prim2SF_valid c) as Hvc. pose proof (Prim2SF_valid c') as Hvc'.
  pose proof (Prim2SF_valid w) as Hvw.
  pose proof (Prim2SF_valid (c * w)) as Hvp.
  pose proof (Prim2SF_valid (c' * w)) as Hvp'.
  rewrite !add_spec, !mul_spec in *. unfold SF64add, SF64mul in *.
  rewrite Hw in *.
  destruct (mul_mono (Prim2SF c) (Prim2SF c') mw ew Hvc Hvc' Hvw Hc Hc' Hcc)
    as (Hp & Hp' & Hpp).
  split; [apply add_value; assumption |].
  split; [apply add_value; assumption |].
  apply add_mono; assumption.
Qed.

(** [round(x, k)] of a non-negative double. *)
Lemma round_fval x k :
  fnonneg x -> fnonneg (B64.round x k) /\ fval (B64.round x k) = roundR k (fval x).
Proof.
  unfold fnonneg, fval, B64.round. intros Hx.
  pose proof (Prim2SF_valid x) as Hv.
  destruct (Prim2SF x) as [s | s | | s m e] eqn:Hfx;
    cbn [nonneg] in Hx; try contradiction.
  - rewrite Hfx. split; [exact I |]. cbn [uval]. symmetry. apply roundR_0.
  - rewrite Hfx. split; [exact Hx |]. cbn [uval]. symmetry. apply roundR_TOP.
  - subst s. cbv zeta.
    pose proof (valid_finite_bounds _ _ _ Hv) as (He & _).
    set (p := 10 ^ Z.of_nat k).
    assert (Hp : 0 < p) by (apply Z.pow_pos_nonneg; lia).
    assert (Hu : 0 < 2 ^ (- E0)) by (apply Z.pow_pos_nonneg; unfold E0; lia).
    set (K := if 0 <=? e then Zpos m * 2 ^ e * p else rne_div (Zpos m * p) (2 ^ (- e))).
    assert (HK : K = rne_div (uval (S754_finite false m e) * p) (2 ^ (- E0))).
    { subst K. cbn [uval]. destruct (Z.leb_spec 0 e) as [Hpos | Hneg].
      - replace (Zpos m * 2 ^ (e - E0) * p) with (Zpos m * 2 ^ e * p * 2 ^ (- E0)).
        + symmetry. apply rne_div_exact. exact Hu.
        + replace (e - E0) with (e + - E0) by lia.
          rewrite Z.pow_add_r by (unfold E0; lia). ring.
      - replace (2 ^ (- E0)) with (2 ^ (- e) * 2 ^ (e - E0)).
        + replace (Zpos m * 2 ^ (e - E0) * p) with (Zpos m * p * 2 ^ (e - E0)) by ring.
          symmetry. apply rne_div_scale; apply Z.pow_pos_nonneg; unfold E0; lia.
        + rewrite <- Z.pow_add_r by (unfold E0; lia). f_equal. lia. }
    assert (HK0 : 0 <= K).
    { rewrite HK. apply rne_div_nonneg; [| exact Hu].
      apply Z.mul_nonneg_nonneg; [apply uval_nonneg | lia]. }
    unfold roundR. cbv zeta. fold p. rewrite <- HK.
    destruct K as [| kp | kp]; [| | lia].
    + rewrite Prim2SF_SF2Prim by reflexivity. split; [exact I |].
      cbn [uval]. change (0 * 2 ^ (- E0)) with 0.
      rewrite (RNq_0_l _ Hp), clamp_0. reflexivity.
    + destruct (of_ratio_spec kp (Z.to_pos p)) as (Hvr & Hnr & Hur).
      rewrite (Prim2SF_SF2Prim _ Hvr). split; [exact Hnr |].
      rewrite Hur, Z2Pos.id by exact Hp. reflexivity.
Qed.

Lemma round_mono x y k :
  fnonneg x -> fnonneg y -> PrimFloat.leb x y = true ->
  PrimFloat.leb (B64.round x k) (B64.round y k) = true.
Proof.
  intros Hx Hy Hle. apply (leb_fval x y Hx Hy) in Hle.
  destruct (round_fval x k Hx) as [Hnx Hvx].
  destruct (round_fval y k Hy) as [Hny Hvy].
  apply leb_fval; try assumption. rewrite Hvx, Hvy.
  apply roundR_mono; [apply uval_nonneg | exact Hle].
Qed.

End B64OrderFacts.
(** ** Properties of the synthesizer *)

Section SynthesizerFacts.
Context {F : Type} `{PyFloat F}.
Variable B : builtins F.

Lemma accumulate_step results agent weight ws acc x :
  confidence_is B results agent x →
  accumulate B results ((agent, weight) :: ws) acc
  = accumulate B results ws (fadd acc (fmul x weight)).
Proof.
  intros Hc. cbn [accumulate]. unfold dict_get.
  destruct Hc as [Hn | r Hr Hn | r v x Hr Hv Hx].
  - rewrite Hn. rewrite lookup_empty. reflexivity.
  - rewrite Hr, Hn. reflexivity.
  - rewrite Hr, Hv, Hx. reflexivity.
Qed.

Lemma weights_names :
  (weights F).*1
  = [ "patent_analysis"; "clinical_analysis"; "market_analysis";
      "web_analysis"; "exim_analysis"; "internal_analysis" ].
Proof. reflexivity. Qed.

(** The confidence the loop reads, from the entry alone. *)
Lemma confidence_is_lookup results name x :
  confidence_is B results name x →
  py_float B (dict_get (match results !! name with Some (VDict r) => r | _ => ∅ end)
                "confidence" (VFloat (flit 0 1))) = Ok x.
Proof.
  intros Hc. unfold dict_get. destruct Hc as [Hn | r Hr Hn | r v x Hr Hv Hx].
  - rewrite Hn, lookup_empty. reflexivity.
  - rewrite Hr, Hn. reflexivity.
  - rewrite Hr, Hv. exact Hx.
Qed.

(** One turn of the loop on two result maps with the same entry for
    [agent]: the entry is skipped in both, or both read the same
    confidence, or [float] raises. *)
Lemma accumulate_head results results' agent weight ws acc acc' :
  results' !! agent = results !! agent →
  (accumulate B results ((agent, weight) :: ws) acc = accumulate B results ws acc
   ∧ accumulate B results' ((agent, weight) :: ws) acc' = accumulate B results' ws acc')
  ∨ (∃ c, confidence_is B results agent c ∧ confidence_is B results' agent c)
  ∨ (∃ e, accumulate B results ((agent, weight) :: ws) acc = Raise e).
Proof.
  intros Heq. cbn [accumulate]. unfold dict_get. rewrite Heq.
  destruct (results !! agent) as [[ | | | | | | r] |] eqn:Hr;
    try (left; split; reflexivity).
  - destruct (r !! "confidence") as [v |] eqn:Hv.
    + destruct (py_float B v) as [c | e] eqn:Hc.
      * right. left. exists c. split; eapply conf_present; eauto; congruence.
      * right. right. exists e. reflexivity.
    + right. left. exists (flit 0 1).
      split; eapply conf_missing_field; eauto; congruence.
  - right. left. exists (flit 0 1). split; apply conf_absent; congruence.
Qed.

(** The dictionary returned by [synthesize_results] once the loop has
    produced the unrounded sum [x]. *)
Lemma synthesize_results_fields results x :
  overall_confidence B results = Ok x →
  ∃ d, synthesize_results B results = Ok d
       ∧ d !! "overall_confidence" = Some (VFloat (fround x 2))
       ∧ d !! "recommendation" = Some (VStr (recommend x)).
Proof.
  intros Hx. unfold synthesize_results. rewrite Hx. cbn [bind].
  destruct (patent_factors B results) as [kf rs].
  eexists. split; [reflexivity |].
  split.
  - apply lookup_insert_eq.
  - rewrite lookup_insert_ne by done. apply lookup_insert_eq.
Qed.

End SynthesizerFacts.

(** C1: the unrounded overall confidence is the weighted sum over the six
    names of the weight table, in table order, where an absent entry (or one
    without a confidence) contributes with confidence [0.0] and keeps its
    weight; the sum is what [synthesize_results] rounds and classifies. *)
Theorem C1_overall_confidence_is_weighted_sum
    (F : Type) (PF : PyFloat F) (B : builtins F)
    (results : gmap string (pyval F)) (c : string → F) :
  (∀ name, name ∈ (weights F).*1 → confidence_is B results name (c name)) →
  let total :=
    fadd (fadd (fadd (fadd (fadd (fadd (flit 0 1)
      (fmul (c "patent_analysis") (flit 25 2)))
      (fmul (c "clinical_analysis") (flit 20 2)))
      (fmul (c "market_analysis") (flit 20 2)))
      (fmul (c "web_analysis") (flit 15 2)))
      (fmul (c "exim_analysis") (flit 10 2)))
      (fmul (c "internal_analysis") (flit 10 2)) in
  overall_confidence B results = Ok total
  ∧ ∃ d, synthesize_results B results = Ok d
         ∧ d !! "overall_confidence" = Some (VFloat (fround total 2))
         ∧ d !! "recommendation" = Some (VStr (recommend total)).
Proof.
  intros Hc total.
  assert (Ht : overall_confidence B results = Ok total).
  { unfold overall_confidence, weights.
    repeat (erewrite accumulate_step;
            [| apply Hc; unfold weights; cbn; set_solver ]).
    reflexivity. }
  split; [exact Ht |]. apply synthesize_results_fields, Ht.
Qed.

(** ** Comparisons of binary64 against the band thresholds *)

Module B64Facts.

Definition sf_075 : spec_float := S754_finite false 6755399441055744 (-53).
Definition sf_05 : spec_float := S754_finite false 4503599627370496 (-53).

Lemma lit_075 : B64.lit 75 2 = 0.75%float.
Proof. vm_compute. reflexivity. Qed.

Lemma lit_05 : B64.lit 5 1 = 0.5%float.
Proof. vm_compute. reflexivity. Qed.

(** The weight literals, as the doubles CPython reads them. *)
Lemma lit_weights :
  B64.lit 25 2 = 0x1p-2%float ∧ B64.lit 20 2 = 0x1.999999999999ap-3%float
  ∧ B64.lit 15 2 = 0x1.3333333333333p-3%float
  ∧ B64.lit 10 2 = 0x1.999999999999ap-4%float.
Proof. vm_compute. repeat split. Qed.

Lemma prim_075 : Prim2SF 0.75%float = sf_075.
Proof. vm_compute. reflexivity. Qed.

Lemma prim_05 : Prim2SF 0.5%float = sf_05.
Proof. vm_compute. reflexivity. Qed.

(** [x < y] excludes [y <= x]. *)
Lemma SFcompare_Lt_swap x y :
  SFcompare x y = Some Lt → SFcompare y x = Some Gt.
Proof.
  destruct x as [sx | sx | | sx mx ex], y as [sy | sy | | sy my ey]; cbn;
    try destruct sx; try destruct sy; try discriminate; try reflexivity.
  all: change (PosDef.Pos.compare_cont Eq ?p ?q) with (Pos.compare p q).
  all: rewrite (Z.compare_antisym ey ex), (Pos.compare_antisym mx my).
  all: destruct (ey ?= ex); cbn; try discriminate; try reflexivity.
  all: destruct (mx ?= my)%positive; cbn; congruence.
Qed.

Lemma ltb_not_leb (x y : float) :
  PrimFloat.ltb x y = true → PrimFloat.leb y x = false.
Proof.
  rewrite FloatAxioms.ltb_spec, FloatAxioms.leb_spec. unfold SFltb, SFleb.
  destruct (SFcompare (Prim2SF x) (Prim2SF y)) as [[ | | ] |] eqn:Hc; try discriminate.
  intros _. rewrite (SFcompare_Lt_swap _ _ Hc). reflexivity.
Qed.

Lemma compare_cont_Lt_le (m a b : positive) :
  (a <= b)%positive →
  PosDef.Pos.compare_cont Eq m a = Lt → PosDef.Pos.compare_cont Eq m b = Lt.
Proof.
  change (PosDef.Pos.compare_cont Eq m a) with (Pos.compare m a).
  change (PosDef.Pos.compare_cont Eq m b) with (Pos.compare m b).
  rewrite !Pos.compare_lt_iff. lia.
Qed.

(** Below a positive finite number is below any larger mantissa at the
    same exponent. *)
Lemma SFcompare_finite_below (s : bool) (m a b : positive) (e e' : Z) :
  (a <= b)%positive →
  SFcompare (S754_finite s m e) (S754_finite false a e') = Some Lt →
  SFcompare (S754_finite s m e) (S754_finite false b e') = Some Lt.
Proof.
  intros Hab. cbn. destruct s; [reflexivity |].
  destruct (e ?= e'); try discriminate; try reflexivity.
  intros Hlt. f_equal. injection Hlt as Hlt.
  exact (compare_cont_Lt_le _ _ _ Hab Hlt).
Qed.

(** Below 0.5 is below 0.75. *)
Lemma SFcompare_below_05 x :
  SFcompare x sf_05 = Some Lt → SFcompare x sf_075 = Some Lt.
Proof.
  destruct x as [sx | sx | | sx mx ex].
  - destruct sx; intros _; reflexivity.
  - destruct sx; [intros _; reflexivity | discriminate].
  - discriminate.
  - apply SFcompare_finite_below. vm_compute. discriminate.
Qed.

Lemma ltb_05_ltb_075 (x : float) :
  PrimFloat.ltb x 0.5 = true → PrimFloat.ltb x 0.75 = true.
Proof.
  rewrite !FloatAxioms.ltb_spec, prim_05, prim_075. unfold SFltb.
  destruct (SFcompare (Prim2SF x) sf_05) as [[ | | ] |] eqn:Hc; try discriminate.
  intros _. rewrite (SFcompare_below_05 _ Hc). reflexivity.
Qed.

End B64Facts.

(** C2: the recommendation is PROCEED from 0.75 upwards, CAUTION from 0.5
    up to (excluding) 0.75 and REJECT below 0.5, for every binary64 value of
    the unrounded sum; 0.75 itself gives PROCEED and 0.5 itself CAUTION; and
    this band is the recommendation stored by [synthesize_results]. *)
Theorem C2_recommendation_bands :
  (∀ x : float,
     (PrimFloat.leb 0.75 x = true → recommend x = "PROCEED")
     ∧ (PrimFloat.leb 0.5 x = true → PrimFloat.ltb x 0.75 = true →
        recommend x = "CAUTION")
     ∧ (PrimFloat.ltb x 0.5 = true → recommend x = "REJECT"))
  ∧ recommend 0.75%float = "PROCEED"
  ∧ recommend 0.5%float = "CAUTION"
  ∧ (∀ (B : builtins float) (results : gmap string (pyval float)) (x : float),
       overall_confidence B results = Ok x →
       ∃ d, synthesize_results B results = Ok d
            ∧ d !! "recommendation" = Some (VStr (recommend x))).
Proof.
  split; [| split; [| split ] ].
  - intros x. unfold recommend. cbn [fge flit binary64].
    rewrite B64Facts.lit_075, B64Facts.lit_05.
    split; [| split ].
    + intros ->. reflexivity.
    + intros H05 H075. rewrite (B64Facts.ltb_not_leb _ _ H075), H05. reflexivity.
    + intros H05.
      rewrite (B64Facts.ltb_not_leb _ _ (B64Facts.ltb_05_ltb_075 _ H05)).
      rewrite (B64Facts.ltb_not_leb _ _ H05). reflexivity.
  - vm_compute. reflexivity.
  - vm_compute. reflexivity.
  - intros B results x Hx.
    destruct (synthesize_results_fields B results x Hx) as (d & Hd & _ & Hr).
    exists d. split; assumption.
Qed.


Lemma C1_witness :
  overall_confidence no_builtins partial_results = Ok 0x1.dc28f5c28f5c2p-2%float
  ∧ ∃ d, synthesize_results no_builtins partial_results = Ok d
         ∧ d !! "overall_confidence" = Some (VFloat 0x1.d70a3d70a3d71p-2%float)
         ∧ d !! "recommendation" = Some (VStr "REJECT").
Proof.
  assert (Hc : ∀ name, name ∈ (weights float).*1 →
            confidence_is no_builtins partial_results name (partial_confidences name)).
  { intros name Hin.
    apply list_elem_of_In in Hin. cbn in Hin.
    destruct Hin as [<- | [<- | [<- | [<- | [<- | [<- | []]]]]]].
    - eapply conf_present; [reflexivity | reflexivity | vm_compute; reflexivity].
    - change (partial_confidences "clinical_analysis") with (@flit float binary64 0 1).
      apply conf_absent. reflexivity.
    - change (partial_confidences "market_analysis") with (@flit float binary64 0 1).
      eapply conf_missing_field; reflexivity.
    - eapply conf_present; [reflexivity | reflexivity | vm_compute; reflexivity].
    - eapply conf_present; [reflexivity | reflexivity | vm_compute; reflexivity].
    - eapply conf_present; [reflexivity | reflexivity | vm_compute; reflexivity]. }
  destruct (C1_overall_confidence_is_weighted_sum float binary64 no_builtins
              partial_results partial_confidences Hc) as [Ht (d & Hd & Hconf & Hrec)].
  split.
  - rewrite Ht. vm_compute. reflexivity.
  - exists d. split; [exact Hd |]. split.
    + rewrite Hconf. vm_compute. reflexivity.
    + rewrite Hrec. vm_compute. reflexivity.
Defined.

(** ** Monotonicity, in exact arithmetic *)

Module ExactFacts.

Lemma weights_nonneg : Forall (λ p : string * Q, (0 <= p.2)%Q) (weights Q).
Proof. unfold weights. repeat constructor; discriminate. Qed.

Lemma fround_mono (x y : Q) (k : nat) :
  (x <= y)%Q → (fround x k <= fround y k)%Q.
Proof.
  intros Hxy. cbn [fround exactQ].
  assert (Hp : 0 < 10 ^ Z.of_nat k) by (apply Z.pow_pos_nonneg; lia).
  unfold Qle in *. cbn [Qnum Qden].
  apply Z.mul_le_mono_nonneg_r; [lia |].
  apply rne_div_mono; try lia. nia.
Qed.

Section Accumulate.
Variable B : builtins Q.
Variables results results' : gmap string (pyval Q).
Variable name : string.
Variables x x' : Q.
Hypothesis others_fixed : ∀ n, n ≠ name → results' !! n = results !! n.
Hypothesis old_conf : confidence_is B results name x.
Hypothesis new_conf : confidence_is B results' name x'.
Hypothesis increased : (x <= x')%Q.

Lemma accumulate_mono (ws : list (string * Q)) :
  Forall (λ p : string * Q, (0 <= p.2)%Q) ws →
  ∀ acc acc' s,
    (acc <= acc')%Q →
    accumulate B results ws acc = Ok s →
    ∃ s', accumulate B results' ws acc' = Ok s' ∧ (s <= s')%Q.
Proof.
  induction 1 as [| [agent w] ws Hw _ IH]; intros acc acc' s Hacc Hrun.
  - injection Hrun as <-. exists acc'. split; [reflexivity | exact Hacc].
  - simpl in Hw. destruct (decide (agent = name)) as [-> | Hne].
    + rewrite (accumulate_step B results name w ws acc x old_conf) in Hrun.
      rewrite (accumulate_step B results' name w ws acc' x' new_conf).
      refine (IH _ (fadd acc' (fmul x' w)) _ _ Hrun).
      cbn [fadd fmul exactQ]. apply Qplus_le_compat; [exact Hacc |].
      apply Qmult_le_compat_r; assumption.
    + cbn [accumulate] in Hrun |- *. unfold dict_get in Hrun |- *.
      rewrite (others_fixed agent Hne).
      destruct (results !! agent) as [[ | | | | | | r] |]; try (eapply IH; eassumption).
      * destruct (py_float B _) as [c | e]; [| discriminate Hrun].
        cbn [bind] in Hrun |- *.
        refine (IH _ (fadd acc' (fmul c w)) _ _ Hrun).
        cbn [fadd exactQ]. apply Qplus_le_compat; [exact Hacc | apply Qle_refl].
      * destruct (py_float B _) as [c | e]; [| discriminate Hrun].
        cbn [bind] in Hrun |- *.
        refine (IH _ (fadd acc' (fmul c w)) _ _ Hrun).
        cbn [fadd exactQ]. apply Qplus_le_compat; [exact Hacc | apply Qle_refl].
Qed.

End Accumulate.

End ExactFacts.

(** In exact rational arithmetic, raising the confidence of one
    capability while every other entry of the result map stays as it is does
    not lower the overall confidence: neither the unrounded weighted sum nor
    the two-decimal value stored by [synthesize_results]. *)
Theorem overall_confidence_monotone_exact
    (B : builtins Q) (results results' : gmap string (pyval Q))
    (name : string) (x x' s : Q) :
  (∀ n, n ≠ name → results' !! n = results !! n) →
  confidence_is B results name x →
  confidence_is B results' name x' →
  (x <= x')%Q →
  overall_confidence B results = Ok s →
  ∃ s' d d',
    overall_confidence B results' = Ok s' ∧ (s <= s')%Q
    ∧ synthesize_results B results = Ok d
    ∧ synthesize_results B results' = Ok d'
    ∧ d !! "overall_confidence" = Some (VFloat (fround s 2))
    ∧ d' !! "overall_confidence" = Some (VFloat (fround s' 2))
    ∧ (fround s 2 <= fround s' 2)%Q.
Proof.
  intros Hfix Hold Hnew Hle Hs.
  destruct (ExactFacts.accumulate_mono B results results' name x x'
              Hfix Hold Hnew Hle (weights Q) ExactFacts.weights_nonneg
              (flit 0 1) (flit 0 1) s (Qle_refl _) Hs) as (s' & Hs' & Hss').
  destruct (synthesize_results_fields B results s Hs) as (d & Hd & Hf & _).
  destruct (synthesize_results_fields B results' s' Hs') as (d' & Hd' & Hf' & _).
  exists s', d, d'. repeat split; try assumption.
  apply ExactFacts.fround_mono, Hss'.
Qed.

Example overall_confidence_monotone_exact_run :
  ∃ s' d d',
    overall_confidence no_builtins (q_results (3 # 4)) = Ok s'
    ∧ (q_sum (1 # 2) <= s')%Q
    ∧ synthesize_results no_builtins (q_results (1 # 2)) = Ok d
    ∧ synthesize_results no_builtins (q_results (3 # 4)) = Ok d'
    ∧ d !! "overall_confidence" = Some (VFloat (fround (q_sum (1 # 2)) 2))
    ∧ d' !! "overall_confidence" = Some (VFloat (fround s' 2))
    ∧ (fround (q_sum (1 # 2)) 2 <= fround s' 2)%Q.
Proof.
  apply (overall_confidence_monotone_exact no_builtins
           (q_results (1 # 2)) (q_results (3 # 4)) "patent_analysis"
           (1 # 2) (3 # 4) (q_sum (1 # 2))).
  - intros n Hn. unfold q_results. rewrite !(lookup_insert_ne _ "patent_analysis") by done.
    reflexivity.
  - eapply conf_present; reflexivity.
  - eapply conf_present; reflexivity.
  - discriminate.
  - reflexivity.
Qed.

(** ** Monotonicity, on binary64 *)

Module FloatFacts.
Import B64Order.

Lemma weights_positive :
  Forall (λ p : string * float,
            p.1 ∈ (weights float).*1 ∧ ∃ m e, Prim2SF p.2 = S754_finite false m e)
         (weights float).
Proof.
  rewrite weights_names. unfold weights.
  repeat (constructor;
          [ split; [ cbn [fst]; set_solver
                   | cbn [snd]; vm_compute; eexists _, _; reflexivity ] |]).
  constructor.
Qed.

Lemma flit_0_fnonneg : fnonneg (flit 0 1).
Proof. vm_compute. exact I. Qed.

Section Accumulate.
Variable B : builtins float.
Variables results results' : gmap string (pyval float).
Variable name : string.
Variables x x' : float.
Variable names : list string.
Hypothesis others_fixed : ∀ n, n ≠ name → results' !! n = results !! n.
Hypothesis old_conf : confidence_is B results name x.
Hypothesis new_conf : confidence_is B results' name x'.
Hypothesis increased : PrimFloat.leb x x' = true.
Hypothesis in_range :
  ∀ n c, n ∈ names → confidence_is B results n c → PrimFloat.leb 0 c = true.

Lemma accumulate_mono_b64 (ws : list (string * float)) :
  Forall (λ p : string * float,
            p.1 ∈ names ∧ ∃ m e, Prim2SF p.2 = S754_finite false m e) ws →
  ∀ acc acc' s,
    fnonneg acc → fnonneg acc' → fval acc <= fval acc' →
    accumulate B results ws acc = Ok s →
    ∃ s', accumulate B results' ws acc' = Ok s'
          ∧ fnonneg s ∧ fnonneg s' ∧ fval s <= fval s'.
Proof.
  induction 1 as [| [agent w] ws [Hin (mw & ew & Hw)] _ IH];
    intros acc acc' s Ha Ha' Hacc Hrun.
  - injection Hrun as <-. exists acc'. auto.
  - cbn [fst snd] in Hin, Hw. destruct (decide (agent = name)) as [-> | Hne].
    + rewrite (accumulate_step B results name w ws acc x old_conf) in Hrun.
      rewrite (accumulate_step B results' name w ws acc' x' new_conf).
      pose proof (B64OrderFacts.zero_leb_fnonneg x (in_range name x Hin old_conf)) as Hx.
      pose proof (B64OrderFacts.leb_fnonneg x x' Hx increased) as Hx'.
      pose proof (proj1 (B64OrderFacts.leb_fval x x' Hx Hx') increased) as Hxx.
      destruct (B64OrderFacts.fma_mono acc acc' x x' w mw ew Hw Ha Ha' Hx Hx' Hacc Hxx)
        as (Hn & Hn' & Hle).
      exact (IH _ _ s Hn Hn' Hle Hrun).
    + destruct (accumulate_head B results results' agent w ws acc acc'
                  (others_fixed agent Hne))
        as [[Hskip Hskip'] | [(c & Hc & Hc') | (e & He)]].
      * rewrite Hskip in Hrun. rewrite Hskip'. exact (IH _ _ s Ha Ha' Hacc Hrun).
      * rewrite (accumulate_step B results agent w ws acc c Hc) in Hrun.
        rewrite (accumulate_step B results' agent w ws acc' c Hc').
        pose proof (B64OrderFacts.zero_leb_fnonneg c (in_range agent c Hin Hc)) as Hcn.
        destruct (B64OrderFacts.fma_mono acc acc' c c w mw ew Hw Ha Ha' Hcn Hcn Hacc
                    (Z.le_refl _)) as (Hn & Hn' & Hle).
        exact (IH _ _ s Hn Hn' Hle Hrun).
      * rewrite He in Hrun. discriminate Hrun.
Qed.

End Accumulate.

End FloatFacts.

(** C6: on binary64, with every confidence read for the weight table a
    non-negative number (zero, a positive double or [+inf]), raising the
    confidence of one capability while every other entry of the result map
    stays as it is does not lower the overall confidence: neither the
    unrounded weighted sum nor the two-decimal value that
    [synthesize_results] returns. *)
Theorem C6_overall_confidence_monotone
    (B : builtins float) (results results' : gmap string (pyval float))
    (name : string) (x x' s : float) :
  (∀ n, n ≠ name → results' !! n = results !! n) →
  confidence_is B results name x →
  confidence_is B results' name x' →
  PrimFloat.leb x x' = true →
  (∀ n c, n ∈ (weights float).*1 → confidence_is B results n c →
          PrimFloat.leb 0 c = true) →
  overall_confidence B results = Ok s →
  ∃ s' d d',
    overall_confidence B results' = Ok s' ∧ PrimFloat.leb s s' = true
    ∧ synthesize_results B results = Ok d
    ∧ synthesize_results B results' = Ok d'
    ∧ d !! "overall_confidence" = Some (VFloat (fround s 2))
    ∧ d' !! "overall_confidence" = Some (VFloat (fround s' 2))
    ∧ PrimFloat.leb (fround s 2) (fround s' 2) = true.
Proof.
  intros Hfix Hold Hnew Hle Hrange Hs.
  destruct (FloatFacts.accumulate_mono_b64 B results results' name x x'
              ((weights float).*1) Hfix Hold Hnew Hle Hrange
              (weights float) FloatFacts.weights_positive
              (flit 0 1) (flit 0 1) s
              FloatFacts.flit_0_fnonneg FloatFacts.flit_0_fnonneg (Z.le_refl _) Hs)
    as (s' & Hs' & Hn & Hn' & Hss').
  assert (Hleb : PrimFloat.leb s s' = true)
    by (apply B64OrderFacts.leb_fval; assumption).
  destruct (synthesize_results_fields B results s Hs) as (d & Hd & Hf & _).
  destruct (synthesize_results_fields B results' s' Hs') as (d' & Hd' & Hf' & _).
  exists s', d, d'. repeat split; try assumption.
  apply B64OrderFacts.round_mono; assumption.
Qed.

Lemma C6_witness :
  ∃ s' d d',
    overall_confidence no_builtins (f_results 0.75) = Ok s'
    ∧ PrimFloat.leb (f_sum 0.5) s' = true
    ∧ synthesize_results no_builtins (f_results 0.5) = Ok d
    ∧ synthesize_results no_builtins (f_results 0.75) = Ok d'
    ∧ d !! "overall_confidence" = Some (VFloat (fround (f_sum 0.5) 2))
    ∧ d' !! "overall_confidence" = Some (VFloat (fround s' 2))
    ∧ PrimFloat.leb (fround (f_sum 0.5) 2) (fround s' 2) = true.
Proof.
  apply (C6_overall_confidence_monotone no_builtins
           (f_results 0.5) (f_results 0.75) "patent_analysis"
           0.5%float 0.75%float (f_sum 0.5)).
  - intros n Hn. unfold f_results. rewrite !(lookup_insert_ne _ "patent_analysis") by done.
    reflexivity.
  - eapply conf_present; reflexivity.
  - eapply conf_present; reflexivity.
  - vm_compute. reflexivity.
  - intros n c Hin Hc. apply confidence_is_lookup in Hc.
    rewrite weights_names in Hin. apply list_elem_of_In in Hin. cbn [In] in Hin.
    destruct Hin as [<- | [<- | [<- | [<- | [<- | [<- | []]]]]]];
      vm_compute in Hc; injection Hc as <-; vm_compute; reflexivity.
  - vm_compute. reflexivity.
Defined.

(** C10: the stored [overall_confidence] is the weighted sum rounded to two
    decimals, while the recommendation is the band of the unrounded sum; on
    binary64, six confidences of 0.748 give the unrounded sum 0.748, stored
    as 0.75 (a PROCEED value) next to the recommendation CAUTION. *)
Theorem C10_rounded_score_beside_unrounded_band :
  (∀ (F : Type) (PF : PyFloat F) (B : builtins F)
     (results : gmap string (pyval F)) (x : F),
     overall_confidence B results = Ok x →
     ∃ d, synthesize_results B results = Ok d
          ∧ d !! "overall_confidence" = Some (VFloat (fround x 2))
          ∧ d !! "recommendation" = Some (VStr (recommend x)))
  ∧ overall_confidence no_builtins (uniform_results (B64.lit 748 3))
    = Ok (B64.lit 748 3)
  ∧ (∃ d, synthesize_results no_builtins (uniform_results (B64.lit 748 3)) = Ok d
          ∧ d !! "overall_confidence" = Some (VFloat 0.75%float)
          ∧ d !! "recommendation" = Some (VStr "CAUTION"))
  ∧ recommend 0.75%float = "PROCEED".
Proof.
  split; [| split; [| split ] ].
  - intros F PF B results x Hx. apply synthesize_results_fields, Hx.
  - vm_compute. reflexivity.
  - destruct (synthesize_results_fields no_builtins
                (uniform_results (B64.lit 748 3)) (B64.lit 748 3))
      as (d & Hd & Hconf & Hrec).
    { vm_compute. reflexivity. }
    exists d. split; [exact Hd |]. split.
    + rewrite Hconf. vm_compute. reflexivity.
    + rewrite Hrec. vm_compute. reflexivity.
  - vm_compute. reflexivity.
Qed.


(** ** Properties of the conflict detector *)

Module ConflictFacts.
Import ConflictDetector.

Section Facts.
Context {F : Type} `{PyFloat F}.

(** The record that [detect_conflicts] lists for one entry of
    ["source_data"]: its source name, its expiry value and its confidence,
    with the defaults of the three [get] calls for missing fields. *)
Definition listed (entry : gmap string (pyval F)) : expiry_value F :=
  {| source := dict_get entry "source" (VStr "unknown");
     value := dict_get entry "expiry_date" VNone;
     confidence := dict_get entry "confidence" (VInt 0) |}.

(** The entry reports a present (non-empty) expiry value, which counts as
    the set element [k]. *)
Definition present_expiry (entry : gmap string (pyval F)) (k : key) : Prop :=
  ∃ v, entry !! "expiry_date" = Some v ∧ py_truthy v = true ∧ py_key v = Some k.

(** Anything but a non-empty list or dictionary. *)
Definition hashable_or_empty (v : pyval F) : Prop :=
  py_truthy v = false ∨ is_Some (py_key v).

Lemma collect_sources_dicts (entries : list (gmap string (pyval F))) :
  collect_sources (VDict <$> entries) = Ok (listed <$> entries).
Proof.
  induction entries as [| e es IH]; [reflexivity |].
  cbn [fmap list_fmap collect_sources]. fold (VDict <$> es).
  rewrite IH. reflexivity.
Qed.

Lemma py_set_hashable (elements : list (pyval F)) :
  Forall (λ v, is_Some (py_key v)) elements →
  ∃ s, py_set elements = Ok s
       ∧ ∀ k, k ∈ s ↔ ∃ v, v ∈ elements ∧ py_key v = Some k.
Proof.
  induction 1 as [| v vs [k Hk] _ (s & Hs & Hmem)].
  - exists ∅. split; [reflexivity |]. intros k. split.
    + intros Hin. set_solver.
    + intros (v & Hin & _). inversion Hin.
  - exists ({[ k ]} ∪ s). split.
    + cbn [py_set]. rewrite Hk, Hs. reflexivity.
    + intros k'. rewrite elem_of_union, elem_of_singleton, Hmem. split.
      * intros [-> | (v' & Hin & Hk')].
        -- exists v. split; [left | exact Hk].
        -- exists v'. split; [right; exact Hin | exact Hk'].
      * intros (v' & Hin & Hk'). apply elem_of_cons in Hin as [-> | Hin].
        -- left. congruence.
        -- right. exists v'. split; assumption.
Qed.

(** A finite set has more than one element exactly when it has two
    different ones. *)
Lemma size_gt_1_iff (s : gset key) :
  (1 < size s)%nat ↔ ∃ k1 k2, k1 ∈ s ∧ k2 ∈ s ∧ k1 ≠ k2.
Proof.
  split.
  - intros Hsize.
    assert (Hpos : (0 < size s)%nat) by lia.
    destruct (size_pos_elem_of s Hpos) as [k1 Hk1].
    assert (Hrest : (0 < size (s ∖ {[ k1 ]}))%nat).
    { rewrite size_difference by set_solver. rewrite size_singleton. lia. }
    destruct (size_pos_elem_of _ Hrest) as [k2 Hk2].
    apply elem_of_difference in Hk2 as [Hk2 Hne].
    exists k1, k2. repeat split; try assumption.
    intros ->. apply Hne, elem_of_singleton. reflexivity.
  - intros (k1 & k2 & Hk1 & Hk2 & Hne).
    destruct (decide (size s = 0%nat)) as [H0 | H0].
    { apply size_empty_inv in H0. apply H0 in Hk1.
      apply not_elem_of_empty in Hk1. destruct Hk1. }
    destruct (decide (size s = 1%nat)) as [H1 | H1].
    { destruct Hne. exact (size_singleton_inv s k1 k2 H1 Hk1 Hk2). }
    lia.
Qed.

Lemma listed_values (entries : list (gmap string (pyval F))) :
  value <$> (listed <$> entries)
  = (λ e, dict_get e "expiry_date" VNone) <$> entries.
Proof. rewrite <- list_fmap_compose. reflexivity. Qed.

(** The set elements of the present values of a list of entries. *)
Lemma present_values_keys (entries : list (gmap string (pyval F))) (k : key) :
  (∃ v, v ∈ filter (λ v, py_truthy v)
              ((λ e, dict_get e "expiry_date" VNone) <$> entries)
        ∧ py_key v = Some k)
  ↔ ∃ e, e ∈ entries ∧ present_expiry e k.
Proof.
  split.
  - intros (v & Hin & Hk).
    apply list_elem_of_filter in Hin as [Htrue Hin].
    apply list_elem_of_fmap in Hin as (e & -> & He).
    exists e. split; [exact He |].
    unfold dict_get in *. destruct (e !! "expiry_date") as [v |] eqn:Hv.
    + exists v. repeat split; try assumption. apply Is_true_true, Htrue.
    + destruct Htrue.
  - intros (e & He & v & Hv & Htrue & Hk). exists v. split; [| exact Hk].
    apply list_elem_of_filter. split; [apply Is_true_true, Htrue |].
    apply list_elem_of_fmap. exists e. split; [| exact He].
    unfold dict_get. rewrite Hv. reflexivity.
Qed.

End Facts.

End ConflictFacts.

(** C5: [detect_conflicts] reports a conflict exactly when two sources
    carry different present expiry values, and then records one entry that
    lists every source (value and confidence) with the fixed resolution
    text; with no patent result, with a single source, or with fewer than
    two different present values it reports no conflict and records
    nothing.  Missing keys never make it raise: it raises only on data of
    the wrong shape (a non-iterable or non-dictionary source, or a
    non-empty list or dictionary as expiry value). *)
Theorem C5_detect_conflicts_distinct_expiry
    (F : Type) (PF : PyFloat F) (results_dict : gmap string (pyval F)) :
  let none := {| ConflictDetector.conflict_detected := false;
                 ConflictDetector.conflicts := [] |} in
  ((∀ patent_data, results_dict !! "patent_analysis" ≠ Some (VDict patent_data)) →
   ConflictDetector.detect_conflicts results_dict = Ok none)
  ∧ (∀ patent_data,
       results_dict !! "patent_analysis" = Some (VDict patent_data) →
       patent_data !! "source_data" = None →
       ConflictFacts.hashable_or_empty (dict_get patent_data "expiry_date" VNone) →
       ConflictDetector.detect_conflicts results_dict = Ok none)
  ∧ (∀ patent_data (entries : list (gmap string (pyval F))),
       results_dict !! "patent_analysis" = Some (VDict patent_data) →
       patent_data !! "source_data" = Some (VList (VDict <$> entries)) →
       Forall (λ e, ConflictFacts.hashable_or_empty (dict_get e "expiry_date" VNone))
         entries →
       ∃ report,
         ConflictDetector.detect_conflicts results_dict = Ok report
         ∧ (ConflictDetector.conflict_detected report = true ↔
            ∃ e1 e2 k1 k2,
              e1 ∈ entries ∧ e2 ∈ entries
              ∧ ConflictFacts.present_expiry e1 k1
              ∧ ConflictFacts.present_expiry e2 k2
              ∧ k1 ≠ k2)
         ∧ (ConflictDetector.conflict_detected report = true →
            ConflictDetector.conflicts report =
              [ {| ConflictDetector.field := "patent_expiry";
                   ConflictDetector.sources := ConflictFacts.listed <$> entries;
                   ConflictDetector.resolution :=
                     "Use highest confidence source with flag for review" |} ])
         ∧ (ConflictDetector.conflict_detected report = false →
            report = none)).
Proof.
  intros none. split; [| split].
  - intros Hno. unfold ConflictDetector.detect_conflicts, dict_get.
    destruct (results_dict !! "patent_analysis") as [[ | | | | | | d] |] eqn:Hp;
      try reflexivity.
    destruct (Hno d eq_refl).
  - intros patent_data Hp Hsd Hv.
    unfold ConflictDetector.detect_conflicts. unfold dict_get at 1.
    rewrite Hp, Hsd. cbn [bind].
    unfold ConflictDetector.unique_values. cbn [fmap list_fmap ConflictDetector.value].
    rewrite filter_cons.
    destruct (decide (ConflictDetector.py_truthy
                        (dict_get patent_data "expiry_date" VNone))) as [Ht | Ht].
    + destruct Hv as [Hf | [k Hk]].
      { rewrite Hf in Ht. destruct Ht. }
      cbn [ConflictDetector.py_set]. rewrite filter_nil, Hk.
      cbn [ConflictDetector.py_set bind].
      rewrite union_empty_r_L, size_singleton. reflexivity.
    + rewrite filter_nil. reflexivity.
  - intros patent_data entries Hp Hsd Hshape.
    unfold ConflictDetector.detect_conflicts. unfold dict_get at 1.
    rewrite Hp, Hsd. cbn [ConflictDetector.py_iter bind].
    rewrite ConflictFacts.collect_sources_dicts. cbn [bind].
    unfold ConflictDetector.unique_values. rewrite ConflictFacts.listed_values.
    destruct (ConflictFacts.py_set_hashable
                (filter (λ v, ConflictDetector.py_truthy v)
                   ((λ e, dict_get e "expiry_date" VNone) <$> entries)))
      as (s & Hs & Hmem).
    { apply Forall_forall. intros v Hin.
      apply list_elem_of_filter in Hin as [Htrue Hin].
      apply list_elem_of_fmap in Hin as (e & -> & He).
      rewrite Forall_forall in Hshape. destruct (Hshape e He) as [Hf | Hk].
      - rewrite Hf in Htrue. destruct Htrue.
      - exact Hk. }
    rewrite Hs. cbn [bind].
    assert (Hdistinct :
      (1 < size s)%nat ↔
      ∃ e1 e2 k1 k2, e1 ∈ entries ∧ e2 ∈ entries
                     ∧ ConflictFacts.present_expiry e1 k1
                     ∧ ConflictFacts.present_expiry e2 k2 ∧ k1 ≠ k2).
    { rewrite ConflictFacts.size_gt_1_iff. split.
      - intros (k1 & k2 & Hk1 & Hk2 & Hne).
        apply Hmem, ConflictFacts.present_values_keys in Hk1 as (e1 & He1 & Hp1).
        apply Hmem, ConflictFacts.present_values_keys in Hk2 as (e2 & He2 & Hp2).
        exists e1, e2, k1, k2. repeat split; assumption.
      - intros (e1 & e2 & k1 & k2 & He1 & He2 & Hp1 & Hp2 & Hne).
        exists k1, k2. repeat split; try assumption.
        + apply Hmem, ConflictFacts.present_values_keys. exists e1. split; assumption.
        + apply Hmem, ConflictFacts.present_values_keys. exists e2. split; assumption. }
    destruct (bool_decide (1 < size s)%nat) eqn:Hb.
    + apply bool_decide_eq_true in Hb. eexists. split; [reflexivity |].
      cbn [ConflictDetector.conflict_detected ConflictDetector.conflicts].
      split; [| split].
      * split; [intros _; apply Hdistinct, Hb | reflexivity].
      * reflexivity.
      * discriminate.
    + apply bool_decide_eq_false in Hb. eexists. split; [reflexivity |].
      cbn [ConflictDetector.conflict_detected ConflictDetector.conflicts].
      split; [| split].
      * split; [discriminate | intros Hd; destruct Hb; apply Hdistinct, Hd].
      * discriminate.
      * reflexivity.
Qed.

(** ** Properties of the dispatcher and of the progress map *)

Section DispatcherFacts.
Context {F : Type} `{PyFloat F}.
Variable analyze : agent_class → string → string → call F.
Variable self : MasterAgent.
Variables molecule_name disease_name : string.

#[local] Abbreviation exec' := (exec analyze self molecule_name disease_name).
#[local] Abbreviation step' := (step analyze self molecule_name disease_name).
#[local] Abbreviation run' := (run analyze self molecule_name disease_name).

(** What the task of [agent] hands to [gather]: the value returned by
    [_run_agent_async]. *)
Definition task_value (agent : agent_class) : pyval F :=
  (settle (analyze_async agent (analyze agent molecule_name disease_name))).2.

Definition task_status (agent : agent_class) : status :=
  (settle (analyze_async agent (analyze agent molecule_name disease_name))).1.

Lemma settle_terminal (awaited : result exn (pyval F)) :
  (settle awaited).1 = Complete ∨ (settle awaited).1 = Failed.
Proof.
  destruct awaited as [v | e]; cbn; [left; reflexivity |].
  destruct (is_timeout e); right; reflexivity.
Qed.

(** The writes of one event. *)
Lemma exec_Start name s s' :
  exec' (Start name) s = Some s' ↔
  tasks s !! name = Some Scheduled
  ∧ s' = {| heap := set_progress self name Running (heap s);
            tasks := <[name := Awaiting]> (tasks s) |}.
Proof.
  cbn [exec]. destruct (tasks s !! name) as [[ | | r] |].
  - split; [intros [= <-]; split; reflexivity | intros [_ ->]; reflexivity].
  - split; [discriminate | intros [[=] _]].
  - split; [discriminate | intros [[=] _]].
  - split; [discriminate | intros [[=] _]].
Qed.

Lemma exec_Settle name s s' :
  exec' (Settle name) s = Some s' ↔
  ∃ agent,
    tasks s !! name = Some Awaiting ∧ agent_of name = Some agent
    ∧ s' = {| heap := set_progress self name (task_status agent) (heap s);
              tasks := <[name := Finished (Ok (task_value agent))]> (tasks s) |}.
Proof.
  cbn [exec]. unfold task_status, task_value.
  destruct (tasks s !! name) as [[ | | r] |].
  2: destruct (agent_of name) as [agent |].
  2: { split.
       - intros [= <-]. exists agent. repeat split.
       - intros (agent' & _ & [= <-] & ->). reflexivity. }
  all: split; [discriminate |].
  all: intros (agent' & Ht & Ha & _); discriminate.
Qed.

(** Every finished task holds the value of its own agent. *)
Definition finished_ok (s : state F) : Prop :=
  ∀ name r, tasks s !! name = Some (Finished r) →
            ∃ agent, agent_of name = Some agent ∧ r = Ok (task_value agent).

Lemma exec_finished_ok ev s s' :
  exec' ev s = Some s' → finished_ok s → finished_ok s'.
Proof.
  intros Hexec Hok name r. destruct ev as [n | n].
  - apply exec_Start in Hexec as [_ ->]. cbn [tasks].
    destruct (decide (n = name)) as [-> | Hne].
    + rewrite lookup_insert_eq. discriminate.
    + rewrite lookup_insert_ne by exact Hne. apply Hok.
  - apply exec_Settle in Hexec as (agent & _ & Hagent & ->). cbn [tasks].
    destruct (decide (n = name)) as [-> | Hne].
    + rewrite lookup_insert_eq. intros [= <-]. exists agent. split; [exact Hagent | reflexivity].
    + rewrite lookup_insert_ne by exact Hne. apply Hok.
Qed.

Lemma run_finished_ok schedule :
  ∀ s s', run' schedule s = Some s' → finished_ok s → finished_ok s'.
Proof.
  induction schedule as [| ev rest IH]; intros s s' Hrun Hok.
  - injection Hrun as <-. exact Hok.
  - cbn [run] in Hrun. destruct (exec' ev s) as [s1 |] eqn:Hexec; [| discriminate].
    exact (IH s1 s' Hrun (exec_finished_ok ev s s1 Hexec Hok)).
Qed.

Lemma launch_tasks (σ : store) name t :
  tasks (launch (F := F) σ) !! name = Some t → t = Scheduled.
Proof.
  cbn [launch tasks]. intros Hl.
  apply elem_of_list_to_map_2, list_elem_of_fmap in Hl as (p & [= _ ->] & _).
  reflexivity.
Qed.

Lemma launch_finished_ok (σ : store) : finished_ok (launch σ).
Proof. intros name r Hl. apply launch_tasks in Hl. discriminate. Qed.

Lemma gather_values_of (l : list (string * agent_class)) (s : state F) rl :
  finished_ok s →
  Forall (λ p, agent_of p.1 = Some p.2) l →
  mapM (λ p : string * agent_class,
          match tasks s !! p.1 with
          | Some (Finished r) => Some r
          | _ => None
          end) l = Some rl →
  rl = (λ p : string * agent_class, Ok (task_value p.2)) <$> l.
Proof.
  intros Hok Hl. revert rl. induction Hl as [| p l Hp _ IH]; intros rl Hm.
  - injection Hm as <-. reflexivity.
  - apply mapM_Some in Hm. inversion Hm as [| ? r ? rl' Hr Hrest]; subst.
    apply mapM_Some in Hrest. rewrite (IH rl' Hrest). cbn [fmap list_fmap]. f_equal.
    destruct (tasks s !! p.1) as [[ | | r'] |] eqn:Ht; try discriminate.
    injection Hr as ->. destruct (Hok _ _ Ht) as (agent & Ha & ->).
    rewrite Hp in Ha. injection Ha as <-. reflexivity.
Qed.

(** The join hands over the six task values, in the order of
    [self.agents], whatever the order in which the tasks were resumed. *)
Lemma gather_values schedule (σ : store) (s : state F) rl :
  run' schedule (launch σ) = Some s →
  gather s = Some rl →
  rl = (λ p : string * agent_class, Ok (task_value p.2)) <$> agents.
Proof.
  intros Hrun Hg.
  apply (gather_values_of agents s rl
           (run_finished_ok schedule _ _ Hrun (launch_finished_ok σ))); [| exact Hg].
  unfold agents. repeat constructor.
Qed.

Lemma build_results_values name agent :
  (name, agent) ∈ agents →
  build_results ((λ p : string * agent_class, Ok (task_value p.2)) <$> agents) !! name
  = Some (task_value agent).
Proof.
  intros Hin. apply list_elem_of_In in Hin. cbn in Hin.
  destruct Hin as [[= <- <-] | [[= <- <-] | [[= <- <-] | [[= <- <-] |
                  [[= <- <-] | [[= <- <-] | []]]]]]];
    reflexivity.
Qed.

End DispatcherFacts.

Section RunFacts.
Context {F : Type} `{PyFloat F}.
Variable B : builtins F.
Variable analyze : agent_class → string → string → call F.
Variable generate_report :
  string → string → gmap string (pyval F) → result exn string.
Variable timestamp : string.
Variable self : MasterAgent.
Variables molecule_name disease_name : string.

#[local] Abbreviation run_with :=
  (analyze_repurposing_async B analyze generate_report timestamp self
     molecule_name disease_name).
#[local] Abbreviation assemble' :=
  (assemble B generate_report timestamp molecule_name disease_name).
#[local] Abbreviation value_of := (task_value analyze molecule_name disease_name).

(** A run that ends has assembled the six task values. *)
Lemma run_with_assembles schedule (σ σ' : store) out :
  run_with schedule σ = Some (σ', out) →
  out = assemble' ((λ p : string * agent_class, Ok (value_of p.2)) <$> agents).
Proof.
  unfold analyze_repurposing_async. intros Hrun.
  destruct (run analyze self molecule_name disease_name schedule (launch σ))
    as [s |] eqn:Hs; [| discriminate].
  cbn [mbind option_bind] in Hrun.
  destruct (gather s) as [rl |] eqn:Hg; [| discriminate].
  cbn [mbind option_bind] in Hrun. injection Hrun as _ <-.
  rewrite (gather_values analyze self molecule_name disease_name schedule σ s rl Hs Hg).
  reflexivity.
Qed.

(** A bundle that is returned carries every task value under its name. *)
Lemma assemble_bundle name agent bundle :
  (name, agent) ∈ agents →
  assemble' ((λ p : string * agent_class, Ok (value_of p.2)) <$> agents) = Ok bundle →
  bundle !! name = Some (value_of agent).
Proof.
  intros Hin. unfold assemble.
  destruct (synthesize_results B _) as [synthesis | pe]; [| discriminate].
  destruct (generate_report _ _ _) as [pdf_path | re]; [| discriminate].
  intros [= <-].
  rewrite <- (build_results_values analyze molecule_name disease_name name agent Hin).
  apply list_elem_of_In in Hin. cbn in Hin.
  destruct Hin as [[= <- <-] | [[= <- <-] | [[= <- <-] | [[= <- <-] |
                  [[= <- <-] | [[= <- <-] | []]]]]]];
    rewrite !lookup_insert_ne by done; reflexivity.
Qed.

(** What a run raises comes from the synthesizer or from the renderer. *)
Lemma assemble_raises rl err :
  assemble' rl = Raise err →
  (∃ pe, err = SynthesisRaised pe)
  ∨ (∃ re all_results,
       err = RendererRaised re
       ∧ generate_report molecule_name disease_name all_results = Raise re).
Proof.
  unfold assemble.
  destruct (synthesize_results B _) as [synthesis | pe].
  - destruct (generate_report _ _ _) as [pdf_path | re] eqn:Hr; [discriminate |].
    intros [= <-]. right. eexists _, _. split; [reflexivity | exact Hr].
  - intros [= <-]. left. exists pe. reflexivity.
Qed.

(** Resumed in the order of [self.agents], the run ends. *)
Lemma run_with_in_order (σ : store) :
  ∃ σ' out, run_with in_order σ = Some (σ', out).
Proof. eexists _, _. reflexivity. Qed.

End RunFacts.

Section ProgressFacts.
Context {F : Type} `{PyFloat F}.
Variable analyze : agent_class → string → string → call F.
Variable self : MasterAgent.
Variables molecule_name disease_name : string.

#[local] Abbreviation exec' := (exec analyze self molecule_name disease_name).
#[local] Abbreviation step' := (step analyze self molecule_name disease_name).

(** The progress map as a reader of [self.progress] sees it. *)
Definition progress_of (s : state F) : gmap string status :=
  deref (heap s) (progress self).

(** The status that goes with the stage of a task. *)
Definition agrees (t : option (task_state F)) (st : option status) : Prop :=
  match t with
  | Some Scheduled => st = Some Pending
  | Some Awaiting => st = Some Running
  | Some (Finished _) => st = Some Complete ∨ st = Some Failed
  | None => True
  end.

Definition consistent (s : state F) : Prop :=
  is_Some (heap s !! progress self)
  ∧ ∀ name, agrees (tasks s !! name) (progress_of s !! name).

(** One step of one entry of the progress map. *)
Definition moves (s s' : state F) (name : string) : Prop :=
  progress_of s' !! name = progress_of s !! name
  ∨ (progress_of s !! name = Some Pending
     ∧ progress_of s' !! name = Some Running
     ∧ tasks s !! name = Some Scheduled
     ∧ tasks s' !! name = Some Awaiting)
  ∨ (progress_of s !! name = Some Running
     ∧ (progress_of s' !! name = Some Complete ∨ progress_of s' !! name = Some Failed)
     ∧ tasks s !! name = Some Awaiting
     ∧ ∃ r, tasks s' !! name = Some (Finished r)).

Lemma progress_of_set name st (σ : store) (ts : gmap string (task_state F)) :
  is_Some (σ !! progress self) →
  progress_of {| heap := set_progress self name st σ; tasks := ts |}
  = <[name := st]> (deref σ (progress self)).
Proof.
  intros [P HP]. unfold progress_of, deref, set_progress. cbn [heap].
  rewrite lookup_alter_eq, HP. reflexivity.
Qed.

Lemma set_progress_is_Some name st (σ : store) :
  is_Some (σ !! progress self) → is_Some (set_progress self name st σ !! progress self).
Proof.
  intros [P HP]. unfold set_progress. rewrite lookup_alter_eq, HP. eexists. reflexivity.
Qed.

Lemma exec_consistent ev s s' :
  exec' ev s = Some s' → consistent s →
  consistent s' ∧ ∀ name, moves s s' name.
Proof.
  intros Hexec [Hheap Hagree]. destruct ev as [n | n].
  - apply exec_Start in Hexec as [Ht ->].
    pose proof (Hagree n) as Hn. rewrite Ht in Hn. cbn [agrees] in Hn.
    split; [split |].
    + apply set_progress_is_Some, Hheap.
    + intros name. rewrite progress_of_set by exact Hheap. cbn [tasks].
      destruct (decide (n = name)) as [<- | Hne].
      * rewrite !lookup_insert_eq. reflexivity.
      * rewrite !lookup_insert_ne by exact Hne. apply Hagree.
    + intros name. unfold moves. rewrite progress_of_set by exact Hheap. cbn [tasks].
      destruct (decide (n = name)) as [<- | Hne].
      * right. left. rewrite !lookup_insert_eq. repeat split; assumption.
      * left. rewrite lookup_insert_ne by exact Hne. reflexivity.
  - apply exec_Settle in Hexec as (agent & Ht & _ & ->).
    pose proof (Hagree n) as Hn. rewrite Ht in Hn. cbn [agrees] in Hn.
    pose proof (settle_terminal
                  (analyze_async agent (analyze agent molecule_name disease_name)))
      as Hterm.
    fold (task_status analyze molecule_name disease_name agent) in Hterm.
    split; [split |].
    + apply set_progress_is_Some, Hheap.
    + intros name. rewrite progress_of_set by exact Hheap. cbn [tasks].
      destruct (decide (n = name)) as [<- | Hne].
      * rewrite !lookup_insert_eq. cbn [agrees].
        destruct Hterm as [-> | ->]; [left | right]; reflexivity.
      * rewrite !lookup_insert_ne by exact Hne. apply Hagree.
    + intros name. unfold moves. rewrite progress_of_set by exact Hheap. cbn [tasks].
      destruct (decide (n = name)) as [<- | Hne].
      * right. right. rewrite !lookup_insert_eq. repeat split; try assumption.
        -- destruct Hterm as [-> | ->]; [left | right]; reflexivity.
        -- eexists. reflexivity.
      * left. rewrite lookup_insert_ne by exact Hne. reflexivity.
Qed.

Lemma reachable_consistent s0 s :
  consistent s0 → rtc step' s0 s → consistent s.
Proof.
  intros H0 Hreach. induction Hreach as [| s0 s1 s [ev Hexec] _ IH]; [exact H0 |].
  apply IH. exact (proj1 (exec_consistent ev s0 s1 Hexec H0)).
Qed.

(** A terminal entry stays as it is. *)
Lemma terminal_stable s s' name :
  consistent s → rtc step' s s' →
  progress_of s !! name = Some Complete ∨ progress_of s !! name = Some Failed →
  progress_of s' !! name = progress_of s !! name.
Proof.
  intros Hc Hreach. induction Hreach as [| s s1 s' [ev Hexec] _ IH]; [reflexivity |].
  intros Hterm.
  destruct (exec_consistent ev s s1 Hexec Hc) as [Hc1 Hmoves].
  assert (Hsame : progress_of s1 !! name = progress_of s !! name).
  { destruct (Hmoves name) as [Hs | [(Hp & _) | (Hr & _)]]; [exact Hs | |].
    - rewrite Hp in Hterm. destruct Hterm; discriminate.
    - rewrite Hr in Hterm. destruct Hterm; discriminate. }
  rewrite <- Hsame. apply (IH Hc1). rewrite Hsame. exact Hterm.
Qed.

End ProgressFacts.

Lemma init_progress_of {F : Type} (σ0 : store) (ts : gmap string (task_state F)) :
  progress_of (init σ0).1 {| heap := (init σ0).2; tasks := ts |}
  = list_to_map ((λ p : string * agent_class, (p.1, Pending)) <$> agents).
Proof.
  unfold progress_of, deref, init. cbn [fst snd heap progress].
  rewrite lookup_insert_eq. reflexivity.
Qed.

Lemma init_consistent {F : Type} (σ0 : store) :
  consistent (F := F) (init σ0).1 (launch (init σ0).2).
Proof.
  split.
  - unfold init, launch. cbn [fst snd heap progress]. rewrite lookup_insert_eq.
    eexists. reflexivity.
  - intros name. unfold launch. rewrite init_progress_of. cbn [tasks].
    destruct (list_to_map _ !! name) as [t |] eqn:Ht; [| exact I].
    apply elem_of_list_to_map_2, list_elem_of_fmap in Ht as (p & [= -> ->] & Hp).
    cbn [agrees]. apply list_elem_of_In in Hp. cbn in Hp.
    destruct Hp as [<- | [<- | [<- | [<- | [<- | [<- | []]]]]]]; reflexivity.
Qed.

(** C7: from construction, every agent is Pending and its task not yet
    started; each step of a run leaves an entry as it is, or moves it from
    Pending to Running while its task is launched, or from Running to
    Complete or Failed while its task settles; a launch always writes
    Running and a settlement always writes Complete or Failed; and an entry
    that is Complete or Failed keeps that status for the rest of the run. *)
Theorem C7_progress_lifecycle
    (F : Type) (PF : PyFloat F)
    (analyze : agent_class → string → string → call F)
    (molecule_name disease_name : string) (σ0 : store) :
  let self := (init σ0).1 in
  let s0 : state F := launch (init σ0).2 in
  let status_of (s : state F) name :=
    deref (heap s) (get_analysis_progress self) !! name in
  let step' := step analyze self molecule_name disease_name in
  (∀ name agent, (name, agent) ∈ agents →
     status_of s0 name = Some Pending ∧ tasks s0 !! name = Some Scheduled)
  ∧ (∀ s s' name, rtc step' s0 s → step' s s' →
       status_of s' name = status_of s name
       ∨ (status_of s name = Some Pending
          ∧ status_of s' name = Some Running
          ∧ tasks s !! name = Some Scheduled
          ∧ tasks s' !! name = Some Awaiting)
       ∨ (status_of s name = Some Running
          ∧ (status_of s' name = Some Complete ∨ status_of s' name = Some Failed)
          ∧ tasks s !! name = Some Awaiting
          ∧ ∃ r, tasks s' !! name = Some (Finished r)))
  ∧ (∀ s s' name, rtc step' s0 s → step' s s' →
       (tasks s !! name = Some Scheduled → tasks s' !! name = Some Awaiting →
        status_of s' name = Some Running)
       ∧ (tasks s !! name = Some Awaiting →
          (∃ r, tasks s' !! name = Some (Finished r)) →
          status_of s' name = Some Complete ∨ status_of s' name = Some Failed))
  ∧ (∀ s s' name, rtc step' s0 s → rtc step' s s' →
       status_of s name = Some Complete ∨ status_of s name = Some Failed →
       status_of s' name = status_of s name).
Proof.
  intros self s0 status_of step'.
  assert (Hinit : consistent self s0) by apply init_consistent.
  split; [| split; [| split]].
  - intros name agent Hin. unfold status_of, get_analysis_progress, self, s0, launch.
    change (deref (heap ?s) (progress ?m)) with (progress_of m s).
    rewrite init_progress_of.
    cbn [tasks]. apply list_elem_of_In in Hin. cbn in Hin.
    destruct Hin as [[= <- <-] | [[= <- <-] | [[= <- <-] | [[= <- <-] |
                    [[= <- <-] | [[= <- <-] | []]]]]]];
      split; reflexivity.
  - intros s s' name Hreach [ev Hexec].
    pose proof (reachable_consistent analyze self molecule_name disease_name
                  s0 s Hinit Hreach) as Hc.
    exact (proj2 (exec_consistent analyze self molecule_name disease_name
                    ev s s' Hexec Hc) name).
  - intros s s' name Hreach [ev Hexec].
    pose proof (reachable_consistent analyze self molecule_name disease_name
                  s0 s Hinit Hreach) as Hc.
    destruct (exec_consistent analyze self molecule_name disease_name
                ev s s' Hexec Hc) as [[_ Hagree'] _].
    pose proof (Hagree' name) as Hn. split.
    + intros _ Ha. rewrite Ha in Hn. exact Hn.
    + intros _ [r Hr]. rewrite Hr in Hn. exact Hn.
  - intros s s' name Hreach Hlater Hterm.
    pose proof (reachable_consistent analyze self molecule_name disease_name
                  s0 s Hinit Hreach) as Hc.
    exact (terminal_stable analyze self molecule_name disease_name
             s s' name Hc Hlater Hterm).
Qed.

(** C4, on the code as it is: [BaseAgent.analyze_async] gives up after 30
    seconds and [_run_agent_async] would then record the degraded Timeout
    result and Failed; but each registered agent class defines its own
    [analyze_async] without [wait_for], so the dispatcher waits for the call
    however long it takes.  In the sample run the patent provider answers
    after 45 seconds: its own result is kept and its entry is Complete. *)
Theorem C4_timeout_is_not_applied :
  (∀ (F : Type) (PF : PyFloat F) (c : call F),
     (30 < elapsed c)%Q →
     settle (BaseAgent.analyze_async c) = (Failed, degraded "Timeout"))
  ∧ (∀ (F : Type) (agent : agent_class) (c : call F),
       analyze_async agent c = outcome c)
  ∧ settle (BaseAgent.analyze_async (sample_analyze PatentAgent "aspirin" "flu"))
    = (Failed, degraded "Timeout")
  ∧ match sample_run report_written with
    | Some (σ', Ok bundle) =>
        bundle !! "patent_analysis"
        = Some (VDict {[ "confidence" := VFloat (B64.lit 9 1) ]})
        ∧ deref σ' (progress (init ∅).1) !! "patent_analysis" = Some Complete
    | _ => False
    end.
Proof.
  split; [| split; [| split]].
  - intros F PF c Hslow. unfold BaseAgent.analyze_async, await, run_in_executor, wait_for.
    destruct (Qle_bool (elapsed c) 30) eqn:Hle.
    + apply Qle_bool_iff in Hle. destruct (Qlt_not_le _ _ Hslow Hle).
    + reflexivity.
  - intros F agent c. destruct agent; reflexivity.
  - vm_compute. reflexivity.
  - vm_compute. split; reflexivity.
Qed.

(** The progress dictionary is shared, not copied: in the sample run, the
    mapping returned by [get_analysis_progress] before the first task is
    launched shows the patent agent as Pending, and the same mapping
    shows it as Running once the task has been launched. *)
Lemma C8_returned_mapping_is_altered :
  let self := (init ∅).1 in
  let s0 : state float := launch (init ∅).2 in
  let returned := get_analysis_progress self in
  deref (heap s0) returned !! "patent_analysis" = Some Pending
  ∧ match exec sample_analyze self "aspirin" "flu" (Start "patent_analysis") s0 with
    | Some s1 => deref (heap s1) returned !! "patent_analysis" = Some Running
    | None => False
    end.
Proof. vm_compute. split; reflexivity. Qed.

(** C8, as the code has it: [get_analysis_progress] returns the progress
    dictionary itself, so a mapping obtained from it shows every later
    status write: after a launch the entry reads Running, after a
    settlement it reads the status the task settled with, and the other
    entries read as before. *)
Theorem C8_returned_mapping_is_live
    (F : Type) (PF : PyFloat F)
    (analyze : agent_class → string → string → call F)
    (self : MasterAgent) (molecule_name disease_name : string)
    (s s' : state F) (ev : event) :
  is_Some (heap s !! progress self) →
  exec analyze self molecule_name disease_name ev s = Some s' →
  let returned := get_analysis_progress self in
  match ev with
  | Start name =>
      deref (heap s') returned = <[name := Running]> (deref (heap s) returned)
  | Settle name =>
      ∃ agent,
        agent_of name = Some agent
        ∧ deref (heap s') returned
          = <[name := (settle (analyze_async agent
                                 (analyze agent molecule_name disease_name))).1]>
              (deref (heap s) returned)
  end.
Proof.
  intros Hheap Hexec returned. unfold returned, get_analysis_progress.
  destruct ev as [name | name].
  - apply exec_Start in Hexec as [_ ->].
    exact (progress_of_set self name Running (heap s) _ Hheap).
  - apply exec_Settle in Hexec as (agent & _ & Hagent & ->).
    exists agent. split; [exact Hagent |].
    exact (progress_of_set self name _ (heap s) _ Hheap).
Qed.

Lemma C8_witness :
  deref (set_progress (init ∅).1 "patent_analysis" Running (init ∅).2)
    (get_analysis_progress (init ∅).1)
  = <[ "patent_analysis" := Running ]>
      (deref (init ∅).2 (get_analysis_progress (init ∅).1)).
Proof.
  refine (C8_returned_mapping_is_live float binary64 sample_analyze (init ∅).1
            "aspirin" "flu" (launch (init ∅).2)
            {| heap := set_progress (init ∅).1 "patent_analysis" Running (init ∅).2;
               tasks := <["patent_analysis" := Awaiting]> (tasks (launch (init ∅).2)) |}
            (Start "patent_analysis") _ _).
  - exact (proj1 (init_consistent (F := float) ∅)).
  - reflexivity.
Defined.

(** The renderer's exception leaves [analyze_repurposing_async]: in the
    sample run with a failing renderer the coroutine raises and no bundle
    is returned. *)
Lemma C9_renderer_failure_propagates :
  snd <$> sample_run report_fails = Some (Raise (RendererRaised disk_full)).
Proof. vm_compute. reflexivity. Qed.


(** * Further properties *)

(** ** The synthesizer *)

Section SynthesisFacts.
Context {F : Type} `{PyFloat F}.
Variable B : builtins F.

(** The dictionary built by the [return] statement. *)
Lemma synthesize_results_inv results d :
  synthesize_results B results = Ok d →
  ∃ overall,
    overall_confidence B results = Ok overall
    ∧ d = <["overall_confidence" := VFloat (fround overall 2)]>
          (<["recommendation" := VStr (recommend overall)]>
          (<["key_factors" := VList (VStr <$>
               ((patent_factors B results).1 ++ clinical_factors B results
                  ++ market_factors B results)%list)]>
          (<["risks" := VList (VStr <$>
               match (patent_factors B results).2 with
               | [] => [ "No major risks identified" ]
               | _ => (patent_factors B results).2
               end)]>
          (<["next_steps" := VStr
               (if bool_decide (recommend overall = "PROCEED")
                then "Proceed to feasibility study"
                else "Further analysis required")]> ∅)))).
Proof.
  unfold synthesize_results. intros Hd.
  destruct (overall_confidence B results) as [overall | e]; [| discriminate Hd].
  cbn [bind] in Hd. destruct (patent_factors B results) as [kf rs].
  injection Hd as <-. exists overall. split; reflexivity.
Qed.

Lemma recommend_cases (overall : F) :
  recommend overall = "PROCEED" ∨ recommend overall = "CAUTION"
  ∨ recommend overall = "REJECT".
Proof.
  unfold recommend. destruct (fge overall (flit 75 2)); [auto |].
  destruct (fge overall (flit 5 1)); auto.
Qed.

Lemma py_float_default : py_float B (VFloat (flit 0 1)) = Ok (flit 0 1).
Proof. reflexivity. Qed.

Lemma accumulate_total results (ws : list (string * F)) :
  ∀ acc, (∃ s, accumulate B results ws acc = Ok s)
         ↔ Forall (λ p, converts B results p.1) ws.
Proof.
  induction ws as [| [agent w] ws IH]; intros acc.
  - split; [constructor | eexists; reflexivity].
  - cbn [accumulate]. unfold dict_get at 1.
    rewrite Forall_cons. cbn [fst]. unfold converts at 1.
    destruct (results !! agent) as [[ | | | | | | r] |] eqn:Hr;
      try (rewrite IH; split; [intros Hws; split; [intros r' Hr'; discriminate Hr' | exact Hws]
                              | intros [_ Hws]; exact Hws]).
    + destruct (py_float B (dict_get r "confidence" (VFloat (flit 0 1)))) as [c | e] eqn:Hc;
        cbn [bind].
      * rewrite IH. split; [| intros [_ Hws]; exact Hws].
        intros Hws. split; [| exact Hws]. intros r' Hr'. injection Hr' as <-.
        exists c. exact Hc.
      * split.
        -- intros [s Hs]. discriminate Hs.
        -- intros [Hconv _]. destruct (Hconv r eq_refl) as [x Hx]. congruence.
    + unfold dict_get. rewrite lookup_empty, py_float_default. cbn [bind].
      rewrite IH. split; [| intros [_ Hws]; exact Hws].
      intros Hws. split; [| exact Hws]. intros r' Hr'. discriminate Hr'.
Qed.

End SynthesisFacts.

(** X1: the ["risks"] list of a synthesis is never empty: it is the single
    line about patent infringement when the patent result is a dictionary
    whose ["fto_status"] is the string ["Risk"], and the single placeholder
    line otherwise. *)
Theorem synthesize_results_risks
    (F : Type) (PF : PyFloat F) (B : builtins F)
    (results d : gmap string (pyval F)) :
  synthesize_results B results = Ok d →
  let at_risk :=
    ∃ patent, results !! "patent_analysis" = Some (VDict patent)
              ∧ patent !! "fto_status" = Some (VStr "Risk") in
  (at_risk ∧ d !! "risks" = Some (VList [ VStr "Patent infringement risk detected" ]))
  ∨ (¬ at_risk ∧ d !! "risks" = Some (VList [ VStr "No major risks identified" ])).
Proof.
  intros Hd at_risk. destruct (synthesize_results_inv B results d Hd) as (x & _ & ->).
  rewrite !(lookup_insert_ne _ _ "risks") by done. rewrite lookup_insert_eq.
  unfold patent_factors, dict_get, fto_is_risk, at_risk.
  destruct (results !! "patent_analysis") as [[ | | | | | | patent] |] eqn:Hp;
    try (right; split; [intros (p & Hp' & _); congruence | reflexivity]).
  destruct (patent !! "fto_status") as [[ | | | | s | |] |] eqn:Hf; cbn [snd];
    try (right; split; [intros (p & Hp' & Hf'); congruence | reflexivity]).
  destruct (bool_decide_reflect (s = "Risk")) as [-> | Hne].
  - left. split; [exists patent; split; [reflexivity | exact Hf] | reflexivity].
  - right. split; [| reflexivity]. intros (p & Hp' & Hf'). congruence.
Qed.

(** X3: [synthesize_results] returns exactly when [float] accepts the
    confidence of every weighted capability whose result is a dictionary;
    results that are not dictionaries, missing results and the fields read
    for the key factors never make it raise. *)
Theorem synthesize_results_returns_iff
    (F : Type) (PF : PyFloat F) (B : builtins F) (results : gmap string (pyval F)) :
  (∃ d, synthesize_results B results = Ok d)
  ↔ ∀ agent r, agent ∈ (weights F).*1 →
               results !! agent = Some (VDict r) →
               ∃ x, py_float B (dict_get r "confidence" (VFloat (flit 0 1))) = Ok x.
Proof.
  assert (Hsum : (∃ s, overall_confidence B results = Ok s)
                 ↔ Forall (λ p, converts B results p.1) (weights F))
    by apply accumulate_total.
  rewrite Forall_forall in Hsum. split.
  - intros [d Hd] agent r Hin Hr.
    destruct (synthesize_results_inv B results d Hd) as (s & Hs & _).
    apply list_elem_of_fmap in Hin as ([a w] & -> & Hin).
    exact (proj1 Hsum (ex_intro _ s Hs) (a, w) Hin r Hr).
  - intros Hall. destruct (proj2 Hsum) as [s Hs].
    + intros [a w] Hin r Hr. apply (Hall a r); [| exact Hr].
      apply list_elem_of_fmap. exists (a, w). split; [reflexivity | exact Hin].
    + destruct (synthesize_results_fields B results s Hs) as (d & Hd & _).
      exists d. exact Hd.
Qed.

(** X2: a synthesis has exactly five keys; its recommendation is one of
    PROCEED, CAUTION and REJECT, and its next step is the feasibility study
    exactly when the recommendation is PROCEED. *)
Theorem synthesize_results_shape
    (F : Type) (PF : PyFloat F) (B : builtins F)
    (results d : gmap string (pyval F)) :
  synthesize_results B results = Ok d →
  dom d = {[ "overall_confidence"; "recommendation"; "key_factors"; "risks";
             "next_steps" ]}
  ∧ ∃ rec : string,
      d !! "recommendation" = Some (VStr rec)
      ∧ (rec = "PROCEED" ∨ rec = "CAUTION" ∨ rec = "REJECT")
      ∧ d !! "next_steps"
        = Some (VStr (if bool_decide (rec = "PROCEED")
                      then "Proceed to feasibility study"
                      else "Further analysis required")).
Proof.
  intros Hd. destruct (synthesize_results_inv B results d Hd) as (x & _ & ->).
  split.
  - rewrite !dom_insert_L, dom_empty_L. set_solver.
  - exists (recommend x). split; [| split].
    + rewrite lookup_insert_ne by done. apply lookup_insert_eq.
    + apply recommend_cases.
    + rewrite !(lookup_insert_ne _ _ "next_steps") by done. apply lookup_insert_eq.
Qed.

(** ** The range of the overall confidence, on binary64 *)

Module B64RangeFacts.
Import B64Order.

Lemma clamp_uval x :
  valid_binary x = true → nonneg x → clamp (uval x) = uval x.
Proof.
  intros Hv Hx. unfold clamp.
  destruct x as [s | s | | s m e]; cbn [nonneg] in Hx; try contradiction.
  - apply B64OrderFacts.clamp_0.
  - cbn [uval]. rewrite B64OrderFacts.RNq_TOP. lia.
  - rewrite (B64OrderFacts.RNq_valid s m e Hv).
    pose proof (B64OrderFacts.uval_finite_lt_TOP s m e Hv). lia.
Qed.

(** Adding a non-negative double does not lower a non-negative double. *)
Lemma fadd_ge_l (a t : float) :
  fnonneg a → fnonneg t → fnonneg (a + t) ∧ fval a <= fval (a + t).
Proof.
  unfold fnonneg, fval. intros Ha Ht.
  pose proof (Prim2SF_valid a) as Hva. pose proof (Prim2SF_valid t) as Hvt.
  rewrite add_spec. unfold SF64add.
  destruct (B64OrderFacts.add_value (Prim2SF a) (Prim2SF t) Hva Hvt Ha Ht) as [Hn Hu].
  split; [exact Hn |]. rewrite Hu.
  assert (H0 : addR (uval (Prim2SF a)) 0 = uval (Prim2SF a)).
  { unfold addR. rewrite Z.add_0_r. apply (clamp_uval _ Hva Ha). }
  rewrite <- H0 at 1.
  apply B64OrderFacts.addR_mono; try lia; apply B64OrderFacts.uval_nonneg.
Qed.

Lemma one_fnonneg : fnonneg 1.
Proof. vm_compute. reflexivity. Qed.

Section Bound.
Variable B : builtins float.
Variable results : gmap string (pyval float).
Variable names : list string.
Hypothesis in_unit :
  ∀ n c, n ∈ names → confidence_is B results n c →
         PrimFloat.leb 0 c = true ∧ PrimFloat.leb c 1 = true.

(** The loop stays below the same loop with every confidence at [1.0]. *)
Lemma accumulate_upper (ws : list (string * float)) :
  Forall (λ p : string * float,
            p.1 ∈ names ∧ ∃ m e, Prim2SF p.2 = S754_finite false m e) ws →
  ∀ acc acc' s,
    fnonneg acc → fnonneg acc' → fval acc <= fval acc' →
    accumulate B results ws acc = Ok s →
    fnonneg s
    ∧ fval s <= fval (fold_left (λ a (p : string * float), a + 1 * p.2)%float ws acc').
Proof.
  induction 1 as [| [agent w] ws [Hin (mw & ew & Hw)] _ IH];
    intros acc acc' s Ha Ha' Hacc Hrun.
  - injection Hrun as <-. split; assumption.
  - cbn [fst snd] in Hin, Hw. cbn [fold_left snd].
    destruct (B64OrderFacts.fma_mono acc' acc' 1 1 w mw ew Hw Ha' Ha'
                one_fnonneg one_fnonneg (Z.le_refl _) (Z.le_refl _)) as (Hn1 & _ & _).
    destruct (accumulate_head B results results agent w ws acc acc eq_refl)
      as [[Hskip _] | [(c & Hc & _) | (e & He)]].
    + rewrite Hskip in Hrun. apply (IH acc _ s Ha Hn1); [| exact Hrun].
      assert (Hp : fnonneg (1 * w)).
      { unfold fnonneg. rewrite mul_spec. unfold SF64mul. rewrite Hw.
        apply (B64OrderFacts.mul_mono (Prim2SF 1) (Prim2SF 1) mw ew);
          try apply Prim2SF_valid; try exact one_fnonneg; try lia.
        rewrite <- Hw. apply Prim2SF_valid. }
      pose proof (fadd_ge_l acc' (1 * w) Ha' Hp) as [_ Hge]. lia.
    + rewrite (accumulate_step B results agent w ws acc c Hc) in Hrun.
      destruct (in_unit agent c Hin Hc) as [Hc0 Hc1].
      pose proof (B64OrderFacts.zero_leb_fnonneg c Hc0) as Hcn.
      pose proof (proj1 (B64OrderFacts.leb_fval c 1 Hcn one_fnonneg) Hc1) as Hle.
      destruct (B64OrderFacts.fma_mono acc acc' c 1 w mw ew Hw Ha Ha'
                  Hcn one_fnonneg Hacc Hle) as (Hn & Hn' & Hle').
      exact (IH _ _ s Hn Hn' Hle' Hrun).
    + rewrite He in Hrun. discriminate Hrun.
Qed.

End Bound.

Lemma weights_sum_one :
  fold_left (λ a (p : string * float), a + 1 * p.2)%float (weights float) (flit 0 1)
  = 1%float.
Proof. vm_compute. reflexivity. Qed.

Lemma round_one : B64.round 1 2 = 1%float.
Proof. vm_compute. reflexivity. Qed.

End B64RangeFacts.

(** X4: on binary64, when every confidence read for the weight table lies
    in [0, 1], so do the weighted sum and the two-decimal value that
    [synthesize_results] returns: the six weights add up to exactly
    [1.0]. *)
Theorem overall_confidence_in_unit_interval
    (B : builtins float) (results : gmap string (pyval float)) (s : float) :
  (∀ n c, n ∈ (weights float).*1 → confidence_is B results n c →
          PrimFloat.leb 0 c = true ∧ PrimFloat.leb c 1 = true) →
  overall_confidence B results = Ok s →
  PrimFloat.leb 0 s = true ∧ PrimFloat.leb s 1 = true
  ∧ PrimFloat.leb 0 (fround s 2) = true ∧ PrimFloat.leb (fround s 2) 1 = true
  ∧ ∃ d, synthesize_results B results = Ok d
         ∧ d !! "overall_confidence" = Some (VFloat (fround s 2)).
Proof.
  intros Hunit Hs.
  destruct (B64RangeFacts.accumulate_upper B results ((weights float).*1) Hunit
              (weights float) FloatFacts.weights_positive
              (flit 0 1) (flit 0 1) s
              FloatFacts.flit_0_fnonneg FloatFacts.flit_0_fnonneg (Z.le_refl _) Hs)
    as [Hn Hle].
  rewrite B64RangeFacts.weights_sum_one in Hle.
  pose proof (proj2 (B64OrderFacts.leb_fval s 1 Hn B64RangeFacts.one_fnonneg) Hle) as Hs1.
  destruct (B64OrderFacts.round_fval s 2 Hn) as [Hrn _].
  split; [apply B64OrderFacts.fnonneg_zero_leb, Hn |].
  split; [exact Hs1 |].
  split; [apply B64OrderFacts.fnonneg_zero_leb, Hrn |].
  split.
  - rewrite <- B64RangeFacts.round_one.
    apply B64OrderFacts.round_mono; [exact Hn | exact B64RangeFacts.one_fnonneg | exact Hs1].
  - destruct (synthesize_results_fields B results s Hs) as (d & Hd & Hf & _).
    exists d. split; assumption.
Qed.

Lemma synthesize_results_risks_witness :
  ((∃ patent, partial_results !! "patent_analysis" = Some (VDict patent)
              ∧ patent !! "fto_status" = Some (VStr "Risk"))
   ∧ partial_synthesis !! "risks"
     = Some (VList [ VStr "Patent infringement risk detected" ]))
  ∨ (¬ (∃ patent, partial_results !! "patent_analysis" = Some (VDict patent)
                  ∧ patent !! "fto_status" = Some (VStr "Risk"))
     ∧ partial_synthesis !! "risks"
       = Some (VList [ VStr "No major risks identified" ])).
Proof.
  apply (synthesize_results_risks float binary64 no_builtins partial_results
           partial_synthesis).
  vm_compute. reflexivity.
Defined.

Lemma synthesize_results_shape_witness :
  dom partial_synthesis
  = {[ "overall_confidence"; "recommendation"; "key_factors"; "risks"; "next_steps" ]}
  ∧ ∃ rec : string,
      partial_synthesis !! "recommendation" = Some (VStr rec)
      ∧ (rec = "PROCEED" ∨ rec = "CAUTION" ∨ rec = "REJECT")
      ∧ partial_synthesis !! "next_steps"
        = Some (VStr (if bool_decide (rec = "PROCEED")
                      then "Proceed to feasibility study"
                      else "Further analysis required")).
Proof.
  apply (synthesize_results_shape float binary64 no_builtins partial_results
           partial_synthesis).
  vm_compute. reflexivity.
Defined.

Lemma overall_confidence_in_unit_interval_witness :
  PrimFloat.leb 0 0x1.dc28f5c28f5c2p-2 = true
  ∧ PrimFloat.leb 0x1.dc28f5c28f5c2p-2 1 = true
  ∧ PrimFloat.leb 0 (fround 0x1.dc28f5c28f5c2p-2%float 2) = true
  ∧ PrimFloat.leb (fround 0x1.dc28f5c28f5c2p-2%float 2) 1 = true
  ∧ ∃ d, synthesize_results no_builtins partial_results = Ok d
         ∧ d !! "overall_confidence"
           = Some (VFloat (fround 0x1.dc28f5c28f5c2p-2%float 2)).
Proof.
  apply (overall_confidence_in_unit_interval no_builtins partial_results).
  - intros n c Hin Hc. apply confidence_is_lookup in Hc.
    rewrite weights_names in Hin. apply list_elem_of_In in Hin. cbn [In] in Hin.
    destruct Hin as [<- | [<- | [<- | [<- | [<- | [<- | []]]]]]];
      vm_compute in Hc; injection Hc as <-; split; vm_compute; reflexivity.
  - vm_compute. reflexivity.
Defined.

(** ** The dispatcher *)

Section FinalProgressFacts.
Context {F : Type} `{PyFloat F}.
Variable analyze : agent_class → string → string → call F.
Variable self : MasterAgent.
Variables molecule_name disease_name : string.

#[local] Abbreviation exec1 := (exec analyze self molecule_name disease_name).
#[local] Abbreviation run1 := (run analyze self molecule_name disease_name).
#[local] Abbreviation final := (final_status analyze molecule_name disease_name).
#[local] Abbreviation stamp1 := (stamp analyze molecule_name disease_name).
#[local] Abbreviation tracks1 := (tracks analyze molecule_name disease_name self).

Lemma task_status_final agent :
  task_status analyze molecule_name disease_name agent = final agent.
Proof.
  unfold task_status, final_status, analyze_async, await, run_in_executor, settle.
  destruct agent;
    destruct (outcome (analyze _ molecule_name disease_name)) as [v | e];
    try reflexivity; destruct (is_timeout e); reflexivity.
Qed.

Lemma launch_lookup (σ : store) name :
  tasks (launch (F := F) σ) !! name = (λ _, Scheduled) <$> agent_of name.
Proof.
  unfold launch, agent_of. cbn [tasks].
  change (λ p : string * agent_class, (p.1, Scheduled))
    with (prod_map (@id string) (λ _ : agent_class, @Scheduled F)).
  rewrite list_to_map_fmap, lookup_fmap. reflexivity.
Qed.

Lemma launch_tracks (σ : store) : tracks1 σ (launch σ).
Proof.
  unfold tracks. cbn [heap]. split; [reflexivity |]. split; [reflexivity |]. split.
  - intros name. rewrite launch_lookup. destruct (agent_of name); reflexivity.
  - intros name. rewrite launch_lookup. destruct (agent_of name); split; done.
Qed.

Lemma deref_set_progress name st (σ : store) :
  deref (set_progress self name st σ) (progress self)
  = if decide (is_Some (σ !! progress self))
    then <[name := st]> (deref σ (progress self))
    else ∅.
Proof.
  unfold deref, set_progress. rewrite lookup_alter_eq.
  destruct (σ !! progress self) as [d |] eqn:Hd.
  - rewrite decide_True by (eexists; reflexivity). reflexivity.
  - rewrite decide_False by (intros [? [=]]). reflexivity.
Qed.

Lemma exec_tracks (σ0 : store) ev s s' :
  is_Some (σ0 !! progress self) →
  exec1 ev s = Some s' → tracks1 σ0 s → tracks1 σ0 s'.
Proof.
  intros Hsome Hex (Hframe & Hpresent & Hstamp & Hdom).
  assert (Hhere : is_Some (heap s !! progress self)) by (apply Hpresent, Hsome).
  destruct ev as [name | name].
  - apply exec_Start in Hex as [Ht ->]. unfold tracks. cbn [heap tasks].
    split; [| split; [| split]].
    + intros l Hl. unfold set_progress. rewrite lookup_alter_ne by done. apply Hframe, Hl.
    + unfold set_progress. rewrite lookup_alter_eq, <- Hpresent.
      destruct (heap s !! progress self); split; intros [? ?]; try done; eexists; reflexivity.
    + intros name'. rewrite deref_set_progress, decide_True by exact Hhere.
      destruct (decide (name' = name)) as [-> | Hne].
      * rewrite !lookup_insert_eq. reflexivity.
      * rewrite !lookup_insert_ne by done. apply Hstamp.
    + intros name'. destruct (decide (name' = name)) as [-> | Hne].
      * rewrite lookup_insert_eq. rewrite <- Hdom, Ht. split; discriminate.
      * rewrite lookup_insert_ne by done. apply Hdom.
  - apply exec_Settle in Hex as (agent & Ht & Ha & ->). unfold tracks. cbn [heap tasks].
    split; [| split; [| split]].
    + intros l Hl. unfold set_progress. rewrite lookup_alter_ne by done. apply Hframe, Hl.
    + unfold set_progress. rewrite lookup_alter_eq, <- Hpresent.
      destruct (heap s !! progress self); split; intros [? ?]; try done; eexists; reflexivity.
    + intros name'. rewrite deref_set_progress, decide_True by exact Hhere.
      destruct (decide (name' = name)) as [-> | Hne].
      * rewrite !lookup_insert_eq. cbn [stamp]. rewrite Ha, task_status_final. reflexivity.
      * rewrite !lookup_insert_ne by done. apply Hstamp.
    + intros name'. destruct (decide (name' = name)) as [-> | Hne].
      * rewrite lookup_insert_eq. rewrite <- Hdom, Ht. split; discriminate.
      * rewrite lookup_insert_ne by done. apply Hdom.
Qed.

Lemma run_tracks (σ0 : store) schedule :
  is_Some (σ0 !! progress self) →
  ∀ s s', run1 schedule s = Some s' → tracks1 σ0 s → tracks1 σ0 s'.
Proof.
  intros Hsome. induction schedule as [| ev rest IH]; intros s s' Hrun Ht.
  - injection Hrun as <-. exact Ht.
  - cbn [run] in Hrun. destruct (exec1 ev s) as [s1 |] eqn:Hex; [| discriminate].
    exact (IH s1 s' Hrun (exec_tracks σ0 ev s s1 Hsome Hex Ht)).
Qed.

(** Without a progress dictionary at [self.progress] nothing is written. *)
Lemma exec_heap_absent ev s s' :
  heap s !! progress self = None → exec1 ev s = Some s' → heap s' = heap s.
Proof.
  intros Hnone Hex. destruct ev as [name | name].
  - apply exec_Start in Hex as [_ ->]. cbn [heap]. unfold set_progress.
    apply map_eq. intros l. destruct (decide (l = progress self)) as [-> | Hl].
    + rewrite lookup_alter_eq, Hnone. reflexivity.
    + rewrite lookup_alter_ne by done. reflexivity.
  - apply exec_Settle in Hex as (agent & _ & _ & ->). cbn [heap]. unfold set_progress.
    apply map_eq. intros l. destruct (decide (l = progress self)) as [-> | Hl].
    + rewrite lookup_alter_eq, Hnone. reflexivity.
    + rewrite lookup_alter_ne by done. reflexivity.
Qed.

Lemma run_heap_absent schedule :
  ∀ s s', heap s !! progress self = None → run1 schedule s = Some s' → heap s' = heap s.
Proof.
  induction schedule as [| ev rest IH]; intros s s' Hnone Hrun.
  - injection Hrun as <-. reflexivity.
  - cbn [run] in Hrun. destruct (exec1 ev s) as [s1 |] eqn:Hex; [| discriminate].
    pose proof (exec_heap_absent ev s s1 Hnone Hex) as Hh.
    rewrite <- Hh. apply (IH s1 s'); [rewrite Hh; exact Hnone | exact Hrun].
Qed.

(** Once [gather] has its six results, every task of [self.agents] is
    finished. *)
Lemma gather_finished (s : state F) rl name agent :
  gather s = Some rl → agent_of name = Some agent →
  ∃ r, tasks s !! name = Some (Finished r).
Proof.
  unfold gather. intros Hg Ha. apply mapM_Some in Hg.
  assert (Hin : (name, agent) ∈ agents).
  { unfold agent_of in Ha. apply elem_of_list_to_map_2 in Ha. exact Ha. }
  apply list_elem_of_lookup in Hin as [i Hi].
  destruct (Forall2_lookup_l _ _ _ i _ Hg Hi) as (r & _ & Hr). cbn [fst] in Hr.
  destruct (tasks s !! name) as [[ | | r'] |]; try discriminate. eexists. reflexivity.
Qed.

(** The progress map at the end of a run. *)
Lemma final_progress (σ0 : store) schedule (s : state F) rl name :
  is_Some (σ0 !! progress self) →
  run1 schedule (launch σ0) = Some s → gather s = Some rl →
  deref (heap s) (progress self) !! name
  = match agent_of name with
    | Some agent => Some (final agent)
    | None => deref σ0 (progress self) !! name
    end.
Proof.
  intros Hsome Hrun Hg.
  destruct (run_tracks σ0 schedule Hsome _ _ Hrun (launch_tracks σ0))
    as (_ & _ & Hstamp & Hdom).
  rewrite Hstamp. destruct (agent_of name) as [agent |] eqn:Ha.
  - destruct (gather_finished s rl name agent Hg Ha) as [r ->]. cbn [stamp].
    rewrite Ha. reflexivity.
  - rewrite (proj2 (Hdom name) Ha). reflexivity.
Qed.

Lemma final_store_unique (σ0 : store) schedule schedule' (s s' : state F) rl rl' :
  run1 schedule (launch σ0) = Some s → gather s = Some rl →
  run1 schedule' (launch σ0) = Some s' → gather s' = Some rl' →
  heap s = heap s'.
Proof.
  intros Hrun Hg Hrun' Hg'.
  destruct (σ0 !! progress self) as [d0 |] eqn:Hd0.
  - assert (Hsome : is_Some (σ0 !! progress self)) by (rewrite Hd0; eexists; reflexivity).
    destruct (run_tracks σ0 schedule Hsome _ _ Hrun (launch_tracks σ0))
      as (Hframe & Hpresent & _ & _).
    destruct (run_tracks σ0 schedule' Hsome _ _ Hrun' (launch_tracks σ0))
      as (Hframe' & Hpresent' & _ & _).
    apply map_eq. intros l. destruct (decide (l = progress self)) as [-> | Hl].
    + destruct (proj2 Hpresent Hsome) as [d Hd].
      destruct (proj2 Hpresent' Hsome) as [d' Hd'].
      assert (Ed : deref (heap s) (progress self) = d)
        by (unfold deref; rewrite Hd; reflexivity).
      assert (Ed' : deref (heap s') (progress self) = d')
        by (unfold deref; rewrite Hd'; reflexivity).
      rewrite Hd, Hd'. f_equal. apply map_eq. intros name.
      rewrite <- Ed, <- Ed'.
      rewrite (final_progress σ0 schedule s rl name Hsome Hrun Hg).
      rewrite (final_progress σ0 schedule' s' rl' name Hsome Hrun' Hg').
      reflexivity.
    + rewrite (Hframe l Hl), (Hframe' l Hl). reflexivity.
  - rewrite (run_heap_absent schedule (launch σ0) s Hd0 Hrun).
    rewrite (run_heap_absent schedule' (launch σ0) s' Hd0 Hrun'). reflexivity.
Qed.

End FinalProgressFacts.

Lemma agent_of_elem name agent : (name, agent) ∈ agents → agent_of name = Some agent.
Proof.
  intros Hin. apply list_elem_of_In in Hin. cbn in Hin.
  destruct Hin as [[= <- <-] | [[= <- <-] | [[= <- <-] | [[= <- <-] |
                  [[= <- <-] | [[= <- <-] | []]]]]]];
    reflexivity.
Qed.

Lemma agent_of_None name : name ∉ agents.*1 → agent_of name = None.
Proof. intros Hn. unfold agent_of. apply not_elem_of_list_to_map_1. exact Hn. Qed.

Section RunExtras.
Context {F : Type} `{PyFloat F}.
Variable B : builtins F.
Variable analyze : agent_class → string → string → call F.
Variable generate_report :
  string → string → gmap string (pyval F) → result exn string.
Variable timestamp : string.
Variable self : MasterAgent.
Variables molecule_name disease_name : string.

#[local] Abbreviation run_of :=
  (analyze_repurposing_async B analyze generate_report timestamp self
     molecule_name disease_name).

Lemma run_of_inv schedule (σ σ' : store) out :
  run_of schedule σ = Some (σ', out) →
  ∃ s rl, run analyze self molecule_name disease_name schedule (launch σ) = Some s
          ∧ gather s = Some rl ∧ σ' = heap s.
Proof.
  unfold analyze_repurposing_async. intros Hrun.
  destruct (run analyze self molecule_name disease_name schedule (launch σ))
    as [s |] eqn:Hs; [| discriminate].
  cbn [mbind option_bind] in Hrun.
  destruct (gather s) as [rl |] eqn:Hg; [| discriminate].
  cbn [mbind option_bind] in Hrun. injection Hrun as <- _.
  exists s, rl. repeat split; assumption.
Qed.

Lemma run_of_settle_reversed (σ : store) :
  ∃ σ' out, run_of settle_reversed σ = Some (σ', out).
Proof. eexists _, _. reflexivity. Qed.

End RunExtras.

(** X5: the outcome of a run does not depend on the order in which the
    event loop resumes the six tasks: two runs from the same store, over
    any two complete schedules, end in the same store and return (or raise)
    the same. *)
Theorem run_independent_of_schedule
    (F : Type) (PF : PyFloat F) (B : builtins F)
    (analyze : agent_class → string → string → call F)
    (generate_report : string → string → gmap string (pyval F) → result exn string)
    (timestamp : string) (self : MasterAgent) (molecule_name disease_name : string)
    (schedule schedule' : list event) (σ σ1 σ2 : store)
    (out1 out2 : result run_error (gmap string (pyval F))) :
  analyze_repurposing_async B analyze generate_report timestamp self
    molecule_name disease_name schedule σ = Some (σ1, out1) →
  analyze_repurposing_async B analyze generate_report timestamp self
    molecule_name disease_name schedule' σ = Some (σ2, out2) →
  σ1 = σ2 ∧ out1 = out2.
Proof.
  intros H1 H2. split.
  - destruct (run_of_inv _ _ _ _ _ _ _ _ _ _ _ H1) as (s & rl & Hs & Hg & ->).
    destruct (run_of_inv _ _ _ _ _ _ _ _ _ _ _ H2) as (s' & rl' & Hs' & Hg' & ->).
    exact (final_store_unique analyze self molecule_name disease_name σ
             schedule schedule' s s' rl rl' Hs Hg Hs' Hg').
  - rewrite (run_with_assembles _ _ _ _ _ _ _ _ _ _ _ H1).
    rewrite (run_with_assembles _ _ _ _ _ _ _ _ _ _ _ H2). reflexivity.
Qed.

Lemma run_independent_of_schedule_witness :
  ∃ σ1 out1 σ2 out2,
    analyze_repurposing_async no_builtins sample_analyze report_written
      "2024-01-01T00:00:00Z" (init ∅).1 "aspirin" "flu" in_order (init ∅).2
    = Some (σ1, out1)
    ∧ analyze_repurposing_async no_builtins sample_analyze report_written
        "2024-01-01T00:00:00Z" (init ∅).1 "aspirin" "flu" settle_reversed (init ∅).2
      = Some (σ2, out2)
    ∧ σ1 = σ2 ∧ out1 = out2.
Proof.
  destruct (run_with_in_order no_builtins sample_analyze report_written
              "2024-01-01T00:00:00Z" (init ∅).1 "aspirin" "flu" (init ∅).2)
    as (σ1 & out1 & H1).
  destruct (run_of_settle_reversed no_builtins sample_analyze report_written
              "2024-01-01T00:00:00Z" (init ∅).1 "aspirin" "flu" (init ∅).2)
    as (σ2 & out2 & H2).
  exists σ1, out1, σ2, out2. split; [exact H1 |]. split; [exact H2 |].
  exact (run_independent_of_schedule _ _ _ _ _ _ _ _ _ _ _ _ _ _ _ _ H1 H2).
Defined.

(** X6: at the end of a run the progress entry of each agent is [Complete]
    when its call returned, whatever it returned, and [Failed] when it
    raised; the other entries of the progress dictionary and the rest of
    the store are as they were. *)
Theorem final_progress_by_outcome
    (F : Type) (PF : PyFloat F) (B : builtins F)
    (analyze : agent_class → string → string → call F)
    (generate_report : string → string → gmap string (pyval F) → result exn string)
    (timestamp : string) (self : MasterAgent) (molecule_name disease_name : string)
    (schedule : list event) (σ σ' : store)
    (out : result run_error (gmap string (pyval F))) :
  is_Some (σ !! progress self) →
  analyze_repurposing_async B analyze generate_report timestamp self
    molecule_name disease_name schedule σ = Some (σ', out) →
  (∀ name agent, (name, agent) ∈ agents →
     deref σ' (get_analysis_progress self) !! name
     = Some (match outcome (analyze agent molecule_name disease_name) with
             | Ok _ => Complete
             | Raise _ => Failed
             end))
  ∧ (∀ name, name ∉ agents.*1 →
       deref σ' (get_analysis_progress self) !! name
       = deref σ (get_analysis_progress self) !! name)
  ∧ (∀ l, l ≠ progress self → σ' !! l = σ !! l).
Proof.
  intros Hsome Hrun.
  destruct (run_of_inv _ _ _ _ _ _ _ _ _ _ _ Hrun) as (s & rl & Hs & Hg & ->).
  unfold get_analysis_progress. split; [| split].
  - intros name agent Hin.
    rewrite (final_progress analyze self molecule_name disease_name σ schedule s rl
               name Hsome Hs Hg).
    rewrite (agent_of_elem name agent Hin). reflexivity.
  - intros name Hn.
    rewrite (final_progress analyze self molecule_name disease_name σ schedule s rl
               name Hsome Hs Hg).
    rewrite (agent_of_None name Hn). reflexivity.
  - intros l Hl.
    destruct (run_tracks analyze self molecule_name disease_name σ schedule Hsome
                _ _ Hs (launch_tracks analyze self molecule_name disease_name σ))
      as (Hframe & _).
    exact (Hframe l Hl).
Qed.

Lemma init_is_Some (σ0 : store) : is_Some ((init σ0).2 !! progress (init σ0).1).
Proof. unfold init. cbn [fst snd progress]. rewrite lookup_insert_eq. eexists. reflexivity. Qed.

Lemma final_progress_by_outcome_witness :
  ∃ σ' out,
    sample_run report_written = Some (σ', out)
    ∧ (∀ name agent, (name, agent) ∈ agents →
         deref σ' (get_analysis_progress (init ∅).1) !! name
         = Some (match outcome (sample_analyze agent "aspirin" "flu") with
                 | Ok _ => Complete
                 | Raise _ => Failed
                 end))
    ∧ (∀ name, name ∉ agents.*1 →
         deref σ' (get_analysis_progress (init ∅).1) !! name
         = deref (init ∅).2 (get_analysis_progress (init ∅).1) !! name)
    ∧ (∀ l, l ≠ progress (init ∅).1 → σ' !! l = (init ∅).2 !! l).
Proof.
  destruct (run_with_in_order no_builtins sample_analyze report_written
              "2024-01-01T00:00:00Z" (init ∅).1 "aspirin" "flu" (init ∅).2)
    as (σ' & out & Hrun).
  exists σ', out. split; [exact Hrun |].
  exact (final_progress_by_outcome float binary64 no_builtins sample_analyze
           report_written "2024-01-01T00:00:00Z" (init ∅).1 "aspirin" "flu"
           in_order (init ∅).2 σ' out (init_is_Some ∅) Hrun).
Defined.

(** X7: nothing resets the progress map between runs: when a second run is
    launched on the same [MasterAgent], every entry still shows the
    terminal status of the first run, although its task has not started. *)
Theorem progress_is_stale_on_reuse
    (F : Type) (PF : PyFloat F) (B : builtins F)
    (analyze : agent_class → string → string → call F)
    (generate_report : string → string → gmap string (pyval F) → result exn string)
    (timestamp : string) (molecule_name disease_name : string)
    (schedule : list event) (σ0 σ' : store)
    (out : result run_error (gmap string (pyval F)))
    (name : string) (agent : agent_class) :
  let self := (init σ0).1 in
  analyze_repurposing_async B analyze generate_report timestamp self
    molecule_name disease_name schedule (init σ0).2 = Some (σ', out) →
  (name, agent) ∈ agents →
  let second : state F := launch σ' in
  tasks second !! name = Some Scheduled
  ∧ deref (heap second) (get_analysis_progress self) !! name ≠ Some Pending
  ∧ (deref (heap second) (get_analysis_progress self) !! name = Some Complete
     ∨ deref (heap second) (get_analysis_progress self) !! name = Some Failed).
Proof.
  intros self Hrun Hin second.
  destruct (final_progress_by_outcome F PF B analyze generate_report timestamp self
              molecule_name disease_name schedule (init σ0).2 σ' out
              (init_is_Some σ0) Hrun) as (Hfinal & _ & _).
  change (heap second) with σ'. rewrite (Hfinal name agent Hin).
  split; [| split].
  - subst second. rewrite launch_lookup, (agent_of_elem name agent Hin). reflexivity.
  - destruct (outcome _); discriminate.
  - destruct (outcome _); [left | right]; reflexivity.
Qed.

Lemma progress_is_stale_on_reuse_witness :
  ∃ σ' out,
    sample_run report_written = Some (σ', out)
    ∧ tasks (launch (F := float) σ') !! "patent_analysis" = Some Scheduled
    ∧ deref (heap (launch (F := float) σ')) (get_analysis_progress (init ∅).1)
        !! "patent_analysis" ≠ Some Pending
    ∧ (deref (heap (launch (F := float) σ')) (get_analysis_progress (init ∅).1)
         !! "patent_analysis" = Some Complete
       ∨ deref (heap (launch (F := float) σ')) (get_analysis_progress (init ∅).1)
           !! "patent_analysis" = Some Failed).
Proof.
  destruct (run_with_in_order no_builtins sample_analyze report_written
              "2024-01-01T00:00:00Z" (init ∅).1 "aspirin" "flu" (init ∅).2)
    as (σ' & out & Hrun).
  exists σ', out. split; [exact Hrun |].
  refine (progress_is_stale_on_reuse float binary64 no_builtins sample_analyze
            report_written "2024-01-01T00:00:00Z" "aspirin" "flu" in_order ∅ σ' out
            "patent_analysis" PatentAgent Hrun _).
  unfold agents. apply list_elem_of_here.
Defined.

(** ** The bundle *)

Section BundleFacts.
Context {F : Type} `{PyFloat F}.
Variable B : builtins F.
Variable analyze : agent_class → string → string → call F.
Variable generate_report :
  string → string → gmap string (pyval F) → result exn string.
Variable timestamp : string.
Variables molecule_name disease_name : string.

#[local] Abbreviation value1 := (task_value analyze molecule_name disease_name).

(** The dictionary [all_results] when the synthesizer is called. *)
Lemma assemble_inv out :
  assemble B generate_report timestamp molecule_name disease_name
    ((λ p : string * agent_class, Ok (value1 p.2)) <$> agents) = out →
  let all_results : gmap string (pyval F) :=
    <["timestamp" := VStr timestamp]>
    (<["disease" := VStr disease_name]>
    (<["molecule" := VStr molecule_name]>
    (<["internal_analysis" := value1 InternalKnowledgeAgent]>
    (<["exim_analysis" := value1 EXIMAgent]>
    (<["web_analysis" := value1 WebIntelligenceAgent]>
    (<["market_analysis" := value1 MarketAgent]>
    (<["clinical_analysis" := value1 ClinicalTrialsAgent]>
    (<["patent_analysis" := value1 PatentAgent]> ∅)))))))) in
  match out with
  | Ok bundle =>
      ∃ synthesis pdf_path,
        synthesize_results B all_results = Ok synthesis
        ∧ generate_report molecule_name disease_name
            (<["master_synthesis" := VDict synthesis]> all_results) = Ok pdf_path
        ∧ bundle = <["pdf_report" := VStr pdf_path]>
                     (<["master_synthesis" := VDict synthesis]> all_results)
  | Raise (SynthesisRaised e) => synthesize_results B all_results = Raise e
  | Raise (RendererRaised e) =>
      ∃ synthesis,
        synthesize_results B all_results = Ok synthesis
        ∧ generate_report molecule_name disease_name
            (<["master_synthesis" := VDict synthesis]> all_results) = Raise e
  end.
Proof.
  intros <- all_results. unfold assemble.
  change (build_results _) with
    (<["internal_analysis" := value1 InternalKnowledgeAgent]>
    (<["exim_analysis" := value1 EXIMAgent]>
    (<["web_analysis" := value1 WebIntelligenceAgent]>
    (<["market_analysis" := value1 MarketAgent]>
    (<["clinical_analysis" := value1 ClinicalTrialsAgent]>
    (<["patent_analysis" := value1 PatentAgent]> (∅ : gmap string (pyval F)))))))).
  fold all_results.
  destruct (synthesize_results B all_results) as [synthesis | pe] eqn:Hs; [| reflexivity].
  destruct (generate_report _ _ _) as [pdf_path | re] eqn:Hr.
  - exists synthesis, pdf_path. repeat split; assumption.
  - exists synthesis. split; [reflexivity | exact Hr].
Qed.

End BundleFacts.

(** X8: a bundle returned by a run has exactly eleven keys, the six agent
    names and ["molecule"], ["disease"], ["timestamp"], ["master_synthesis"]
    and ["pdf_report"]; the synthesis it carries was computed from the
    bundle without the last two keys, and the report path was returned by
    the renderer called on the bundle without ["pdf_report"]. *)
Theorem bundle_contents
    (F : Type) (PF : PyFloat F) (B : builtins F)
    (analyze : agent_class → string → string → call F)
    (generate_report : string → string → gmap string (pyval F) → result exn string)
    (timestamp : string) (self : MasterAgent) (molecule_name disease_name : string)
    (schedule : list event) (σ σ' : store) (bundle : gmap string (pyval F)) :
  analyze_repurposing_async B analyze generate_report timestamp self
    molecule_name disease_name schedule σ = Some (σ', Ok bundle) →
  dom bundle
  = list_to_set agents.*1
    ∪ {[ "molecule"; "disease"; "timestamp"; "master_synthesis"; "pdf_report" ]}
  ∧ bundle !! "molecule" = Some (VStr molecule_name)
  ∧ bundle !! "disease" = Some (VStr disease_name)
  ∧ bundle !! "timestamp" = Some (VStr timestamp)
  ∧ ∃ synthesis pdf_path,
      bundle !! "master_synthesis" = Some (VDict synthesis)
      ∧ synthesize_results B (delete "master_synthesis" (delete "pdf_report" bundle))
        = Ok synthesis
      ∧ bundle !! "pdf_report" = Some (VStr pdf_path)
      ∧ generate_report molecule_name disease_name (delete "pdf_report" bundle)
        = Ok pdf_path.
Proof.
  intros Hrun. apply run_with_assembles in Hrun. symmetry in Hrun.
  apply assemble_inv in Hrun. cbv zeta in Hrun.
  destruct Hrun as (synthesis & pdf_path & Hs & Hr & ->).
  split; [| split; [| split; [| split]]].
  - rewrite !dom_insert_L, dom_empty_L. unfold agents. cbn. set_solver.
  - rewrite !(lookup_insert_ne _ _ "molecule") by done. apply lookup_insert_eq.
  - rewrite !(lookup_insert_ne _ _ "disease") by done. apply lookup_insert_eq.
  - rewrite !(lookup_insert_ne _ _ "timestamp") by done. apply lookup_insert_eq.
  - exists synthesis, pdf_path.
    rewrite (delete_insert_id _ "pdf_report")
      by (rewrite !lookup_insert_ne by done; apply lookup_empty).
    rewrite (delete_insert_id _ "master_synthesis")
      by (rewrite !lookup_insert_ne by done; apply lookup_empty).
    split; [| split; [exact Hs | split; [| exact Hr]]].
    + rewrite lookup_insert_ne by done. apply lookup_insert_eq.
    + apply lookup_insert_eq.
Qed.

Lemma sample_run_returns :
  sample_run report_written = Some (sample_store, Ok sample_bundle).
Proof. vm_cast_no_check (eq_refl (sample_run report_written)). Qed.

Lemma bundle_contents_witness :
  dom sample_bundle
  = list_to_set agents.*1
    ∪ {[ "molecule"; "disease"; "timestamp"; "master_synthesis"; "pdf_report" ]}
  ∧ sample_bundle !! "molecule" = Some (VStr "aspirin")
  ∧ sample_bundle !! "disease" = Some (VStr "flu")
  ∧ sample_bundle !! "timestamp" = Some (VStr "2024-01-01T00:00:00Z")
  ∧ ∃ synthesis pdf_path,
      sample_bundle !! "master_synthesis" = Some (VDict synthesis)
      ∧ synthesize_results no_builtins
          (delete "master_synthesis" (delete "pdf_report" sample_bundle)) = Ok synthesis
      ∧ sample_bundle !! "pdf_report" = Some (VStr pdf_path)
      ∧ report_written "aspirin" "flu" (delete "pdf_report" sample_bundle) = Ok pdf_path.
Proof.
  exact (bundle_contents float binary64 no_builtins sample_analyze report_written
           "2024-01-01T00:00:00Z" (init ∅).1 "aspirin" "flu" in_order (init ∅).2
           sample_store sample_bundle sample_run_returns).
Defined.

(** ** What a run hands to the synthesizer and to the renderer *)

(** The value of a task, read off the call of its provider. *)
Lemma task_value_outcome {F : Type} `{PyFloat F}
    (analyze : agent_class → string → string → call F)
    (molecule_name disease_name : string) (agent : agent_class) :
  task_value analyze molecule_name disease_name agent
  = match outcome (analyze agent molecule_name disease_name) with
    | Ok result => result
    | Raise e =>
        VDict (<["error" := VStr (if is_timeout e then "Timeout" else exn_str e)]>
               (<["confidence" := VFloat (flit 0 1)]> ∅))
    end.
Proof.
  unfold task_value, analyze_async, await, run_in_executor.
  destruct agent; destruct (outcome _) as [result | e]; cbn [settle];
    try reflexivity; destruct (is_timeout e); reflexivity.
Qed.

(** C3: for every order in which the tasks are resumed, the run goes on
    to the synthesizer and the renderer with a dictionary in which each
    agent whose call raised [e] has the entry
    [{"error": str(e), "confidence": 0.0}] (["Timeout"] for a timeout) and
    every other agent has the dictionary its own call returned.  The
    outcome of the run is what the synthesizer and the renderer make of
    this dictionary: an exception of a provider never reaches the caller,
    and a bundle that is returned has these six entries. *)
Theorem C3_task_exception_is_isolated
    (F : Type) (PF : PyFloat F) (B : builtins F)
    (analyze : agent_class → string → string → call F)
    (generate_report : string → string → gmap string (pyval F) → result exn string)
    (timestamp : string) (self : MasterAgent)
    (molecule_name disease_name : string) (σ : store) :
  let run_with :=
    analyze_repurposing_async B analyze generate_report timestamp self
      molecule_name disease_name in
  let entry_of (agent : agent_class) : pyval F :=
    match outcome (analyze agent molecule_name disease_name) with
    | Ok result => result
    | Raise e =>
        VDict (<["error" := VStr (if is_timeout e then "Timeout" else exn_str e)]>
               (<["confidence" := VFloat (flit 0 1)]> ∅))
    end in
  let all_results : gmap string (pyval F) :=
    <["timestamp" := VStr timestamp]>
    (<["disease" := VStr disease_name]>
    (<["molecule" := VStr molecule_name]>
    (<["internal_analysis" := entry_of InternalKnowledgeAgent]>
    (<["exim_analysis" := entry_of EXIMAgent]>
    (<["web_analysis" := entry_of WebIntelligenceAgent]>
    (<["market_analysis" := entry_of MarketAgent]>
    (<["clinical_analysis" := entry_of ClinicalTrialsAgent]>
    (<["patent_analysis" := entry_of PatentAgent]> ∅)))))))) in
  (∃ σ' out, run_with in_order σ = Some (σ', out))
  ∧ ∀ schedule σ' out,
      run_with schedule σ = Some (σ', out) →
      out = match synthesize_results B all_results with
            | Raise pe => Raise (SynthesisRaised pe)
            | Ok synthesis =>
                match generate_report molecule_name disease_name
                        (<["master_synthesis" := VDict synthesis]> all_results) with
                | Raise re => Raise (RendererRaised re)
                | Ok pdf_path =>
                    Ok (<["pdf_report" := VStr pdf_path]>
                        (<["master_synthesis" := VDict synthesis]> all_results))
                end
            end
      ∧ ∀ bundle, out = Ok bundle →
          ∀ name agent, (name, agent) ∈ agents → bundle !! name = Some (entry_of agent).
Proof.
  cbv zeta. split; [apply run_with_in_order |].
  intros schedule σ' out Hrun.
  pose proof (run_with_assembles B analyze generate_report timestamp self
                molecule_name disease_name schedule σ σ' out Hrun) as Hout.
  split.
  - symmetry in Hout. apply assemble_inv in Hout. cbv zeta in Hout.
    rewrite !task_value_outcome in Hout.
    destruct out as [bundle | [pe | re]].
    + destruct Hout as (synthesis & pdf_path & Hs & Hr & ->). rewrite Hs, Hr. reflexivity.
    + rewrite Hout. reflexivity.
    + destruct Hout as (synthesis & Hs & Hr). rewrite Hs, Hr. reflexivity.
  - intros bundle Hb name agent Hin. rewrite Hb in Hout. symmetry in Hout.
    rewrite <- task_value_outcome.
    exact (assemble_bundle B analyze generate_report timestamp
             molecule_name disease_name name agent bundle Hin Hout).
Qed.

(** C9, as the code has it: when the renderer is reached and raises on
    the dictionary it is given, which holds the six results and the
    synthesis, [analyze_repurposing_async] raises that same exception and
    returns no bundle. *)
Theorem C9_renderer_failure_ends_the_run
    (F : Type) (PF : PyFloat F) (B : builtins F)
    (analyze : agent_class → string → string → call F)
    (generate_report : string → string → gmap string (pyval F) → result exn string)
    (timestamp : string) (self : MasterAgent)
    (molecule_name disease_name : string)
    (schedule : list event) (σ σ' : store)
    (out : result run_error (gmap string (pyval F)))
    (synthesis : gmap string (pyval F)) (e : exn) :
  let entry_of (agent : agent_class) : pyval F :=
    match outcome (analyze agent molecule_name disease_name) with
    | Ok result => result
    | Raise e =>
        VDict (<["error" := VStr (if is_timeout e then "Timeout" else exn_str e)]>
               (<["confidence" := VFloat (flit 0 1)]> ∅))
    end in
  let all_results : gmap string (pyval F) :=
    <["timestamp" := VStr timestamp]>
    (<["disease" := VStr disease_name]>
    (<["molecule" := VStr molecule_name]>
    (<["internal_analysis" := entry_of InternalKnowledgeAgent]>
    (<["exim_analysis" := entry_of EXIMAgent]>
    (<["web_analysis" := entry_of WebIntelligenceAgent]>
    (<["market_analysis" := entry_of MarketAgent]>
    (<["clinical_analysis" := entry_of ClinicalTrialsAgent]>
    (<["patent_analysis" := entry_of PatentAgent]> ∅)))))))) in
  analyze_repurposing_async B analyze generate_report timestamp self
    molecule_name disease_name schedule σ = Some (σ', out) →
  synthesize_results B all_results = Ok synthesis →
  generate_report molecule_name disease_name
    (<["master_synthesis" := VDict synthesis]> all_results) = Raise e →
  out = Raise (RendererRaised e) ∧ ∀ bundle, out ≠ Ok bundle.
Proof.
  cbv zeta. intros Hrun Hs Hr.
  pose proof (run_with_assembles B analyze generate_report timestamp self
                molecule_name disease_name schedule σ σ' out Hrun) as Hout.
  symmetry in Hout. apply assemble_inv in Hout. cbv zeta in Hout.
  rewrite !task_value_outcome in Hout.
  destruct out as [bundle | [pe | re]].
  - destruct Hout as (synthesis' & pdf_path & Hs' & Hr' & _).
    rewrite Hs in Hs'. injection Hs' as <-. rewrite Hr in Hr'. discriminate.
  - rewrite Hs in Hout. discriminate.
  - destruct Hout as (synthesis' & Hs' & Hr').
    rewrite Hs in Hs'. injection Hs' as <-. rewrite Hr in Hr'. injection Hr' as <-.
    split; [reflexivity | discriminate].
Qed.

Lemma list_synthesis_returns :
  synthesize_results no_builtins list_results = Ok list_synthesis.
Proof. vm_compute. reflexivity. Qed.

Lemma list_report_fails :
  report_reads_patent "aspirin" "flu" (<["master_synthesis" := VDict list_synthesis]> list_results)
  = Raise no_get.
Proof. vm_compute. reflexivity. Qed.

Lemma C9_witness :
  ∃ σ' out,
    analyze_repurposing_async no_builtins list_analyze report_reads_patent
      "2024-01-01T00:00:00Z" (init ∅).1 "aspirin" "flu" in_order (init ∅).2
    = Some (σ', out)
    ∧ out = Raise (RendererRaised no_get)
    ∧ ∀ bundle, out ≠ Ok bundle.
Proof.
  destruct (run_with_in_order no_builtins list_analyze report_reads_patent
              "2024-01-01T00:00:00Z" (init ∅).1 "aspirin" "flu" (init ∅).2)
    as (σ' & out & Hrun).
  exists σ', out. split; [exact Hrun |].
  exact (C9_renderer_failure_ends_the_run float binary64 no_builtins list_analyze
           report_reads_patent "2024-01-01T00:00:00Z" (init ∅).1 "aspirin" "flu"
           in_order (init ∅).2 σ' out list_synthesis no_get Hrun
           list_synthesis_returns list_report_fails).
Defined.

Lemma task_value_raised {F : Type} `{PyFloat F}
    (analyze : agent_class → string → string → call F)
    (molecule_name disease_name : string) (agent : agent_class) (e : exn) :
  outcome (analyze agent molecule_name disease_name) = Raise e →
  task_value analyze molecule_name disease_name agent
  = degraded (if is_timeout e then "Timeout" else exn_str e).
Proof.
  intros He. unfold task_value, analyze_async, await, run_in_executor.
  destruct agent; rewrite He; cbn [settle]; destruct (is_timeout e); reflexivity.
Qed.

Lemma degraded_confidence {F : Type} `{PyFloat F} (B : builtins F)
    (results : gmap string (pyval F)) (name error : string) :
  results !! name = Some (degraded error) →
  confidence_is B results name (flit 0 1).
Proof.
  intros Hr. unfold degraded in Hr.
  apply (conf_present B results name _ (VFloat (flit 0 1)) (flit 0 1) Hr);
    [| reflexivity].
  rewrite lookup_insert_ne by done. apply lookup_insert_eq.
Qed.


Section DegradedFacts.
Context {F : Type} `{PyFloat F}.
Variable B : builtins F.

(** The fields of a synthesis, from the unrounded sum. *)
Lemma synthesize_results_lookups (results : gmap string (pyval F)) (x : F) :
  overall_confidence B results = Ok x →
  ∃ d, synthesize_results B results = Ok d
       ∧ d !! "overall_confidence" = Some (VFloat (fround x 2))
       ∧ d !! "recommendation" = Some (VStr (recommend x))
       ∧ d !! "risks"
         = Some (VList (VStr <$>
                   match (patent_factors B results).2 with
                   | [] => [ "No major risks identified" ]
                   | _ => (patent_factors B results).2
                   end))
       ∧ d !! "next_steps"
         = Some (VStr (if bool_decide (recommend x = "PROCEED")
                       then "Proceed to feasibility study"
                       else "Further analysis required")).
Proof.
  intros Hx. destruct (synthesize_results_fields B results x Hx) as (d & Hd & _).
  destruct (synthesize_results_inv B results d Hd) as (x' & Hx' & Hdx).
  rewrite Hx in Hx'. injection Hx' as <-. exists d. split; [exact Hd |].
  rewrite Hdx. split; [| split; [| split]].
  - apply lookup_insert_eq.
  - rewrite lookup_insert_ne by done. apply lookup_insert_eq.
  - rewrite !(lookup_insert_ne _ _ "risks") by done. apply lookup_insert_eq.
  - rewrite !(lookup_insert_ne _ _ "next_steps") by done. apply lookup_insert_eq.
Qed.

(** A degraded patent result carries no ["fto_status"]. *)
Lemma patent_factors_degraded (results : gmap string (pyval F)) (error : string) :
  results !! "patent_analysis" = Some (degraded error) →
  (patent_factors B results).2 = [].
Proof.
  intros Hp. unfold patent_factors, dict_get, fto_is_risk. rewrite Hp. unfold degraded.
  rewrite !(lookup_insert_ne _ _ "fto_status") by done. rewrite lookup_empty.
  reflexivity.
Qed.

End DegradedFacts.

(** The loop, once the six confidences are known. *)
Lemma overall_confidence_sum {F : Type} `{PyFloat F} (B : builtins F)
    (results : gmap string (pyval F)) (c : string → F) :
  (∀ name, name ∈ (weights F).*1 → confidence_is B results name (c name)) →
  overall_confidence B results
  = Ok (fadd (fadd (fadd (fadd (fadd (fadd (flit 0 1)
      (fmul (c "patent_analysis") (flit 25 2)))
      (fmul (c "clinical_analysis") (flit 20 2)))
      (fmul (c "market_analysis") (flit 20 2)))
      (fmul (c "web_analysis") (flit 15 2)))
      (fmul (c "exim_analysis") (flit 10 2)))
      (fmul (c "internal_analysis") (flit 10 2))).
Proof.
  intros Hc. unfold overall_confidence, weights.
  repeat (erewrite accumulate_step;
          [| apply Hc; unfold weights; cbn; set_solver ]).
  reflexivity.
Qed.

Lemma zero_sum :
  fadd (fadd (fadd (fadd (fadd (fadd (flit 0 1)
      (fmul (flit 0 1) (flit 25 2)))
      (fmul (flit 0 1) (flit 20 2)))
      (fmul (flit 0 1) (flit 20 2)))
      (fmul (flit 0 1) (flit 15 2)))
      (fmul (flit 0 1) (flit 10 2)))
      (fmul (flit 0 1) (flit 10 2)) = 0%float
  ∧ fround 0%float 2 = 0%float ∧ recommend 0%float = "REJECT".
Proof. vm_compute. repeat split. Qed.

(** X9: when the call of every agent raises, the run still reaches the
    renderer, with a synthesis whose overall confidence is [0.0], whose
    recommendation is REJECT and whose only risk line is the placeholder;
    the synthesizer does not raise. *)
Theorem all_failed_run_is_rejected
    (B : builtins float)
    (analyze : agent_class → string → string → call float)
    (generate_report : string → string → gmap string (pyval float) → result exn string)
    (timestamp : string) (self : MasterAgent) (molecule_name disease_name : string)
    (schedule : list event) (σ σ' : store)
    (out : result run_error (gmap string (pyval float))) :
  (∀ agent, ∃ e, outcome (analyze agent molecule_name disease_name) = Raise e) →
  analyze_repurposing_async B analyze generate_report timestamp self
    molecule_name disease_name schedule σ = Some (σ', out) →
  (∀ e, out ≠ Raise (SynthesisRaised e))
  ∧ ∀ bundle, out = Ok bundle →
      ∃ synthesis,
        bundle !! "master_synthesis" = Some (VDict synthesis)
        ∧ synthesis !! "overall_confidence" = Some (VFloat 0%float)
        ∧ synthesis !! "recommendation" = Some (VStr "REJECT")
        ∧ synthesis !! "risks" = Some (VList [ VStr "No major risks identified" ])
        ∧ synthesis !! "next_steps" = Some (VStr "Further analysis required").
Proof.
  intros Hall Hrun. apply run_with_assembles in Hrun. symmetry in Hrun.
  apply assemble_inv in Hrun. cbv zeta in Hrun.
  destruct (Hall PatentAgent) as [e1 H1]. destruct (Hall ClinicalTrialsAgent) as [e2 H2].
  destruct (Hall MarketAgent) as [e3 H3]. destruct (Hall WebIntelligenceAgent) as [e4 H4].
  destruct (Hall EXIMAgent) as [e5 H5]. destruct (Hall InternalKnowledgeAgent) as [e6 H6].
  rewrite (task_value_raised analyze _ _ _ e1 H1), (task_value_raised analyze _ _ _ e2 H2),
    (task_value_raised analyze _ _ _ e3 H3), (task_value_raised analyze _ _ _ e4 H4),
    (task_value_raised analyze _ _ _ e5 H5), (task_value_raised analyze _ _ _ e6 H6) in Hrun.
  set (all_results := <["timestamp" := _]> _) in Hrun.
  assert (Hpat : all_results !! "patent_analysis"
                 = Some (degraded (if is_timeout e1 then "Timeout" else exn_str e1))).
  { subst all_results. rewrite !lookup_insert_ne by (intros [=]). apply lookup_insert_eq. }
  assert (Hconf : ∀ name, name ∈ (weights float).*1 →
            confidence_is B all_results name (flit 0 1)).
  { intros name Hin. rewrite weights_names in Hin.
    apply list_elem_of_In in Hin. cbn [In] in Hin.
    destruct Hin as [<- | [<- | [<- | [<- | [<- | [<- | []]]]]]];
      eapply degraded_confidence; subst all_results;
      rewrite !lookup_insert_ne by done; apply lookup_insert_eq. }
  assert (Hsum : overall_confidence B all_results = Ok 0%float).
  { rewrite (overall_confidence_sum B all_results (λ _, flit 0 1) Hconf).
    cbv beta. rewrite (proj1 zero_sum). reflexivity. }
  assert (Hsyn : ∃ synthesis,
            synthesize_results B all_results = Ok synthesis
            ∧ synthesis !! "overall_confidence" = Some (VFloat 0%float)
            ∧ synthesis !! "recommendation" = Some (VStr "REJECT")
            ∧ synthesis !! "risks" = Some (VList [ VStr "No major risks identified" ])
            ∧ synthesis !! "next_steps" = Some (VStr "Further analysis required")).
  { destruct (synthesize_results_lookups B all_results 0%float Hsum)
      as (d & Hd & Hc & Hr & Hk & Hn).
    destruct zero_sum as (_ & Hround & Hrec).
    rewrite Hround in Hc. rewrite Hrec in Hr, Hn.
    rewrite (patent_factors_degraded B all_results _ Hpat) in Hk.
    exists d. split; [exact Hd |]. split; [exact Hc |]. split; [exact Hr |].
    split; [exact Hk | exact Hn]. }
  destruct Hsyn as (synthesis & Hs & Hfields). split.
  - intros e ->. rewrite Hs in Hrun. discriminate Hrun.
  - intros bundle ->. destruct Hrun as (synthesis' & pdf_path & Hs' & _ & ->).
    rewrite Hs in Hs'. injection Hs' as <-. exists synthesis. split; [| exact Hfields].
    rewrite lookup_insert_ne by (intros [=]). apply lookup_insert_eq.
Qed.

Lemma all_failed_run_is_rejected_witness :
  ∃ σ' out,
    analyze_repurposing_async no_builtins failing_analyze report_written
      "2024-01-01T00:00:00Z" (init ∅).1 "aspirin" "flu" in_order (init ∅).2
    = Some (σ', out)
    ∧ (∀ e, out ≠ Raise (SynthesisRaised e))
    ∧ ∀ bundle, out = Ok bundle →
        ∃ synthesis,
          bundle !! "master_synthesis" = Some (VDict synthesis)
          ∧ synthesis !! "overall_confidence" = Some (VFloat 0%float)
          ∧ synthesis !! "recommendation" = Some (VStr "REJECT")
          ∧ synthesis !! "risks" = Some (VList [ VStr "No major risks identified" ])
          ∧ synthesis !! "next_steps" = Some (VStr "Further analysis required").
Proof.
  destruct (run_with_in_order no_builtins failing_analyze report_written
              "2024-01-01T00:00:00Z" (init ∅).1 "aspirin" "flu" (init ∅).2)
    as (σ' & out & Hrun).
  exists σ', out. split; [exact Hrun |].
  refine (all_failed_run_is_rejected no_builtins failing_analyze report_written
            "2024-01-01T00:00:00Z" (init ∅).1 "aspirin" "flu" in_order (init ∅).2
            σ' out _ Hrun).
  intros agent. eexists. reflexivity.
Defined.

(** ** The conflict detector *)

Module ConflictMoreFacts.
Import ConflictDetector.

Section Facts.
Context {F : Type} `{PyFloat F}.

Lemma collect_sources_non_dict (l : list (pyval F)) :
  (∃ v, v ∈ l ∧ ∀ d, v ≠ VDict d) → collect_sources l = Raise AttributeError.
Proof.
  induction l as [| x l IH]; intros (v & Hin & Hv).
  - inversion Hin.
  - apply elem_of_cons in Hin as [-> | Hin].
    + destruct x as [ | | | | | | d]; try reflexivity. destruct (Hv d eq_refl).
    + destruct x as [ | | | | | | d]; try reflexivity.
      cbn [collect_sources]. rewrite IH by (exists v; split; assumption). reflexivity.
Qed.

Lemma py_set_unhashable (l : list (pyval F)) :
  (∃ v, v ∈ l ∧ py_key v = None) → py_set l = Raise TypeError.
Proof.
  induction l as [| x l IH]; intros (v & Hin & Hv).
  - inversion Hin.
  - cbn [py_set]. apply elem_of_cons in Hin as [-> | Hin].
    + rewrite Hv. reflexivity.
    + destruct (py_key x); [| reflexivity].
      rewrite IH by (exists v; split; assumption). reflexivity.
Qed.

Lemma same_sources_trans (a b c : result py_error (list (expiry_value F))) :
  same_sources a b → same_sources b c → same_sources a c.
Proof.
  destruct a, b, c; cbn; try contradiction; try congruence.
  intros Hab Hbc. etransitivity; eassumption.
Qed.

Lemma collect_sources_raises (l : list (pyval F)) e :
  collect_sources l = Raise e → e = AttributeError.
Proof.
  induction l as [| x l IH]; [discriminate |].
  destruct x as [ | | | | | | d]; cbn [collect_sources]; try (intros [= <-]; reflexivity).
  destruct (collect_sources l) as [vs | e']; cbn [bind]; [discriminate |].
  intros [= <-]. apply IH. reflexivity.
Qed.

Lemma collect_sources_perm (l l' : list (pyval F)) :
  l ≡ₚ l' → same_sources (collect_sources l) (collect_sources l').
Proof.
  induction 1 as [| x l l' _ IH | x y l | l l' l'' _ IH _ IH'].
  - cbn. reflexivity.
  - destruct x as [ | | | | | | d]; try (cbn; reflexivity).
    cbn [collect_sources].
    destruct (collect_sources l) as [vs | e], (collect_sources l') as [vs' | e'];
      cbn in IH |- *; try contradiction; try assumption.
    constructor. exact IH.
  - destruct x as [ | | | | | | dx], y as [ | | | | | | dy]; cbn [collect_sources];
      try (cbn; reflexivity);
      try (destruct (collect_sources l) as [vs | e] eqn:Hl; cbn;
           [reflexivity | symmetry; exact (collect_sources_raises l e Hl)]);
      try (destruct (collect_sources l) as [vs | e] eqn:Hl; cbn;
           [reflexivity | exact (collect_sources_raises l e Hl)]).
    destruct (collect_sources l) as [vs | e]; cbn; [apply perm_swap | reflexivity].
  - exact (same_sources_trans _ _ _ IH IH').
Qed.

Lemma py_set_perm (l l' : list (pyval F)) : l ≡ₚ l' → py_set l = py_set l'.
Proof.
  induction 1 as [| x l l' _ IH | x y l | l l' l'' _ IH _ IH'].
  - reflexivity.
  - cbn [py_set]. rewrite IH. reflexivity.
  - cbn [py_set]. destruct (py_key x) as [kx |], (py_key y) as [ky |]; try reflexivity.
    destruct (py_set l) as [s | e]; cbn [bind]; [| reflexivity].
    f_equal. rewrite !(assoc_L (∪)), (comm_L (∪) {[ ky ]} {[ kx ]}). reflexivity.
  - congruence.
Qed.

Lemma unique_values_perm (evs evs' : list (expiry_value F)) :
  evs ≡ₚ evs' → unique_values evs = unique_values evs'.
Proof.
  intros Hp. unfold unique_values. apply py_set_perm.
  apply filter_Permutation, fmap_Permutation, Hp.
Qed.

End Facts.

End ConflictMoreFacts.

(** X10: the verdict of [detect_conflicts] does not depend on the order of
    the entries of ["source_data"], nor on anything but the patent result:
    on two result maps whose source lists are permutations of each other it
    raises the same error or returns reports with the same
    [conflict_detected], listing the same sources up to order. *)
Theorem detect_conflicts_order_independent
    (F : Type) (PF : PyFloat F) (results results' : gmap string (pyval F))
    (patent_data patent_data' : gmap string (pyval F)) (l l' : list (pyval F)) :
  results !! "patent_analysis" = Some (VDict patent_data) →
  results' !! "patent_analysis" = Some (VDict patent_data') →
  patent_data !! "source_data" = Some (VList l) →
  patent_data' !! "source_data" = Some (VList l') →
  l ≡ₚ l' →
  match ConflictDetector.detect_conflicts results,
        ConflictDetector.detect_conflicts results' with
  | Ok r, Ok r' =>
      ConflictDetector.conflict_detected r = ConflictDetector.conflict_detected r'
      ∧ Forall2 (λ c c', ConflictDetector.sources c ≡ₚ ConflictDetector.sources c')
          (ConflictDetector.conflicts r) (ConflictDetector.conflicts r')
  | Raise e, Raise e' => e = e'
  | _, _ => False
  end.
Proof.
  intros Hp Hp' Hs Hs' Hperm.
  unfold ConflictDetector.detect_conflicts, dict_get. rewrite Hp, Hp', Hs, Hs'.
  cbn [ConflictDetector.py_iter bind].
  pose proof (ConflictMoreFacts.collect_sources_perm l l' Hperm) as Hc.
  destruct (ConflictDetector.collect_sources l) as [evs | e],
           (ConflictDetector.collect_sources l') as [evs' | e'];
    cbn in Hc; try contradiction; cbn [bind]; [| exact Hc].
  rewrite (ConflictMoreFacts.unique_values_perm evs evs' Hc).
  destruct (ConflictDetector.unique_values evs') as [u | e]; cbn [bind]; [| reflexivity].
  destruct (bool_decide (1 < size u)%nat); cbn.
  - split; [reflexivity |]. constructor; [exact Hc | constructor].
  - split; [reflexivity | constructor].
Qed.

(** X11: [detect_conflicts] raises on source data of the wrong shape,
    whatever else the sources say: [TypeError] when ["source_data"] is
    [None], a boolean or a number, [AttributeError] when it is a list with
    an element that is not a dictionary, and [TypeError] when a dictionary
    entry (or, without ["source_data"], the patent result itself) has a
    non-empty list or dictionary as ["expiry_date"]. *)
Theorem detect_conflicts_raises
    (F : Type) (PF : PyFloat F) (results patent_data : gmap string (pyval F)) :
  results !! "patent_analysis" = Some (VDict patent_data) →
  (∀ sd, patent_data !! "source_data" = Some sd →
         (sd = VNone ∨ (∃ b, sd = VBool b) ∨ (∃ n, sd = VInt n) ∨ (∃ x, sd = VFloat x)) →
         ConflictDetector.detect_conflicts results = Raise TypeError)
  ∧ (∀ l v, patent_data !! "source_data" = Some (VList l) →
            v ∈ l → (∀ d, v ≠ VDict d) →
            ConflictDetector.detect_conflicts results = Raise AttributeError)
  ∧ (∀ (entries : list (gmap string (pyval F))) entry v,
       patent_data !! "source_data" = Some (VList (VDict <$> entries)) →
       entry ∈ entries → entry !! "expiry_date" = Some v →
       ConflictDetector.py_truthy v = true → ConflictDetector.py_key v = None →
       ConflictDetector.detect_conflicts results = Raise TypeError)
  ∧ (∀ v, patent_data !! "source_data" = None →
          patent_data !! "expiry_date" = Some v →
          ConflictDetector.py_truthy v = true → ConflictDetector.py_key v = None →
          ConflictDetector.detect_conflicts results = Raise TypeError).
Proof.
  intros Hp.
  assert (Hd : ∀ default, dict_get results "patent_analysis" default = VDict patent_data)
    by (intros default; unfold dict_get; rewrite Hp; reflexivity).
  unfold ConflictDetector.detect_conflicts. rewrite Hd.
  split; [| split; [| split]].
  - intros sd Hs Hshape. rewrite Hs.
    destruct Hshape as [-> | [[b ->] | [[n ->] | [x ->]]]]; reflexivity.
  - intros l v Hs Hin Hv. rewrite Hs. cbn [ConflictDetector.py_iter bind].
    rewrite ConflictMoreFacts.collect_sources_non_dict by (exists v; split; assumption).
    reflexivity.
  - intros entries entry v Hs Hin Hv Ht Hk. rewrite Hs.
    cbn [ConflictDetector.py_iter bind].
    rewrite ConflictFacts.collect_sources_dicts. cbn [bind].
    unfold ConflictDetector.unique_values.
    rewrite ConflictMoreFacts.py_set_unhashable; [reflexivity |].
    exists v. split; [| exact Hk]. apply list_elem_of_filter.
    split; [rewrite Ht; exact I |].
    apply list_elem_of_fmap. exists (ConflictFacts.listed entry). split.
    + unfold ConflictFacts.listed, dict_get. cbn. rewrite Hv. reflexivity.
    + apply list_elem_of_fmap. exists entry. split; [reflexivity | exact Hin].
  - intros v Hs Hv Ht Hk. rewrite Hs. cbn [bind].
    unfold ConflictDetector.unique_values, dict_get. rewrite Hv.
    cbn [fmap list_fmap ConflictDetector.value].
    rewrite filter_cons_True by (rewrite Ht; exact I).
    cbn [ConflictDetector.py_set]. rewrite Hk. reflexivity.
Qed.

Lemma detect_conflicts_order_independent_witness :
  match ConflictDetector.detect_conflicts
          (patent_with (VList [ source_entry "USPTO" "2030"; source_entry "EPO" "2031" ])),
        ConflictDetector.detect_conflicts
          (patent_with (VList [ source_entry "EPO" "2031"; source_entry "USPTO" "2030" ]))
  with
  | Ok r, Ok r' =>
      ConflictDetector.conflict_detected r = ConflictDetector.conflict_detected r'
      ∧ Forall2 (λ c c', ConflictDetector.sources c ≡ₚ ConflictDetector.sources c')
          (ConflictDetector.conflicts r) (ConflictDetector.conflicts r')
  | Raise e, Raise e' => e = e'
  | _, _ => False
  end.
Proof.
  apply (detect_conflicts_order_independent float binary64 _ _
           {[ "source_data" :=
                VList [ source_entry "USPTO" "2030"; source_entry "EPO" "2031" ] ]}
           {[ "source_data" :=
                VList [ source_entry "EPO" "2031"; source_entry "USPTO" "2030" ] ]}
           [ source_entry "USPTO" "2030"; source_entry "EPO" "2031" ]
           [ source_entry "EPO" "2031"; source_entry "USPTO" "2030" ]).
  - reflexivity.
  - reflexivity.
  - reflexivity.
  - reflexivity.
  - apply perm_swap.
Defined.

Lemma detect_conflicts_raises_witness :
  ConflictDetector.detect_conflicts
    (patent_with (VList [ source_entry "USPTO" "2030"; VStr "EPO: 2031" ]))
  = Raise AttributeError.
Proof.
  refine (proj1 (proj2 (detect_conflicts_raises float binary64
            (patent_with (VList [ source_entry "USPTO" "2030"; VStr "EPO: 2031" ]))
            {[ "source_data" := VList [ source_entry "USPTO" "2030"; VStr "EPO: 2031" ] ]}
            _))
          [ source_entry "USPTO" "2030"; VStr "EPO: 2031" ] (VStr "EPO: 2031") _ _ _).
  - reflexivity.
  - reflexivity.
  - apply list_elem_of_further, list_elem_of_here.
  - intros d. discriminate.
Defined.

(** ** The EXIM provider *)

Module EXIMFacts.

Section Facts.
Context {F : Type} `{PyFloat F}.
Variable B : builtins F.
Variable T : text F.

Lemma py_join_joinable sep (v : pyval F) :
  joinable v → ∃ s, py_join T sep v = Ok s.
Proof.
  destruct v as [ | b | n | x | s | l | d]; cbn; try contradiction;
    try (intros _; eexists; reflexivity).
  intros Hl.
  assert (Hm : ∃ ss, mapM (λ x : pyval F, match x with VStr s => Some s | _ => None end) l
                     = Some ss).
  { induction Hl as [| x l [s ->] _ [ss IH]].
    - exists []. reflexivity.
    - exists (s :: ss). cbn. rewrite IH. reflexivity. }
  destruct Hm as [ss ->]. eexists. reflexivity.
Qed.

Lemma py_join_not_joinable sep (v : pyval F) :
  ¬ joinable v → py_join T sep v = Raise (Builtin TypeError).
Proof.
  destruct v as [ | b | n | x | s | l | d]; cbn; try reflexivity;
    try (intros Hn; destruct (Hn I)).
  intros Hn.
  destruct (mapM _ l) as [ss |] eqn:Hm; [| reflexivity].
  destruct Hn. apply mapM_Some in Hm.
  induction Hm as [| x s l ss Hx _ IH]; constructor; [| exact IH].
  destruct x; try discriminate. eexists. reflexivity.
Qed.

(** The shape of what [_fallback_analysis] returns. *)
Lemma fallback_analysis_inv (entry r : gmap string (pyval F)) :
  EXIM.fallback_analysis B T entry = Ok r →
  ∃ imports joined (verdict : string * F) insights,
    dict_get entry "india_imports" (VDict ∅) = VDict imports
    ∧ py_join T ", " (dict_get imports "top_sources" (VList [])) = Ok joined
    ∧ verdict = (if eq_str (dict_get entry "import_dependency" (VStr "Medium")) "Low"
                    && eq_str (dict_get entry "domestic_production" (VStr "Medium")) "High"
                 then ("Favorable", flit 85 2)
                 else if eq_str (dict_get entry "import_dependency" (VStr "Medium")) "High"
                         && eq_str (dict_get entry "domestic_production" (VStr "Medium")) "Low"
                 then ("Risky", flit 4 1)
                 else ("Cautionary", flit 6 1))
    ∧ r = <["import_dependency" := dict_get entry "import_dependency" (VStr "Medium")]>
          (<["domestic_availability" :=
               VBool (bool_decide (lower T (str_of B (dict_get entry "domestic_production"
                                                         (VStr "Medium"))) = "high")
                      || bool_decide (lower T (str_of B (dict_get entry "domestic_production"
                                                            (VStr "Medium"))) = "medium"))]>
          (<["top_import_sources" := dict_get imports "top_sources" (VList [])]>
          (<["sourcing_risk" := dict_get entry "sourcing_risk" (VStr "Medium")]>
          (<["manufacturing_viability" := VStr verdict.1]>
          (<["key_insights" := VStr insights]>
          (<["confidence" := VFloat verdict.2]> ∅)))))).
Proof.
  unfold EXIM.fallback_analysis. intros Hr.
  destruct (dict_get entry "india_imports" (VDict ∅)) as [ | | | | | | imports];
    try discriminate.
  cbn [py_get bind] in Hr.
  set (verdict := if eq_str _ "Low" && _ then _ else _) in *.
  destruct verdict as [viability conf] eqn:Hv.
  destruct (py_join T ", " _) as [joined |] eqn:Hj; [| discriminate].
  cbn [bind] in Hr. injection Hr as <-.
  exists imports, joined, (viability, conf). eexists.
  split; [reflexivity |]. split; [exact Hj |]. split; reflexivity.
Qed.

Lemma py_join_Ok sep (v : pyval F) s : py_join T sep v = Ok s → joinable v.
Proof.
  destruct v as [ | b | n | x | s' | l | d]; cbn; try discriminate; try (intros _; exact I).
  destruct (mapM _ l) as [ss |] eqn:Hm; [intros _ | discriminate].
  apply mapM_Some in Hm.
  induction Hm as [| x s' l ss Hx _ IH]; constructor; [| exact IH].
  destruct x; try discriminate. eexists. reflexivity.
Qed.

Lemma py_join_Raise sep (v : pyval F) e :
  py_join T sep v = Raise e → e = Builtin TypeError ∧ ¬ joinable v.
Proof.
  intros Hr. split.
  - destruct v as [ | b | n | x | s' | l | d]; cbn in Hr; try congruence.
    destruct (mapM _ l); congruence.
  - intros Hj. destruct (py_join_joinable sep v Hj) as [s Hs]. congruence.
Qed.

Lemma fallback_analysis_dom (entry r : gmap string (pyval F)) :
  EXIM.fallback_analysis B T entry = Ok r →
  dom r = list_to_set EXIM.expected_keys ∧ ∃ x, r !! "confidence" = Some (VFloat x).
Proof.
  intros Hr. apply fallback_analysis_inv in Hr
    as (imports & joined & verdict & insights & _ & _ & _ & ->).
  split.
  - rewrite !dom_insert_L, dom_empty_L. unfold EXIM.expected_keys. cbn. set_solver.
  - exists verdict.2. rewrite !(lookup_insert_ne _ _ "confidence") by done.
    apply lookup_insert_eq.
Qed.

Lemma eq_str_true (v : pyval F) s : eq_str v s = true ↔ v = VStr s.
Proof.
  destruct v as [ | b | n | x | s' | l | d]; cbn; try (split; [discriminate | intros [=]]).
  rewrite bool_decide_eq_true. split; [intros -> | intros [= ->]]; reflexivity.
Qed.

(** The three verdicts of [_fallback_analysis]. *)
Lemma verdict_cases (imp prod : pyval F) :
  let verdict : string * F :=
    if eq_str imp "Low" && eq_str prod "High" then ("Favorable", flit 85 2)
    else if eq_str imp "High" && eq_str prod "Low" then ("Risky", flit 4 1)
    else ("Cautionary", flit 6 1) in
  (verdict = ("Favorable", flit 85 2) ∧ imp = VStr "Low" ∧ prod = VStr "High")
  ∨ ((verdict = ("Risky", flit 4 1) ∨ verdict = ("Cautionary", flit 6 1))
     ∧ ¬ (imp = VStr "Low" ∧ prod = VStr "High")).
Proof.
  cbv zeta.
  destruct (eq_str imp "Low") eqn:Hi; [destruct (eq_str prod "High") eqn:Hp |]; cbn [andb].
  - left. split; [reflexivity |]. split; apply eq_str_true; assumption.
  - right. split.
    + destruct (eq_str imp "High" && eq_str prod "Low"); [left | right]; reflexivity.
    + intros [_ Hq]. apply eq_str_true in Hq. congruence.
  - right. split.
    + destruct (eq_str imp "High" && eq_str prod "Low"); [left | right]; reflexivity.
    + intros [Hq _]. apply eq_str_true in Hq. congruence.
Qed.

Lemma dict_get_literal (entry : gmap string (pyval F)) (key s : string) :
  s ≠ "Medium" →
  dict_get entry key (VStr "Medium") = VStr s ↔ entry !! key = Some (VStr s).
Proof.
  intros Hs. unfold dict_get. destruct (entry !! key) as [v |].
  - split; [intros -> | intros [= ->]]; reflexivity.
  - split; [intros [= Hm]; destruct Hs; symmetry; exact Hm | discriminate].
Qed.

Lemma fallback_analysis_Raise (entry : gmap string (pyval F)) e :
  EXIM.fallback_analysis B T entry = Raise e →
  (e = Builtin AttributeError
   ∧ ∀ imports, dict_get entry "india_imports" (VDict ∅) ≠ VDict imports)
  ∨ (e = Builtin TypeError
     ∧ ∃ imports, dict_get entry "india_imports" (VDict ∅) = VDict imports
                  ∧ ¬ joinable (dict_get imports "top_sources" (VList []))).
Proof.
  intros Hr. unfold EXIM.fallback_analysis in Hr.
  destruct (dict_get entry "india_imports" (VDict ∅)) as [ | | | | | | imports] eqn:Hi;
    cbn [py_get bind] in Hr;
    try (injection Hr as <-; left; split; [reflexivity | intros imports; discriminate]).
  right.
  destruct (if eq_str _ "Low" && _ then _ else _) as [viability conf].
  destruct (py_join T ", " _) as [joined | e'] eqn:Hj; [discriminate |].
  cbn [bind] in Hr. injection Hr as <-.
  destruct (py_join_Raise _ _ _ Hj) as [-> Hn].
  split; [reflexivity |]. exists imports. split; [reflexivity | exact Hn].
Qed.

Lemma fill_missing_mono (result fallback : gmap string (pyval F)) ks k :
  is_Some (result !! k) →
  is_Some (foldr (λ k r, if bool_decide (is_Some (result !! k)) then r
                         else <[k := dict_get fallback k VNone]> r) result ks !! k).
Proof.
  intros Hk. induction ks as [| k0 ks IH]; [exact Hk |]. cbn [foldr].
  destruct (bool_decide (is_Some (result !! k0))); [exact IH |].
  apply lookup_insert_is_Some'. right. exact IH.
Qed.

Lemma fill_missing_is_Some (result fallback : gmap string (pyval F)) ks k :
  k ∈ ks →
  is_Some (foldr (λ k r, if bool_decide (is_Some (result !! k)) then r
                         else <[k := dict_get fallback k VNone]> r) result ks !! k).
Proof.
  induction ks as [| k0 ks IH]; intros Hin; [inversion Hin |]. cbn [foldr].
  apply elem_of_cons in Hin as [-> | Hin].
  - destruct (bool_decide (is_Some (result !! k0))) eqn:Hb.
    + apply bool_decide_eq_true in Hb. apply fill_missing_mono. exact Hb.
    + apply lookup_insert_is_Some'. left. reflexivity.
  - destruct (bool_decide (is_Some (result !! k0))); [exact (IH Hin) |].
    apply lookup_insert_is_Some'. right. exact (IH Hin).
Qed.

End Facts.

End EXIMFacts.

(** X12: [_fallback_analysis] returns exactly when ["india_imports"] is
    absent or a dictionary and its ["top_sources"] is absent or something
    [join] accepts; it then returns the seven expected keys, passing the
    entry's own fields through, with one of three verdicts, Favorable only
    for a Low import dependency with High domestic production.  Otherwise
    it raises [AttributeError] (["india_imports"] is not a dictionary) or
    [TypeError] (the sources cannot be joined). *)
Theorem fallback_analysis_outcome
    (F : Type) (PF : PyFloat F) (B : builtins F) (T : text F)
    (entry : gmap string (pyval F)) :
  match EXIM.fallback_analysis B T entry with
  | Ok r =>
      ∃ imports,
        dict_get entry "india_imports" (VDict ∅) = VDict imports
        ∧ joinable (dict_get imports "top_sources" (VList []))
        ∧ dom r = list_to_set EXIM.expected_keys
        ∧ r !! "top_import_sources" = Some (dict_get imports "top_sources" (VList []))
        ∧ r !! "import_dependency"
          = Some (dict_get entry "import_dependency" (VStr "Medium"))
        ∧ r !! "sourcing_risk" = Some (dict_get entry "sourcing_risk" (VStr "Medium"))
        ∧ (r !! "manufacturing_viability", r !! "confidence")
          ∈ [ (Some (VStr "Favorable"), Some (VFloat (flit 85 2)));
              (Some (VStr "Risky"), Some (VFloat (flit 4 1)));
              (Some (VStr "Cautionary"), Some (VFloat (flit 6 1))) ]
        ∧ (r !! "manufacturing_viability" = Some (VStr "Favorable")
           ↔ entry !! "import_dependency" = Some (VStr "Low")
             ∧ entry !! "domestic_production" = Some (VStr "High"))
  | Raise e =>
      (e = Builtin AttributeError
       ∧ ∀ imports, dict_get entry "india_imports" (VDict ∅) ≠ VDict imports)
      ∨ (e = Builtin TypeError
         ∧ ∃ imports, dict_get entry "india_imports" (VDict ∅) = VDict imports
                      ∧ ¬ joinable (dict_get imports "top_sources" (VList [])))
  end.
Proof.
  destruct (EXIM.fallback_analysis B T entry) as [r | e] eqn:Hr.
  - apply EXIMFacts.fallback_analysis_inv in Hr
      as (imports & joined & verdict & insights & Hi & Hj & Hv & ->).
    exists imports. split; [exact Hi |].
    split; [exact (EXIMFacts.py_join_Ok T _ _ _ Hj) |].
    split; [rewrite !dom_insert_L, dom_empty_L; unfold EXIM.expected_keys; cbn; set_solver |].
    split; [rewrite !(lookup_insert_ne _ _ "top_import_sources") by done;
            apply lookup_insert_eq |].
    split; [apply lookup_insert_eq |].
    split; [rewrite !(lookup_insert_ne _ _ "sourcing_risk") by done;
            apply lookup_insert_eq |].
    rewrite !(lookup_insert_ne _ _ "manufacturing_viability") by done.
    rewrite lookup_insert_eq.
    rewrite !(lookup_insert_ne _ _ "confidence") by done. rewrite lookup_insert_eq.
    pose proof (EXIMFacts.verdict_cases
                  (dict_get entry "import_dependency" (VStr "Medium"))
                  (dict_get entry "domestic_production" (VStr "Medium"))) as Hc.
    cbv zeta in Hc. rewrite <- Hv in Hc.
    rewrite !EXIMFacts.dict_get_literal in Hc by (intros [=]).
    destruct Hc as [(-> & Hi' & Hp') | [[-> | ->] Hn]]; cbn [fst snd].
    + split; [apply list_elem_of_here |]. split; [intros _; split; assumption | reflexivity].
    + split; [apply list_elem_of_further, list_elem_of_here |].
      split; [intros [=] | intros Hq; destruct (Hn Hq)].
    + split; [do 2 apply list_elem_of_further; apply list_elem_of_here |].
      split; [intros [=] | intros Hq; destruct (Hn Hq)].
  - exact (EXIMFacts.fallback_analysis_Raise B T entry e Hr).
Qed.

(** X13: whatever the trade data and the model say, a value returned by
    [analyze_sourcing] is a dictionary, and it is either the single
    ["error"] entry for a molecule that was not found, or it has all seven
    expected keys with a float under ["confidence"]. *)
Theorem analyze_sourcing_result
    (F : Type) (PF : PyFloat F) (B : builtins F) (T : text F) (data_path : string)
    (loaded : result exn (pyval F)) (generated : result exn string)
    (molecule_name : string) (v : pyval F) :
  EXIM.analyze_sourcing B T data_path loaded generated molecule_name = Ok v →
  ∃ r, v = VDict r
       ∧ (r = {[ "error" := VStr ("Molecule '" +:+ molecule_name
                                    +:+ "' not found in " +:+ data_path) ]}
          ∨ (Forall (λ k, is_Some (r !! k)) EXIM.expected_keys
             ∧ ∃ x, r !! "confidence" = Some (VFloat x))).
Proof.
  unfold EXIM.analyze_sourcing. intros Hv.
  destruct (EXIM.load_trade_data loaded) as [molecules |]; [| discriminate].
  cbn [bind] in Hv.
  destruct (elements molecules) as [items |]; [| discriminate]. cbn [bind] in Hv.
  destruct (EXIM.first_match B T items molecule_name) as [[entry |] |]; [| | discriminate];
    cbn [bind] in Hv.
  2: { injection Hv as <-. eexists. split; [reflexivity | left; reflexivity]. }
  destruct (bool_decide (size entry = 0%nat)).
  { injection Hv as <-. eexists. split; [reflexivity | left; reflexivity]. }
  assert (Hfb : ∀ v', (let* r := EXIM.fallback_analysis B T entry in Ok (VDict r)) = Ok v' →
            ∃ r, v' = VDict r
                 ∧ Forall (λ k, is_Some (r !! k)) EXIM.expected_keys
                 ∧ ∃ x, r !! "confidence" = Some (VFloat x)).
  { intros v' Hv'.
    destruct (EXIM.fallback_analysis B T entry) as [r |] eqn:Hr; [| discriminate].
    injection Hv' as <-. exists r. split; [reflexivity |].
    destruct (EXIMFacts.fallback_analysis_dom B T entry r Hr) as [Hdom Hconf].
    split; [| exact Hconf].
    apply Forall_forall. intros k Hk. apply elem_of_dom. rewrite Hdom.
    apply elem_of_list_to_set. exact Hk. }
  destruct (EXIM.call_gemini generated) as [raw |].
  2: { destruct (Hfb v Hv) as (r & -> & Hk & Hc). exists r.
       split; [reflexivity | right; split; assumption]. }
  destruct (json_loads T (EXIM.clean_model_output T raw)) as [[ | | | | | | result] |];
    try discriminate.
  2: { destruct (Hfb v Hv) as (r & -> & Hk & Hc). exists r.
       split; [reflexivity | right; split; assumption]. }
  destruct (forallb _ EXIM.expected_keys) eqn:Hall; cbn [bind] in Hv.
  - destruct (to_float B _) as [conf |]; [| discriminate]. cbn [bind] in Hv.
    injection Hv as <-. eexists. split; [reflexivity |]. right. split.
    + apply Forall_forall. intros k Hk. apply lookup_insert_is_Some'. right.
      rewrite forallb_forall in Hall. apply list_elem_of_In in Hk.
      apply Hall in Hk. apply bool_decide_eq_true in Hk. exact Hk.
    + exists conf. apply lookup_insert_eq.
  - destruct (EXIM.fallback_analysis B T entry) as [fallback |]; [| discriminate].
    cbn [bind] in Hv.
    destruct (to_float B _) as [conf |]; [| discriminate]. cbn [bind] in Hv.
    injection Hv as <-. eexists. split; [reflexivity |]. right. split.
    + apply Forall_forall. intros k Hk. apply lookup_insert_is_Some'. right.
      apply EXIMFacts.fill_missing_is_Some. exact Hk.
    + exists conf. apply lookup_insert_eq.
Qed.


Lemma sample_sourcing_returns :
  EXIM.analyze_sourcing no_builtins sample_text "data/exim_trade_data.json"
    (Ok sample_trade_data) (Ok "{}") "aspirin" = Ok sample_sourcing.
Proof. vm_compute. reflexivity. Qed.

Lemma analyze_sourcing_result_witness :
  ∃ r, sample_sourcing = VDict r
       ∧ (r = {[ "error" := VStr ("Molecule '" +:+ "aspirin"
                                    +:+ "' not found in " +:+ "data/exim_trade_data.json") ]}
          ∨ (Forall (λ k, is_Some (r !! k)) EXIM.expected_keys
             ∧ ∃ x, r !! "confidence" = Some (VFloat x))).
Proof.
  exact (analyze_sourcing_result float binary64 no_builtins sample_text
           "data/exim_trade_data.json" (Ok sample_trade_data) (Ok "{}") "aspirin"
           sample_sourcing sample_sourcing_returns).
Defined.


(** ** The patent provider *)

Module PatentFacts.

Section Facts.
Context {F : Type} `{PyFloat F}.
Variable T : text F.

(** The record found carries a name that matches. *)
Lemma find_in_Ok (data : list (pyval F)) molecule_name record :
  Patent.find_in T data molecule_name = Ok record →
  VDict record ∈ data
  ∧ ∃ name, record !! "molecule_name" = Some (VStr name)
            ∧ normal T name = normal T molecule_name.
Proof.
  induction data as [| entry data IH]; [discriminate |].
  destruct entry as [ | | | | | | entry]; cbn [Patent.find_in]; try discriminate.
  destruct (entry !! "molecule_name") as [[ | | | | name | | ] |] eqn:Hn; try discriminate.
  destruct (bool_decide_reflect (normal T name = normal T molecule_name)) as [Heq | Hne].
  - intros [= <-]. split; [apply list_elem_of_here |]. exists name. split; assumption.
  - intros Hr. destruct (IH Hr) as [Hin Hname].
    split; [apply list_elem_of_further; exact Hin | exact Hname].
Qed.

(** The loop only looks at the normal form of the name it is given. *)
Lemma find_in_normal (data : list (pyval F)) m m' :
  normal T m = normal T m' →
  match Patent.find_in T data m, Patent.find_in T data m' with
  | Ok r, Ok r' => r = r'
  | Raise e, Raise e' =>
      e = e'
      ∨ (e = ValueErrorMsg ("Molecule '" +:+ m +:+ "' not found in patent_data.json")
         ∧ e' = ValueErrorMsg ("Molecule '" +:+ m' +:+ "' not found in patent_data.json"))
  | _, _ => False
  end.
Proof.
  intros Hn. induction data as [| entry data IH].
  - cbn. right. split; reflexivity.
  - destruct entry as [ | | | | | | entry]; cbn [Patent.find_in];
      try (left; reflexivity).
    destruct (entry !! "molecule_name") as [[ | | | | name | | ] |];
      try (left; reflexivity).
    rewrite <- Hn. destruct (bool_decide (normal T name = normal T m)); [reflexivity |].
    exact IH.
Qed.

(** No record matches: the loop runs to its end. *)
Lemma find_in_unknown (entries : list (gmap string (pyval F))) molecule_name :
  (∀ entry, entry ∈ entries →
     ∃ name, entry !! "molecule_name" = Some (VStr name)
             ∧ normal T name ≠ normal T molecule_name) →
  Patent.find_in T (VDict <$> entries) molecule_name
  = Raise (ValueErrorMsg ("Molecule '" +:+ molecule_name
                            +:+ "' not found in patent_data.json")).
Proof.
  induction entries as [| entry entries IH]; intros Hall; [reflexivity |].
  cbn [fmap list_fmap Patent.find_in].
  destruct (Hall entry (list_elem_of_here _ _)) as (name & -> & Hne).
  rewrite bool_decide_eq_false_2 by exact Hne.
  apply IH. intros e He. apply Hall. apply list_elem_of_further. exact He.
Qed.

End Facts.

End PatentFacts.

(** X15: the patent lookup only depends on the normal form
    ([strip] then [lower]) of the molecule name: two names with the same
    normal form find the same record, the first one in file order whose
    name matches, or fail alike (the message of the [ValueError] quoting
    the name as it was given). *)
Theorem find_molecule_record_normal
    (F : Type) (PF : PyFloat F) (T : text F) (loaded : result exn (pyval F))
    (m m' : string) :
  normal T m = normal T m' →
  match Patent.find_molecule_record T loaded m, Patent.find_molecule_record T loaded m' with
  | Ok r, Ok r' =>
      r = r' ∧ ∃ name, r !! "molecule_name" = Some (VStr name)
                       ∧ normal T name = normal T m
  | Raise e, Raise e' =>
      e = e'
      ∨ (e = ValueErrorMsg ("Molecule '" +:+ m +:+ "' not found in patent_data.json")
         ∧ e' = ValueErrorMsg ("Molecule '" +:+ m' +:+ "' not found in patent_data.json"))
  | _, _ => False
  end.
Proof.
  intros Hn. unfold Patent.find_molecule_record.
  destruct (Patent.load_patent_data loaded) as [data | e]; cbn [bind]; [| left; reflexivity].
  destruct (elements data) as [entries | e]; cbn [bind]; [| left; reflexivity].
  pose proof (PatentFacts.find_in_normal T entries m m' Hn) as Hsame.
  destruct (Patent.find_in T entries m) as [r | e] eqn:Hr,
           (Patent.find_in T entries m') as [r' | e']; try contradiction; [| exact Hsame].
  split; [exact Hsame |]. exact (proj2 (PatentFacts.find_in_Ok T entries m r Hr)).
Qed.

(** X16: a value returned by [search_patent] is the JSON object the model
    wrote, unchanged, and it has the six required keys; nothing else about
    it is checked, the type of ["confidence"] included. *)
Theorem search_patent_result
    (F : Type) (PF : PyFloat F) (T : text F) (loaded : result exn (pyval F))
    (response : reply) (molecule_name : string) (v : pyval F) :
  Patent.search_patent T loaded response molecule_name = Ok v →
  ∃ text result,
    response = Text text
    ∧ json_loads T (clean_fences T (strip T text)) = Some (VDict result)
    ∧ v = VDict result
    ∧ Forall (λ k, is_Some (result !! k)) Patent.required_keys
    ∧ ∃ record, Patent.find_molecule_record T loaded molecule_name = Ok record.
Proof.
  unfold Patent.search_patent. intros Hv.
  destruct (Patent.find_molecule_record T loaded molecule_name) as [record |];
    [| discriminate].
  cbn [bind] in Hv. destruct response as [e | | text]; try discriminate.
  destruct (json_loads T (clean_fences T (strip T text))) as [[ | | | | | | result] |] eqn:Hj;
    try discriminate.
  destruct (bool_decide_reflect (list_to_set Patent.required_keys ∖ dom result
                                 = (∅ : gset string))) as [Hm | Hm]; [| discriminate].
  injection Hv as <-. exists text, result.
  split; [reflexivity |]. split; [exact Hj |]. split; [reflexivity |].
  split; [| exists record; reflexivity].
  apply Forall_forall. intros k Hk. apply elem_of_dom.
  destruct (decide (k ∈ dom result)) as [Hin | Hnin]; [exact Hin |].
  assert (Hk' : k ∈ (list_to_set Patent.required_keys ∖ dom result : gset string)).
  { apply elem_of_difference. split; [apply elem_of_list_to_set; exact Hk | exact Hnin]. }
  rewrite Hm in Hk'. apply elem_of_empty in Hk'. destruct Hk'.
Qed.

Lemma find_molecule_record_normal_witness :
  match Patent.find_molecule_record sample_text (Ok sample_patent_data) "ASPIRIN",
        Patent.find_molecule_record sample_text (Ok sample_patent_data) "aspirin" with
  | Ok r, Ok r' =>
      r = r' ∧ ∃ name, r !! "molecule_name" = Some (VStr name)
                       ∧ normal sample_text name = normal sample_text "ASPIRIN"
  | Raise e, Raise e' =>
      e = e'
      ∨ (e = ValueErrorMsg ("Molecule '" +:+ "ASPIRIN" +:+ "' not found in patent_data.json")
         ∧ e' = ValueErrorMsg ("Molecule '" +:+ "aspirin"
                                 +:+ "' not found in patent_data.json"))
  | _, _ => False
  end.
Proof.
  apply (find_molecule_record_normal float binary64 sample_text (Ok sample_patent_data)
           "ASPIRIN" "aspirin").
  vm_compute. reflexivity.
Defined.

Lemma sample_patent_returns :
  Patent.search_patent sample_text (Ok sample_patent_data) (Text "{patent answer}") "aspirin"
  = Ok (VDict sample_patent_answer).
Proof. vm_compute. reflexivity. Qed.

Lemma search_patent_result_witness :
  ∃ text result,
    Text "{patent answer}" = Text text
    ∧ json_loads sample_text (clean_fences sample_text (strip sample_text text))
      = Some (VDict result)
    ∧ VDict sample_patent_answer = VDict result
    ∧ Forall (λ k, is_Some (result !! k)) Patent.required_keys
    ∧ ∃ record, Patent.find_molecule_record sample_text (Ok sample_patent_data) "aspirin"
                = Ok record.
Proof.
  exact (search_patent_result float binary64 sample_text (Ok sample_patent_data)
           (Text "{patent answer}") "aspirin" (VDict sample_patent_answer)
           sample_patent_returns).
Defined.
